(** * Barcode Battler: creature generation, leveling, difficulty, AI and battle engine

    A shallow embedding of the game's core classes (BarcodeProcessor,
    GameUtils, DataValidation, CreatureManager, DifficultyManager,
    AIOpponent, BattleEngine) together with the properties stated about
    them.

    Conventions of the embedding.
    - JavaScript numbers that the code keeps integral are [Z]; fractional
      intermediate values are exact rationals [Q], and [Math.floor] is
      [Qfloor].  The health ratio of the leveling code, whose rounding
      shows in the result, is computed as the source computes it: the
      quotient and the product are each rounded to the nearest double
      ([Js.div], [Js.mul]).  The experience thresholds are exact; the
      source's agree with them up to level 76.  Where an operation of the source would leave the finite
      numbers (NaN from [parseInt] of a non-digit, a division by zero in the
      leveling code), the embedded function returns [None] or [NotFinite];
      the health percentages of the AI carry NaN and the infinities
      explicitly ([Num]).
    - [%] is JavaScript's truncated remainder, [Z.rem].
    - Strings are [string]; [s[i]] is [String.get], [s.length] is
      [String.length].  The difficulty of a battle and of an AIOpponent is
      the text that the caller passed, which the engine stores unchecked;
      a table indexed by it finds an entry of its own, a property that
      every object inherits, or nothing ([DifficultyName.lookup]).
    - Objects that the source mutates in place are passed and returned
      explicitly; [GameUtils.deepClone] is then the identity.
    - [Math.random], [Date.now] and [new Date()] read from an explicit
      [World].
    - Persistence (local storage, the storage manager) is an outside
      collaborator whose failures the source catches; it is not
      represented, except for the saved progress of the DifficultyManager
      ([Progression.saveProgress], [Progression.loadProgress]).  The console
      output of the leveling code and the events of the DifficultyManager
      are. *)

From Stdlib Require Import ZArith QArith Qround List String Ascii Bool Lia.
Import ListNotations.

Local Open Scope Z_scope.

(** ** JavaScript helpers *)

Module Js.

(** [Math.floor] on an exact rational. *)
Definition floor (q : Q) : Z := Qfloor q.

(** [2 ^ k] for an integer [k]. *)
Definition pow2 (k : Z) : Q :=
  if 0 <=? k then inject_Z (2 ^ k) else Qmake 1 (Z.to_pos (2 ^ (- k))).

(** [floor (log2 q)] for a positive rational [q]: with
    [k = log2 (numerator) - log2 (denominator)] it is [k] or [k - 1]. *)
Definition ilog2 (q : Q) : Z :=
  let k := Z.log2 (Qnum q) - Z.log2 (Zpos (Qden q)) in
  if Qle_bool (pow2 k) q then k else k - 1.

(** The nearest whole number, the even one of two nearest. *)
Definition roundHalfEven (x : Q) : Z :=
  let f := Qfloor x in
  match (x - inject_Z f ?= 1 # 2)%Q with
  | Lt => f
  | Gt => f + 1
  | Eq => if Z.even f then f else f + 1
  end.

(** The exponent of the spacing of the doubles around a positive [q]: 52
    binary places below the leading one, not below [2 ^ -1074] (the
    subnormal numbers).  The embedding keeps whole numbers exact, so the
    spacing stops at 1; up to [2 ^ 53] that is the spacing of the doubles. *)
Definition ulp (q : Q) : Z := Z.min 0 (Z.max (ilog2 q - 52) (-1074)).

(** The multiple of the spacing nearest to a positive [q], the even one of
    two nearest. *)
Definition nearest (q : Q) : Q :=
  let scale := 2 ^ (- ulp q) in
  Qmake (roundHalfEven (q * inject_Z scale)) (Z.to_pos scale).

(** The value that a JavaScript number takes for the exact result [q] of
    an operation (IEEE 754 binary64, round to nearest, ties to even). *)
Definition double (q : Q) : Q :=
  let r := Qred q in
  match Qnum r with
  | 0 => 0%Q
  | Zpos _ => nearest r
  | Zneg _ => (- nearest (- r))%Q
  end.

(** [a / b] for [b <> 0], and [a * b]. *)
Definition div (a b : Q) : Q := double (a / b).
Definition mul (a b : Q) : Q := double (a * b).

(** [a < b] on rationals, as a boolean. *)
Definition Qltb (a b : Q) : bool := negb (Qle_bool b a).

(** [a > b] on rationals, as a boolean. *)
Definition Qgtb (a b : Q) : bool := Qltb b a.

(** [parseInt(c)] for a one-character string [c]: a decimal digit gives its
    value, every other character gives NaN ([None]). *)
Definition parseInt (c : ascii) : option Z :=
  let n := Z.of_nat (nat_of_ascii c) in
  if (48 <=? n) && (n <=? 57) then Some (n - 48) else None.

(** The character class [\d] of a regular expression without the unicode
    flag: the ten ASCII digits. *)
Definition isDigit (c : ascii) : bool :=
  let n := Z.of_nat (nat_of_ascii c) in (48 <=? n) && (n <=? 57).

Fixpoint allDigits (s : string) : bool :=
  match s with
  | EmptyString => true
  | String c rest => isDigit c && allDigits rest
  end.

(** [/^\d+$/.test(s)]: one or more digits, nothing else. *)
Definition testDigitsOnly (s : string) : bool :=
  match s with
  | EmptyString => false
  | _ => allDigits s
  end.

(** [s.length]. *)
Definition strlen (s : string) : Z := Z.of_nat (String.length s).

(** [s.slice(0, pos)] and [s.slice(pos)] for [0 <= pos]. *)
Definition sliceTo (s : string) (pos : nat) : string := substring 0 pos s.
Definition sliceFrom (s : string) (pos : nat) : string :=
  substring pos (String.length s - pos) s.

(** [set.includes(c)] / [str.includes(c)] for a single character. *)
Fixpoint includesChar (s : string) (c : ascii) : bool :=
  match s with
  | EmptyString => false
  | String d rest => Ascii.eqb d c || includesChar rest c
  end.

(** [arr[i]] for a number [i]: [None] is [undefined] (index out of range). *)
Definition index {A : Type} (arr : list A) (i : Z) : option A :=
  if i <? 0 then None else nth_error arr (Z.to_nat i).

(** [c.toUpperCase()] on the characters the name generator produces. *)
Definition toUpperCase (c : ascii) : ascii :=
  let n := nat_of_ascii c in
  if ((97 <=? n) && (n <=? 122))%nat then ascii_of_nat (n - 32) else c.

End Js.

(** ** The world the code reads from *)

(** Values of [Math.random()]: rationals in [0, 1), written as
    [numer / (numer + gap)]. *)
Record Unit01 := mkUnit01 { numer : N; gap : positive }.

Definition unit01ToQ (u : Unit01) : Q :=
  Qmake (Z.of_N (numer u))
        (match numer u with
         | N0 => gap u
         | Npos p => (p + gap u)%positive
         end).

Record World := mkWorld {
  clock : nat -> Z;        (* successive readings of the system time *)
  entropy : nat -> Unit01; (* successive results of Math.random() *)
  ticks : nat;             (* clock readings made so far *)
  draws : nat              (* Math.random() calls made so far *)
}.

(** [Date.now()] / [new Date()]. *)
Definition dateNow (w : World) : Z * World :=
  (clock w (ticks w), mkWorld (clock w) (entropy w) (S (ticks w)) (draws w)).

(** [Math.random()]. *)
Definition mathRandom (w : World) : Q * World :=
  (unit01ToQ (entropy w (draws w)),
   mkWorld (clock w) (entropy w) (ticks w) (S (draws w))).

(** ** Data model (type definitions of the game) *)

Record CreatureStats := mkStats {
  hp : Z;
  maxHp : Z;
  attack : Z;
  defense : Z;
  speed : Z
}.

(** The token built by [GameUtils.generateId]: the base-36 rendering of a
    time stamp followed by that of a random number; kept as the pair it is
    printed from. *)
Record CreatureId := mkId { stamp : Z; salt : Q }.

Record DifficultyBonuses := mkBonuses {
  specialAttackFrequency : Q;
  criticalHitChance : Q;
  experienceReward : Z
}.

Record Creature := mkCreature {
  id : CreatureId;
  name : string;
  barcode : string;
  stats : CreatureStats;
  level : Z;
  experience : Z;
  experienceToNext : Z;
  discoveryDate : Z;
  battlesWon : Z;
  battlesLost : Z;
  isOpponent : bool;
  difficultyBonuses : option DifficultyBonuses
}.

(** ** GameConstants *)

Module GameConstants.
Definition MIN_BARCODE_LENGTH : Z := 8.
Definition MAX_BARCODE_LENGTH : Z := 20.
Definition BASE_HP_MIN : Z := 80.
Definition BASE_HP_MAX : Z := 120.
Definition BASE_ATTACK_MIN : Z := 30.
Definition BASE_ATTACK_MAX : Z := 70.
Definition BASE_DEFENSE_MIN : Z := 25.
Definition BASE_DEFENSE_MAX : Z := 65.
Definition BASE_SPEED_MIN : Z := 20.
Definition BASE_SPEED_MAX : Z := 60.
Definition BASE_EXPERIENCE_TO_LEVEL : Z := 100.
(* EXPERIENCE_MULTIPLIER is 1.5 = 3/2 *)
Definition EXPERIENCE_MULTIPLIER_NUM : Z := 3.
Definition EXPERIENCE_MULTIPLIER_DEN : Z := 2.
Definition STAT_GROWTH_PER_LEVEL : Z := 5.
End GameConstants.

(** ** GameUtils *)

Module GameUtils.

(** [Date.now().toString(36) + Math.random().toString(36).substr(2)]. *)
Definition generateId (w : World) : CreatureId * World :=
  let '(t, w1) := dateNow w in
  let '(r, w2) := mathRandom w1 in
  (mkId t r, w2).

(** [Math.floor(BASE * Math.pow(1.5, level - 1))]; for [level < 1] the power
    is the reciprocal [(2/3)^(1 - level)].  The floor is taken of the exact
    product.  The source's doubles give the same whole number for the
    levels 1 to 76; from level 77 on the power is rounded before the floor
    is taken (the source has 2415103171470709 at level 77, one more than
    the exact floor), and from level 1741 on it is Infinity. *)
Definition calculateExperienceToNext (level : Z) : Z :=
  let e := level - 1 in
  if 0 <=? e
  then (GameConstants.BASE_EXPERIENCE_TO_LEVEL * GameConstants.EXPERIENCE_MULTIPLIER_NUM ^ e)
         / (GameConstants.EXPERIENCE_MULTIPLIER_DEN ^ e)
  else (GameConstants.BASE_EXPERIENCE_TO_LEVEL * GameConstants.EXPERIENCE_MULTIPLIER_DEN ^ (- e))
         / (GameConstants.EXPERIENCE_MULTIPLIER_NUM ^ (- e)).

Definition calculateStatAtLevel (baseStat level : Z) : Z :=
  baseStat + ((level - 1) * GameConstants.STAT_GROWTH_PER_LEVEL).

(** [Math.min(Math.max(value, min), max)]. *)
Definition clamp (value min max : Z) : Z := Z.min (Z.max value min) max.

End GameUtils.

(** ** DataValidation *)

Module DataValidation.

Definition isValidBarcode (b : string) : bool :=
  if Js.strlen b <? 8 then false else Js.testDigitsOnly b.

Definition isValidCreatureStats (s : CreatureStats) : bool :=
  if hp s <? 0 then false
  else if maxHp s <? 0 then false
  else if attack s <? 0 then false
  else if defense s <? 0 then false
  else if speed s <? 0 then false
  else hp s <=? maxHp s.

Definition isValidCreature (c : Creature) : bool :=
  if negb (isValidBarcode (barcode c)) then false
  else if level c <? 1 then false
  else if experience c <? 0 then false
  else isValidCreatureStats (stats c).

End DataValidation.

(** ** BarcodeProcessor *)

Module BarcodeProcessor.

Definition syllables : list string :=
  [ "ka"; "ri"; "mo"; "na"; "zu"; "te"; "lo"; "xi"; "ba"; "do";
    "fe"; "gu"; "hi"; "ja"; "ko"; "lu"; "me"; "no"; "po"; "qu";
    "ra"; "si"; "tu"; "vo"; "wa"; "xe"; "ya"; "zi"; "bo"; "cu";
    "da"; "el"; "fi"; "go"; "hu"; "iv"; "jo"; "ke"; "li"; "ma";
    "ar"; "en"; "or"; "un"; "al"; "er"; "in"; "on"; "at"; "ed";
    "is"; "it"; "ou"; "an"; "he"; "wa"; "fo"; "nd"; "ng"; "ha";
    "th"; "re"; "ve"; "st"; "gh"; "nd"; "le"; "se"; "nt"; "ti";
    "ro"; "ur"; "li"; "ch"; "la"; "ne"; "mi"; "el"; "co"; "de" ]%string.

Inductive NameStyle := short | medium | long.

Record NamePattern := mkPattern {
  minLength : Z;
  maxLength : Z;
  style : NameStyle
}.

Definition namePatterns : list NamePattern :=
  [ mkPattern 2 3 short; mkPattern 3 4 medium; mkPattern 4 5 long ].

Definition validateBarcode (b : string) : bool :=
  if Js.strlen b <? GameConstants.MIN_BARCODE_LENGTH then false
  else if Js.strlen b >? GameConstants.MAX_BARCODE_LENGTH then false
  else if negb (Js.testDigitsOnly b) then false
  else true.

(** The loop of [generateSeed] from index [i] on, with the running [seed]. *)
Fixpoint generateSeedFrom (rest : string) (i : Z) (seed : Z) : option Z :=
  match rest with
  | EmptyString => Some seed
  | String c rest' =>
      match Js.parseInt c with
      | Some digit => generateSeedFrom rest' (i + 1) (seed + digit * (i + 1) * 31)
      | None => None
      end
  end.

Definition generateSeed (b : string) : option Z := generateSeedFrom b 0 0.

(** The closure returned by [createSeededRandom]: its only captured
    variable is [current]. *)
Record SeededRandom := mkGen { current : Z }.

Definition createSeededRandom (seed : Z) : SeededRandom :=
  let current := Z.rem seed 2147483647 in
  if current <=? 0 then mkGen (current + 2147483646) else mkGen current.

(** One call of the closure: the returned number and the closure's new
    state. *)
Definition next (g : SeededRandom) : Q * SeededRandom :=
  let current' := Z.rem (current g * 16807) 2147483647 in
  (Qmake (current' - 1) 2147483646, mkGen current').

(** The sum over [positions] in [getStatFromDigits]. *)
Fixpoint sumDigits (b : string) (positions : list nat) (sum : Z) : option Z :=
  match positions with
  | [] => Some sum
  | pos :: more =>
      if (Z.of_nat pos <? Js.strlen b)
      then match String.get pos b with
           | Some c =>
               match Js.parseInt c with
               | Some d => sumDigits b more (sum + d)
               | None => None
               end
           | None => None
           end
      else sumDigits b more sum
  end.

Definition getStatFromDigits (b : string) (positions : list nat) (min max : Z)
  : option Z :=
  match sumDigits b positions 0 with
  | Some sum =>
      let range := max - min in
      let maxSum := Z.of_nat (List.length positions) * 9 in
      if maxSum =? 0 then None
      else
        let normalized := (inject_Z sum / inject_Z maxSum)%Q in
        Some (min + Js.floor (normalized * inject_Z range)%Q)
  | None => None
  end.

Definition calculateStats (b : string) : option CreatureStats :=
  match generateSeed b with
  | None => None
  | Some seed =>
    let random0 := createSeededRandom seed in
    match getStatFromDigits b [0; 1]%nat GameConstants.BASE_HP_MIN GameConstants.BASE_HP_MAX,
          getStatFromDigits b [2; 3]%nat GameConstants.BASE_ATTACK_MIN GameConstants.BASE_ATTACK_MAX,
          getStatFromDigits b [4; 5]%nat GameConstants.BASE_DEFENSE_MIN GameConstants.BASE_DEFENSE_MAX,
          getStatFromDigits b [6; 7]%nat GameConstants.BASE_SPEED_MIN GameConstants.BASE_SPEED_MAX
    with
    | Some hpBase, Some attackBase, Some defenseBase, Some speedBase =>
      let '(r1, random1) := next random0 in
      let hp := Js.floor (inject_Z hpBase + (r1 * 20 - 10))%Q in
      let '(r2, random2) := next random1 in
      let attack := Js.floor (inject_Z attackBase + (r2 * 10 - 5))%Q in
      let '(r3, random3) := next random2 in
      let defense := Js.floor (inject_Z defenseBase + (r3 * 10 - 5))%Q in
      let '(r4, _) := next random3 in
      let speed := Js.floor (inject_Z speedBase + (r4 * 10 - 5))%Q in
      Some (mkStats
              (GameUtils.clamp hp GameConstants.BASE_HP_MIN GameConstants.BASE_HP_MAX)
              (GameUtils.clamp hp GameConstants.BASE_HP_MIN GameConstants.BASE_HP_MAX)
              (GameUtils.clamp attack GameConstants.BASE_ATTACK_MIN GameConstants.BASE_ATTACK_MAX)
              (GameUtils.clamp defense GameConstants.BASE_DEFENSE_MIN GameConstants.BASE_DEFENSE_MAX)
              (GameUtils.clamp speed GameConstants.BASE_SPEED_MIN GameConstants.BASE_SPEED_MAX))
    | _, _, _, _ => None
    end
  end.

(** [usedSyllables.has(syllable)]. *)
Definition hasSyllable (used : list string) (syllable : string) : bool :=
  existsb (String.eqb syllable) used.

(** The do-while loop that draws one syllable.  The body runs once, and
    again while [nameLength <= 3], the syllable was used before and
    [attempts < 10]; [retries] is [10 - attempts] after the coming draw. *)
Fixpoint drawSyllable (retries : nat) (nameLength : Z) (used : list string)
  (random : SeededRandom) : string * SeededRandom :=
  let '(r, random') := next random in
  let syllableIndex := Js.floor (r * inject_Z (Z.of_nat (List.length syllables)))%Q in
  let syllable :=
    match Js.index syllables syllableIndex with
    | Some syl => syl
    | None => "undefined"%string   (* what [name += undefined] appends *)
    end in
  match retries with
  | O => (syllable, random')
  | S retries' =>
      if (nameLength <=? 3) && hasSyllable used syllable
      then drawSyllable retries' nameLength used random'
      else (syllable, random')
  end.

(** The for loop of [generateCreatureName]; [todo] iterations remain. *)
Fixpoint appendSyllables (todo : nat) (nameLength : Z) (name : string)
  (used : list string) (random : SeededRandom) : string * SeededRandom :=
  match todo with
  | O => (name, random)
  | S todo' =>
      let '(syllable, random') := drawSyllable 9 nameLength used random in
      appendSyllables todo' nameLength (name ++ syllable)%string
        (syllable :: used) random'
  end.

Definition consonants : string := "bcdfghjklmnpqrstvwxyz".

Definition applyNameStyling (name : string) (st : NameStyle)
  (random : SeededRandom) : string :=
  match st with
  | short =>
      let '(r1, random1) := next random in
      if Js.Qltb r1 (3 # 10) then
        let '(r2, _) := next random1 in
        let pos := Z.to_nat (Js.floor (r2 * inject_Z (Js.strlen name - 1))%Q + 1) in
        match String.get pos name with
        | Some char =>
            if Js.includesChar consonants char
            then (Js.sliceTo name pos ++ String char (Js.sliceFrom name pos))%string
            else name
        | None => name
        end
      else name
  | medium => name
  | long =>
      let '(r1, random1) := next random in
      if Js.Qltb r1 (2 # 10) && (Js.strlen name >? 4) then
        let '(r2, _) := next random1 in
        let pos := Z.to_nat (Js.floor (r2 * inject_Z (Js.strlen name - 2))%Q + 2) in
        (Js.sliceTo name pos ++ String "'"%char (Js.sliceFrom name pos))%string
      else name
  end.

(** [name.charAt(0).toUpperCase() + name.slice(1)]. *)
Definition capitalize (name : string) : string :=
  match name with
  | EmptyString => EmptyString
  | String c rest => String (Js.toUpperCase c) rest
  end.

(** [None] stands for the runs that do not return a string: a NaN seed or an
    undefined pattern. *)
Definition generateCreatureName (b : string) : option string :=
  match generateSeed b with
  | None => None
  | Some seed =>
      let random0 := createSeededRandom seed in
      let '(r1, random1) := next random0 in
      let patternIndex :=
        Js.floor (r1 * inject_Z (Z.of_nat (List.length namePatterns)))%Q in
      match Js.index namePatterns patternIndex with
      | None => None   (* [pattern] is undefined: reading [pattern.minLength] throws *)
      | Some pattern =>
          let '(r2, random2) := next random1 in
          let nameLength :=
            minLength pattern
            + Js.floor (r2 * inject_Z (maxLength pattern - minLength pattern + 1))%Q in
          let '(name, random3) :=
            appendSyllables (Z.to_nat nameLength) nameLength EmptyString [] random2 in
          Some (capitalize (applyNameStyling name (style pattern) random3))
      end
  end.

(** [generateCreature]: [None] is the [null] result.  After a successful
    [validateBarcode] the stats and the name are always produced
    (see [calculateStats_digits] and [generateCreatureName_valid]); the
    other branch stands for runs on NaN that a validated barcode never
    takes. *)
Definition generateCreature (b : string) (w : World) : option Creature * World :=
  if negb (validateBarcode b) then (None, w)
  else
    match calculateStats b, generateCreatureName b with
    | Some stats, Some name =>
        let '(id, w1) := GameUtils.generateId w in
        let '(date, w2) := dateNow w1 in
        let creature :=
          mkCreature id name b stats 1 0 (GameUtils.calculateExperienceToNext 1)
                     date 0 0 false None in
        if negb (DataValidation.isValidCreature creature) then (None, w2)
        else (Some creature, w2)
    | _, _ => (None, w)
    end.

End BarcodeProcessor.

(** ** Field updates ([creature.field = value]) *)

Definition setStats (c : Creature) (s : CreatureStats) : Creature :=
  mkCreature (id c) (name c) (barcode c) s (level c) (experience c)
    (experienceToNext c) (discoveryDate c) (battlesWon c) (battlesLost c)
    (isOpponent c) (difficultyBonuses c).

Definition setLevel (c : Creature) (l : Z) : Creature :=
  mkCreature (id c) (name c) (barcode c) (stats c) l (experience c)
    (experienceToNext c) (discoveryDate c) (battlesWon c) (battlesLost c)
    (isOpponent c) (difficultyBonuses c).

Definition setExperience (c : Creature) (e : Z) : Creature :=
  mkCreature (id c) (name c) (barcode c) (stats c) (level c) e
    (experienceToNext c) (discoveryDate c) (battlesWon c) (battlesLost c)
    (isOpponent c) (difficultyBonuses c).

Definition setExperienceToNext (c : Creature) (e : Z) : Creature :=
  mkCreature (id c) (name c) (barcode c) (stats c) (level c) (experience c)
    e (discoveryDate c) (battlesWon c) (battlesLost c)
    (isOpponent c) (difficultyBonuses c).

Definition setHp (c : Creature) (h : Z) : Creature :=
  setStats c (mkStats h (maxHp (stats c)) (attack (stats c))
                      (defense (stats c)) (speed (stats c))).

(** ** CreatureManager (the collection manager with [awardExperience]) *)

Module CreatureManager.

(** What the manager writes to the console. *)
Inductive ConsoleEntry :=
| ErrCreatureNotFound (creatureId : CreatureId)
| ErrNegativeExperience
| WarnExcessiveLevelGain (creatureName : string)
| LogLeveledUp (creatureName : string) (experienceGained newLevel : Z)
| LogGained (creatureName : string) (experienceGained experience experienceToNext : Z).

(** [this.creatures] is a Map from id to creature, in insertion order. *)
Record Manager := mkManager {
  creatures : list (CreatureId * Creature);
  console : list ConsoleEntry
}.

Definition idEqb (a b : CreatureId) : bool :=
  (stamp a =? stamp b) && (Qnum (salt a) =? Qnum (salt b))
  && (Pos.eqb (Qden (salt a)) (Qden (salt b))).

(** [this.creatures.get(creatureId)]. *)
Fixpoint get (cs : list (CreatureId * Creature)) (k : CreatureId) : option Creature :=
  match cs with
  | [] => None
  | (k', c) :: rest => if idEqb k' k then Some c else get rest k
  end.

(** The effect, on the Map, of mutating the object that [get] returned. *)
Fixpoint update (cs : list (CreatureId * Creature)) (k : CreatureId) (c : Creature)
  : list (CreatureId * Creature) :=
  match cs with
  | [] => []
  | (k', c') :: rest =>
      if idEqb k' k then (k', c) :: rest else (k', c') :: update rest k c
  end.

(** Results of a loop that is run with fuel, over numbers that may stop
    being finite. *)
Inductive Outcome (A : Type) :=
| OutOfFuel
| NotFinite
| Returned (a : A).
Arguments OutOfFuel {A}.
Arguments NotFinite {A}.
Arguments Returned {A} a.

(** [updateStatsForLevel].  The ratio and its product with the new maximum
    are computed as the source's numbers compute them, each rounded to a
    double; from 7 of 10 hit points and a new maximum of 90, for one, the
    product is 62.99999999999999 and the new hit points are 62.

    [None] when the new hit points are not a finite number: the barcode
    does not parse, or the maximum is 0.  With a maximum of 0 the source
    divides by zero, stores NaN (from 0 / 0) or Infinity as hit points and
    returns; stats have no such value in the embedding, which stops there
    and reports [NotFinite] in the callers. *)
Definition updateStatsForLevel (c : Creature) : option Creature :=
  match BarcodeProcessor.calculateStats (barcode c) with
  | None => None
  | Some baseStats =>
      let newMaxHp := GameUtils.calculateStatAtLevel (maxHp baseStats) (level c) in
      let newAttack := GameUtils.calculateStatAtLevel (attack baseStats) (level c) in
      let newDefense := GameUtils.calculateStatAtLevel (defense baseStats) (level c) in
      let newSpeed := GameUtils.calculateStatAtLevel (speed baseStats) (level c) in
      if maxHp (stats c) =? 0 then None
      else
        let hpRatio := Js.div (inject_Z (hp (stats c))) (inject_Z (maxHp (stats c))) in
        Some (setStats c
                (mkStats (Z.max 1 (Js.floor (Js.mul (inject_Z newMaxHp) hpRatio)))
                         newMaxHp newAttack newDefense newSpeed))
  end.

(** The body of the while loop of [checkLevelUp], up to the safety test. *)
Definition levelUpOnce (c : Creature) : option Creature :=
  let c1 := setExperience c (experience c - experienceToNext c) in
  let c2 := setLevel c1 (level c1 + 1) in
  match updateStatsForLevel c2 with
  | None => None
  | Some c3 =>
      Some (setExperienceToNext c3 (GameUtils.calculateExperienceToNext (level c3)))
  end.

Record LevelUpResult := mkLevelUpResult {
  leveledUp : bool;
  levelsGained : Z;
  newLevel : Z
}.

(** The while loop of [checkLevelUp]. *)
Fixpoint checkLevelUpLoop (fuel : nat) (c : Creature) (leveledUp : bool)
  (levelsGained : Z) (out : list ConsoleEntry)
  : Outcome (Creature * LevelUpResult * list ConsoleEntry) :=
  match fuel with
  | O => OutOfFuel
  | S fuel' =>
      if experience c >=? experienceToNext c then
        match levelUpOnce c with
        | None => NotFinite
        | Some c' =>
            let levelsGained' := levelsGained + 1 in
            if levelsGained' >? 50
            then Returned (c', mkLevelUpResult true levelsGained' (level c'),
                           out ++ [WarnExcessiveLevelGain (name c')])
            else checkLevelUpLoop fuel' c' true levelsGained' out
        end
      else Returned (c, mkLevelUpResult leveledUp levelsGained (level c), out)
  end.

(** Fuel that the loop never uses up: the safety test leaves the loop at
    the 51st level-up at the latest (see [checkLevelUp_fuel]). *)
Definition checkLevelUpFuel : nat := 52.

Definition checkLevelUp (c : Creature) (out : list ConsoleEntry)
  : Outcome (Creature * LevelUpResult * list ConsoleEntry) :=
  checkLevelUpLoop checkLevelUpFuel c false 0 out.

Record StatGains := mkStatGains {
  gainMaxHp : Z;
  gainAttack : Z;
  gainDefense : Z;
  gainSpeed : Z
}.

Definition calculateStatGains (oldStats newStats : CreatureStats) : StatGains :=
  mkStatGains (maxHp newStats - maxHp oldStats) (attack newStats - attack oldStats)
              (defense newStats - defense oldStats) (speed newStats - speed oldStats).

(** The object returned by [awardExperience]. *)
Inductive AwardResult :=
| AwardFailure (error : string)                       (* success: false *)
| AwardSuccess (experienceGained oldLevel newLevel levelsGained : Z)
    (oldStats newStats : CreatureStats) (statGains : StatGains).  (* success: true *)

(** [awardExperience].  Saving the collection goes through the storage
    collaborator, whose failures are caught and logged; it does not touch
    the collection and is not represented. *)
Definition awardExperience (creatureId : CreatureId) (experienceGained : Z)
  (m : Manager) : Outcome (AwardResult * Manager) :=
  match get (creatures m) creatureId with
  | None =>
      Returned (AwardFailure "Creature not found",
                mkManager (creatures m) (console m ++ [ErrCreatureNotFound creatureId]))
  | Some creature =>
      if experienceGained <? 0 then
        Returned (AwardFailure "Invalid experience amount",
                  mkManager (creatures m) (console m ++ [ErrNegativeExperience]))
      else
        let oldLevel := level creature in
        let oldStats := stats creature in
        let creature1 := setExperience creature (experience creature + experienceGained) in
        match checkLevelUp creature1 (console m) with
        | OutOfFuel => OutOfFuel
        | NotFinite => NotFinite
        | Returned (creature2, levelUpResult, out) =>
            let result :=
              AwardSuccess experienceGained oldLevel (level creature2)
                (level creature2 - oldLevel) oldStats (stats creature2)
                (calculateStatGains oldStats (stats creature2)) in
            let out' :=
              if leveledUp levelUpResult
              then out ++ [LogLeveledUp (name creature2) experienceGained (level creature2)]
              else out ++ [LogGained (name creature2) experienceGained
                                     (experience creature2) (experienceToNext creature2)] in
            Returned (result, mkManager (update (creatures m) creatureId creature2) out')
        end
  end.

End CreatureManager.

(** ** Difficulty tiers and thrown errors *)

Inductive Difficulty := easy | medium | hard.

Definition difficultyEqb (a b : Difficulty) : bool :=
  match a, b with
  | easy, easy | medium, medium | hard, hard => true
  | _, _ => false
  end.

(** ** Difficulty names

    [initiateBattle] and the constructor of the AI take the difficulty as a
    text and keep it unchecked.  What the code does with it depends on what
    it finds under that key in its tables, which are object literals with
    the keys "easy", "medium" and "hard": the entry of a tier, a property
    that every object inherits from [Object.prototype] (a built-in function
    or object, which has none of the fields of an entry), or [undefined]. *)

Module DifficultyName.

Definition ofTier (d : Difficulty) : string :=
  match d with
  | easy => "easy"
  | medium => "medium"
  | hard => "hard"
  end.

Definition tier (name : string) : option Difficulty :=
  if String.eqb name "easy" then Some easy
  else if String.eqb name "medium" then Some medium
  else if String.eqb name "hard" then Some hard
  else None.

(** The names of the properties of [Object.prototype]. *)
Definition inheritedNames : list string :=
  [ "constructor"; "__defineGetter__"; "__defineSetter__"; "hasOwnProperty";
    "__lookupGetter__"; "__lookupSetter__"; "isPrototypeOf";
    "propertyIsEnumerable"; "toString"; "valueOf"; "__proto__";
    "toLocaleString" ]%string.

(** What [table[name]] finds. *)
Inductive Entry :=
| Own (d : Difficulty)
| Inherited
| Missing.

Definition lookup (name : string) : Entry :=
  match tier name with
  | Some d => Own d
  | None =>
      if existsb (String.eqb name) inheritedNames then Inherited else Missing
  end.

(** [name || fallback]: [null] and the empty text are falsy. *)
Definition orElse (name : option string) (fallback : string) : string :=
  match name with
  | None | Some EmptyString => fallback
  | Some text => text
  end.

(** [null], the empty text, or the name of a tier. *)
Definition isTierOrNull (name : option string) : bool :=
  match name with
  | None | Some EmptyString => true
  | Some text =>
      match tier text with
      | Some _ => true
      | None => false
      end
  end.

End DifficultyName.

(** The result of running a method on a state [S]: a normal return or a
    thrown error; both carry the state as the method left it. *)
Inductive Result (S A : Type) :=
| Ok (a : A) (s : S)
| Throw (message : string) (s : S).
Arguments Ok {S A} a s.
Arguments Throw {S A} message s.

(** ** DifficultyManager *)

Module DifficultyManager.

Inductive Personality := Aggressive | Defensive | Tactical | Berserker | Cautious.

Record DifficultyConfig := mkConfig {
  displayName : string;
  opponentStatMultiplier : Q;
  experienceMultiplier : Q;
  aiPersonalityWeights : list (Personality * Q);
  configSpecialAttackFrequency : Q;
  configCriticalHitChance : Q
}.

(** [initializeDifficultyStats].  The literal for hard names 'Berserker'
    twice; the later value replaces the earlier one. *)
Definition difficultyStats (d : Difficulty) : DifficultyConfig :=
  match d with
  | easy =>
      mkConfig "Easy" (8 # 10) 1
        [ (Aggressive, 1 # 10); (Defensive, 4 # 10); (Tactical, 2 # 10);
          (Berserker, 5 # 100); (Cautious, 25 # 100) ]
        (2 # 10) (5 # 100)
  | medium =>
      mkConfig "Medium" 1 (12 # 10)
        [ (Aggressive, 25 # 100); (Defensive, 25 # 100); (Tactical, 3 # 10);
          (Berserker, 1 # 10); (Cautious, 1 # 10) ]
        (35 # 100) (1 # 10)
  | hard =>
      mkConfig "Hard" (13 # 10) (15 # 10)
        [ (Aggressive, 3 # 10); (Defensive, 15 # 100); (Tactical, 4 # 10);
          (Berserker, 5 # 100) ]
        (5 # 10) (15 # 100)
  end.

Record WinLoss := mkWinLoss { wins : Z; losses : Z }.

(** The shapes of [this.battleStats] that the manager itself produces:
    the empty object that [saveProgress] writes before any battle (and
    [loadProgress] reads back), or the three counters. *)
Inductive BattleStats :=
| StatsEmpty
| StatsFull (easyStats mediumStats hardStats : WinLoss).

Inductive Event :=
| DifficultyChanged (d : Difficulty)
| DifficultyUnlocked (d : Difficulty)
| ProgressUpdated.

Record Manager := mkManager {
  currentDifficulty : Difficulty;
  unlockedDifficulties : list Difficulty;
  battleStats : option BattleStats;      (* None: not initialised yet *)
  events : list Event                    (* events dispatched so far *)
}.

(** Requirements returned by [getProgressionRequirements]. *)
Definition mediumReq_battlesWon : Z := 5.
Definition hardReq_battlesWon : Z := 15.
Definition hardReq_mediumWins : Z := 8.

(** The manager as the constructor leaves it when nothing was saved. *)
Definition initial : Manager := mkManager easy [easy] None [].

Definition getCurrentDifficulty (m : Manager) : Difficulty := currentDifficulty m.

(** [getDifficultyConfig(difficulty)]; [None] is the [null] argument. *)
Definition getDifficultyConfig (m : Manager) (d : option Difficulty) : DifficultyConfig :=
  match d with
  | Some d' => difficultyStats d'
  | None => difficultyStats (currentDifficulty m)
  end.

Definition isDifficultyUnlocked (m : Manager) (d : Difficulty) : bool :=
  existsb (difficultyEqb d) (unlockedDifficulties m).

Definition getTotalWins (m : Manager) : Z :=
  match battleStats m with
  | None => 0
  | Some StatsEmpty => 0
  | Some (StatsFull e md h) => 0 + wins e + wins md + wins h
  end.

Definition unlockDifficulty (m : Manager) (d : Difficulty) : Manager :=
  if isDifficultyUnlocked m d then m
  else mkManager (currentDifficulty m) (unlockedDifficulties m ++ [d])
                 (battleStats m) (events m ++ [DifficultyUnlocked d]).

(** [checkDifficultyUnlocks]; it reads [this.battleStats.medium], which
    throws while [battleStats] is undefined. *)
Definition checkDifficultyUnlocks (m : Manager) : Result Manager unit :=
  let totalWins := getTotalWins m in
  match battleStats m with
  | None => Throw "TypeError" m
  | Some bs =>
      let mediumWins :=
        match bs with
        | StatsEmpty => 0
        | StatsFull _ md _ => wins md
        end in
      let m1 :=
        if negb (isDifficultyUnlocked m medium) then
          if totalWins >=? mediumReq_battlesWon then unlockDifficulty m medium else m
        else m in
      let m2 :=
        if negb (isDifficultyUnlocked m1 hard) then
          if (totalWins >=? hardReq_battlesWon) && (mediumWins >=? hardReq_mediumWins)
          then unlockDifficulty m1 hard else m1
        else m1 in
      Ok tt m2
  end.

(** The argument of [recordBattleResult].  [won] is [None] when the field
    is not a boolean; [resultDifficulty] is [None] when it is missing. *)
Record BattleResult := mkBattleResult {
  won : option bool;
  resultDifficulty : option Difficulty
}.

Definition bump (isWin : bool) (wl : WinLoss) : WinLoss :=
  if isWin then mkWinLoss (wins wl + 1) (losses wl)
  else mkWinLoss (wins wl) (losses wl + 1).

(** [recordBattleResult]; the argument [None] is a null result.  Saving to
    local storage is wrapped in try/catch by the source and does not change
    the manager. *)
Definition recordBattleResult (r : option BattleResult) (m : Manager)
  : Result Manager unit :=
  match r with
  | None => Ok tt m
  | Some res =>
      match won res with
      | None => Ok tt m
      | Some isWin =>
          let bs :=
            match battleStats m with
            | None => StatsFull (mkWinLoss 0 0) (mkWinLoss 0 0) (mkWinLoss 0 0)
            | Some bs' => bs'
            end in
          let m0 := mkManager (currentDifficulty m) (unlockedDifficulties m)
                              (Some bs) (events m) in
          let difficulty :=
            match resultDifficulty res with
            | Some d => d
            | None => currentDifficulty m
            end in
          match bs with
          | StatsEmpty => Throw "TypeError" m0
          | StatsFull e md h =>
              let bs1 :=
                match difficulty with
                | easy => StatsFull (bump isWin e) md h
                | medium => StatsFull e (bump isWin md) h
                | hard => StatsFull e md (bump isWin h)
                end in
              let m1 := mkManager (currentDifficulty m) (unlockedDifficulties m)
                                  (Some bs1) (events m) in
              match checkDifficultyUnlocks m1 with
              | Throw e' m2 => Throw e' m2
              | Ok _ m2 =>
                  Ok tt (mkManager (currentDifficulty m2) (unlockedDifficulties m2)
                                   (battleStats m2) (events m2 ++ [ProgressUpdated]))
              end
          end
      end
  end.

(** Recording a sequence of battle results, one call after the other. *)
Fixpoint recordAll (rs : list (option BattleResult)) (m : Manager)
  : Result Manager unit :=
  match rs with
  | [] => Ok tt m
  | r :: rest =>
      match recordBattleResult r m with
      | Ok _ m' => recordAll rest m'
      | Throw e m' => Throw e m'
      end
  end.

(** [getDifficultyConfig(difficulty)] for the text that a battle holds:
    [this.difficultyStats[difficulty || this.currentDifficulty]
     || this.difficultyStats.easy].  [None] is a built-in object, found
    under an inherited name; it has none of the fields of a
    configuration. *)
Definition getDifficultyConfigOfName (m : Manager) (name : option string)
  : option DifficultyConfig :=
  let targetDifficulty :=
    DifficultyName.orElse name (DifficultyName.ofTier (currentDifficulty m)) in
  match DifficultyName.lookup targetDifficulty with
  | DifficultyName.Own d => Some (difficultyStats d)
  | DifficultyName.Inherited => None
  | DifficultyName.Missing => Some (difficultyStats easy)
  end.

(** [recordBattleResult({ won, difficulty })] with a boolean [won] and the
    text that a battle holds as [difficulty].  Under the name of a tier it
    is [recordBattleResult] above.  Under a name that [this.battleStats]
    does not have, [this.battleStats[difficulty].wins++] throws a
    TypeError, after the counters have been initialised.  Under an
    inherited name the increment goes to a built-in object and no counter
    changes; the unlock check and the progress event follow as usual. *)
Definition recordBattleResultOfName (isWin : bool) (name : option string)
  (m : Manager) : Result Manager unit :=
  let difficulty :=
    DifficultyName.orElse name (DifficultyName.ofTier (currentDifficulty m)) in
  let bs :=
    match battleStats m with
    | None => StatsFull (mkWinLoss 0 0) (mkWinLoss 0 0) (mkWinLoss 0 0)
    | Some bs' => bs'
    end in
  let m0 := mkManager (currentDifficulty m) (unlockedDifficulties m)
                      (Some bs) (events m) in
  match DifficultyName.lookup difficulty with
  | DifficultyName.Own d =>
      recordBattleResult (Some (mkBattleResult (Some isWin) (Some d))) m
  | DifficultyName.Inherited =>
      match checkDifficultyUnlocks m0 with
      | Throw e' m2 => Throw e' m2
      | Ok _ m2 =>
          Ok tt (mkManager (currentDifficulty m2) (unlockedDifficulties m2)
                           (battleStats m2) (events m2 ++ [ProgressUpdated]))
      end
  | DifficultyName.Missing => Throw "TypeError" m0
  end.

End DifficultyManager.

(** ** Numbers that may be NaN or infinite

    The health percentages of the AI divide by [maxHp]; the quotient and
    what is computed from it can be NaN or infinite.  [Num] carries the
    IEEE special values next to the exact finite ones. *)

Module Num.

Inductive t := Fin (q : Q) | NaN | PosInf | NegInf.

(** [a / b] for two integers. *)
Definition div (a b : Z) : t :=
  if b =? 0 then
    (if a =? 0 then NaN else if 0 <? a then PosInf else NegInf)
  else Fin (inject_Z a / inject_Z b)%Q.

Definition neg (x : t) : t :=
  match x with
  | Fin q => Fin (- q)%Q
  | NaN => NaN
  | PosInf => NegInf
  | NegInf => PosInf
  end.

Definition add (x y : t) : t :=
  match x, y with
  | NaN, _ | _, NaN => NaN
  | Fin a, Fin b => Fin (a + b)%Q
  | PosInf, NegInf | NegInf, PosInf => NaN
  | PosInf, _ | _, PosInf => PosInf
  | NegInf, _ | _, NegInf => NegInf
  end.

Definition sub (x y : t) : t := add x (neg y).

(** [x * c] for a non-zero finite constant [c]. *)
Definition scale (x : t) (c : Q) : t :=
  match x with
  | Fin a => Fin (a * c)%Q
  | NaN => NaN
  | PosInf => if Js.Qltb 0 c then PosInf else NegInf
  | NegInf => if Js.Qltb 0 c then NegInf else PosInf
  end.

(** [Math.max(c, x)] and [Math.min(c, x)] for a finite constant [c]. *)
Definition max (c : Q) (x : t) : t :=
  match x with
  | Fin a => Fin (if Js.Qltb a c then c else a)
  | NaN => NaN
  | PosInf => PosInf
  | NegInf => Fin c
  end.

Definition min (c : Q) (x : t) : t :=
  match x with
  | Fin a => Fin (if Js.Qltb c a then c else a)
  | NaN => NaN
  | PosInf => Fin c
  | NegInf => NegInf
  end.

(** [x > c] and [x < c]; every comparison with NaN is false. *)
Definition gt (x : t) (c : Q) : bool :=
  match x with
  | Fin a => Js.Qgtb a c
  | PosInf => true
  | _ => false
  end.

Definition lt (x : t) (c : Q) : bool :=
  match x with
  | Fin a => Js.Qltb a c
  | NegInf => true
  | _ => false
  end.

End Num.

(** ** Battle vocabulary shared by the AI and the engine *)

Module Action.
Inductive t := attack | special | defend.

Definition eqb (a b : t) : bool :=
  match a, b with
  | attack, attack | special, special | defend, defend => true
  | _, _ => false
  end.
End Action.

Record ActionTracking := mkTracking {
  lastAction : option Action.t;
  consecutiveDefends : Z;
  specialAttacksUsed : Z;
  lastDamageDealt : Z
}.

(** ** AIOpponent *)

Module AIOpponent.

Record Traits := mkTraits {
  attackPreference : Q;
  specialAttackUsage : Q;
  riskTolerance : Q;
  adaptability : Q
}.

Record Personality := mkPersonality {
  personalityName : DifficultyManager.Personality;
  traits : Traits
}.

(** The table inside [generatePersonality]. *)
Definition personalities : list Personality :=
  [ mkPersonality DifficultyManager.Aggressive (mkTraits (7 # 10) (4 # 10) (8 # 10) (3 # 10));
    mkPersonality DifficultyManager.Defensive (mkTraits (3 # 10) (2 # 10) (2 # 10) (6 # 10));
    mkPersonality DifficultyManager.Tactical (mkTraits (5 # 10) (6 # 10) (4 # 10) (8 # 10));
    mkPersonality DifficultyManager.Berserker (mkTraits (9 # 10) (7 # 10) (9 # 10) (1 # 10));
    mkPersonality DifficultyManager.Cautious (mkTraits (4 # 10) (3 # 10) (3 # 10) (7 # 10)) ].

Record BehaviorParams := mkParams {
  decisionAccuracy : Q;
  strategyConsistency : Q;
  adaptationSpeed : Q;
  mistakeChance : Q;
  optimalPlayChance : Q
}.

(** The table of [getDifficultyParams]. *)
Definition difficultyParams (d : Difficulty) : BehaviorParams :=
  match d with
  | easy => mkParams (6 # 10) (4 # 10) (3 # 10) (3 # 10) (2 # 10)
  | medium => mkParams (75 # 100) (6 # 10) (5 # 10) (15 # 100) (4 # 10)
  | hard => mkParams (9 # 10) (8 # 10) (7 # 10) (5 # 100) (7 # 10)
  end.

(** [getDifficultyParams(difficulty)]: [params[difficulty] || params.medium].
    [None] is a built-in object, found under an inherited name; its fields
    are undefined. *)
Definition getDifficultyParams (d : string) : option BehaviorParams :=
  match DifficultyName.lookup d with
  | DifficultyName.Own d' => Some (difficultyParams d')
  | DifficultyName.Inherited => None
  | DifficultyName.Missing => Some (difficultyParams medium)
  end.

Inductive HealthStatus := healthy | wounded | critical | desperate.

Definition healthStatusEqb (a b : HealthStatus) : bool :=
  match a, b with
  | healthy, healthy | wounded, wounded | critical, critical
  | desperate, desperate => true
  | _, _ => false
  end.

(** An entry of [memory.ownActions]. *)
Record OwnAction := mkOwnAction {
  ownAction : option Action.t;
  ownAiHealth : HealthStatus;
  ownPlayerHealth : HealthStatus;
  ownUrgency : Num.t;
  ownTurn : Z
}.

Record Memory := mkMemory {
  playerActions : list Action.t;
  ownActions : list OwnAction;
  damageDealt : Z;
  damageTaken : Z;
  turnsElapsed : Z
}.

(** An AIOpponent object.  [difficulty] is the text that the constructor
    was given.  Its [behaviorParams] are fixed by the constructor to
    [getDifficultyParams difficulty]. *)
Record AI := mkAI {
  difficulty : string;
  personality : Personality;
  memory : Memory
}.

Definition behaviorParams (ai : AI) : option BehaviorParams :=
  getDifficultyParams (difficulty ai).

(** The object that the engine hands to [makeDecision]. *)
Record BattleState := mkBattleState {
  playerCreature : Creature;
  opponentCreature : Creature;
  statePlayerActions : ActionTracking;
  opponentActions : ActionTracking;
  lastPlayerAction : option Action.t;
  lastDamageToAI : Z;
  lastDamageToPlayer : Z;
  turnCount : Z;
  stateDifficulty : option string
}.

(** [arr.shift()] result on the array itself. *)
Definition shift {A : Type} (l : list A) : list A := tl l.

Definition updateMemory (ai : AI) (bs : BattleState) : AI :=
  let m := memory ai in
  let turns := turnsElapsed m + 1 in
  let actions :=
    match lastPlayerAction bs with
    | Some a =>
        let pushed := playerActions m ++ [a] in
        if (Z.of_nat (List.length pushed) >? 5) then shift pushed else pushed
    | None => playerActions m
    end in
  let taken :=
    if lastDamageToAI bs =? 0 then damageTaken m
    else damageTaken m + lastDamageToAI bs in
  let dealt :=
    if lastDamageToPlayer bs =? 0 then damageDealt m
    else damageDealt m + lastDamageToPlayer bs in
  mkAI (difficulty ai) (personality ai)
       (mkMemory actions (ownActions m) dealt taken turns).

Definition getHealthStatus (hpPercentage : Num.t) : HealthStatus :=
  if Num.gt hpPercentage (75 # 100) then healthy
  else if Num.gt hpPercentage (5 # 10) then wounded
  else if Num.gt hpPercentage (25 # 100) then critical
  else desperate.

Inductive PatternType :=
| unknown
| random_pattern                 (* 'random' *)
| heavy (a : Action.t)           (* '<action>_heavy' *)
| alternating
| escalating.

Record Pattern := mkPattern {
  patternType : PatternType;
  confidence : Q;
  mostCommon : option Action.t
}.

(** The reducer that builds [actionCounts]: keys stay in the order of their
    first occurrence. *)
Fixpoint countAction (counts : list (Action.t * Z)) (a : Action.t)
  : list (Action.t * Z) :=
  match counts with
  | [] => [(a, 1)]
  | (k, n) :: rest =>
      if Action.eqb k a then (k, n + 1) :: rest else (k, n) :: countAction rest a
  end.

Definition actionCounts (actions : list Action.t) : list (Action.t * Z) :=
  fold_left countAction actions [].

(** [Object.keys(counts).reduce((a, b) => counts[a] > counts[b] ? a : b)]. *)
Definition pickMostCommon (counts : list (Action.t * Z)) : option (Action.t * Z) :=
  match counts with
  | [] => None
  | first :: rest =>
      Some (fold_left (fun a b => if snd a >? snd b then a else b) rest first)
  end.

(** The loop of [isAlternatingPattern] from index [i = 2]: [prev2] and
    [prev1] are the two earlier elements. *)
Fixpoint alternatesFrom (prev2 prev1 : Action.t) (rest : list Action.t) : bool :=
  match rest with
  | [] => true
  | a :: rest' =>
      if negb (Action.eqb a prev2) then false else alternatesFrom prev1 a rest'
  end.

Definition isAlternatingPattern (actions : list Action.t) : bool :=
  if Z.of_nat (List.length actions) <? 4 then false
  else
    match actions with
    | a0 :: a1 :: rest => alternatesFrom a0 a1 rest
    | _ => true
    end.

(** [actions.slice(-3)]. *)
Definition lastThree (actions : list Action.t) : list Action.t :=
  skipn (List.length actions - 3) actions.

Definition isEscalatingPattern (actions : list Action.t) : bool :=
  if Z.of_nat (List.length actions) <? 3 then false
  else
    match lastThree actions with
    | [a; b; c] =>
        Action.eqb a Action.attack && Action.eqb b Action.special
        && Action.eqb c Action.defend
    | _ => false
    end.

Definition analyzePlayerPattern (ai : AI) : Pattern :=
  let actions := playerActions (memory ai) in
  if Z.of_nat (List.length actions) <? 2 then mkPattern unknown 0 None
  else
    match pickMostCommon (actionCounts actions) with
    | None => mkPattern unknown 0 None   (* no key: cannot happen for two or more actions *)
    | Some (common, count) =>
        let confidence :=
          (inject_Z count / inject_Z (Z.of_nat (List.length actions)))%Q in
        let patternType :=
          if Js.Qgtb confidence (6 # 10) then heavy common
          else if isAlternatingPattern actions then alternating
          else if isEscalatingPattern actions then escalating
          else random_pattern in
        mkPattern patternType confidence (Some common)
    end.

Definition calculateUrgency (aiHp playerHp : Num.t) : Num.t :=
  let hpUrgency := Num.max 0 (Num.scale (Num.sub (Num.Fin (5 # 10)) aiHp) 2) in
  let threatUrgency :=
    Num.max 0 (Num.scale (Num.sub (Num.Fin (3 # 10)) playerHp) (-1 # 1)) in
  Num.min 1 (Num.add hpUrgency threatUrgency).

Record Situation := mkSituation {
  aiHealthStatus : HealthStatus;
  playerHealthStatus : HealthStatus;
  healthAdvantage : Num.t;
  attackAdvantage : Z;
  defenseAdvantage : Z;
  speedAdvantage : Z;
  situationTurns : Z;
  damageRatio : Q;
  playerPattern : Pattern;
  urgency : Num.t;
  canUseSpecial : bool;
  shouldAvoidDefend : bool
}.

Definition analyzeBattleSituation (ai : AI) (bs : BattleState) : Situation :=
  let aiCreature := opponentCreature bs in
  let playerCreature := playerCreature bs in
  let aiHpPercentage := Num.div (hp (stats aiCreature)) (maxHp (stats aiCreature)) in
  let playerHpPercentage :=
    Num.div (hp (stats playerCreature)) (maxHp (stats playerCreature)) in
  mkSituation
    (getHealthStatus aiHpPercentage)
    (getHealthStatus playerHpPercentage)
    (Num.sub aiHpPercentage playerHpPercentage)
    (attack (stats aiCreature) - attack (stats playerCreature))
    (defense (stats aiCreature) - defense (stats playerCreature))
    (speed (stats aiCreature) - speed (stats playerCreature))
    (turnsElapsed (memory ai))
    (if damageTaken (memory ai) >? 0
     then (inject_Z (damageDealt (memory ai)) / inject_Z (damageTaken (memory ai)))%Q
     else 1)
    (analyzePlayerPattern ai)
    (calculateUrgency aiHpPercentage playerHpPercentage)
    (specialAttacksUsed (opponentActions bs) <? 3)
    (consecutiveDefends (opponentActions bs) >=? 2).

Inductive Strategy := aggressive | defensive | tactical.

Record StrategyScores := mkScores {
  scoreAggressive : Q;
  scoreDefensive : Q;
  scoreTactical : Q
}.

Definition patternTypeIsHeavy (p : PatternType) (a : Action.t) : bool :=
  match p with
  | heavy b => Action.eqb a b
  | _ => false
  end.

(** The scores of [determineStrategy] before the final selection. *)
Definition strategyScores (ai : AI) (situation : Situation) : StrategyScores :=
  let s0 := mkScores 0 0 0 in
  (* Health-based strategy adjustments *)
  let s1 :=
    match aiHealthStatus situation with
    | desperate =>
        mkScores (scoreAggressive s0 + (4 # 10)) (scoreDefensive s0 - (2 # 10))
                 (scoreTactical s0)
    | critical =>
        mkScores (scoreAggressive s0) (scoreDefensive s0 + (3 # 10))
                 (scoreTactical s0 + (2 # 10))
    | healthy =>
        mkScores (scoreAggressive s0 + (2 # 10)) (scoreDefensive s0) (scoreTactical s0)
    | wounded => s0
    end in
  (* Advantage-based adjustments *)
  let s2 :=
    if attackAdvantage situation >? 10
    then mkScores (scoreAggressive s1 + (3 # 10)) (scoreDefensive s1) (scoreTactical s1)
    else s1 in
  let s3 :=
    if defenseAdvantage situation >? 10
    then mkScores (scoreAggressive s2) (scoreDefensive s2 + (2 # 10)) (scoreTactical s2)
    else s2 in
  (* Urgency adjustments *)
  let s4 :=
    if Num.gt (urgency situation) (7 # 10)
    then mkScores (scoreAggressive s3 + (4 # 10)) (scoreDefensive s3 - (3 # 10))
                  (scoreTactical s3)
    else s3 in
  (* Player pattern counter-strategies *)
  let s5 :=
    if patternTypeIsHeavy (patternType (playerPattern situation)) Action.attack
    then mkScores (scoreAggressive s4) (scoreDefensive s4 + (3 # 10)) (scoreTactical s4)
    else if patternTypeIsHeavy (patternType (playerPattern situation)) Action.defend
    then mkScores (scoreAggressive s4 + (3 # 10)) (scoreDefensive s4) (scoreTactical s4)
    else s4 in
  (* Personality influence *)
  let t := traits (personality ai) in
  mkScores (scoreAggressive s5 + attackPreference t * (3 # 10))
           (scoreDefensive s5 + (1 - riskTolerance t) * (2 # 10))
           (scoreTactical s5 + adaptability t * (2 # 10)).

Definition scoreOf (s : StrategyScores) (k : Strategy) : Q :=
  match k with
  | aggressive => scoreAggressive s
  | defensive => scoreDefensive s
  | tactical => scoreTactical s
  end.

(** [Object.keys(strategyScores).reduce((a, b) => scores[a] > scores[b] ? a : b)]. *)
Definition determineStrategy (ai : AI) (situation : Situation) : Strategy :=
  let scores := strategyScores ai situation in
  fold_left (fun a b => if Js.Qgtb (scoreOf scores a) (scoreOf scores b) then a else b)
            [defensive; tactical] aggressive.

Definition executeAggressiveStrategy (situation : Situation) (w : World)
  : Action.t * World :=
  (* situation.canUseSpecial && Math.random() < 0.6 *)
  let '(useSpecial, w1) :=
    if canUseSpecial situation
    then let '(r, w') := mathRandom w in (Js.Qltb r (6 # 10), w')
    else (false, w) in
  if useSpecial then (Action.special, w1)
  else
    let '(r, w2) := mathRandom w1 in
    if Js.Qltb r (8 # 10) then (Action.attack, w2)
    else (Action.defend, w2).

Definition executeDefensiveStrategy (situation : Situation) (w : World)
  : Action.t * World :=
  if shouldAvoidDefend situation then
    let '(r, w1) := mathRandom w in
    (if Js.Qltb r (7 # 10) then Action.attack else Action.special, w1)
  else
    (* situation.aiHealthStatus === 'critical' && Math.random() < 0.6 *)
    let '(defendNow, w1) :=
      if healthStatusEqb (aiHealthStatus situation) critical
      then let '(r, w') := mathRandom w in (Js.Qltb r (6 # 10), w')
      else (false, w) in
    if defendNow then (Action.defend, w1)
    else
      let '(r1, w2) := mathRandom w1 in
      if Js.Qltb r1 (4 # 10) then (Action.defend, w2)
      else
        let '(r2, w3) := mathRandom w2 in
        if Js.Qltb r2 (7 # 10) then (Action.attack, w3)
        else (Action.special, w3).

Definition counterPlayerPattern (pattern : Pattern) : Action.t :=
  match mostCommon pattern with
  | Some Action.attack => Action.defend
  | Some Action.special => Action.attack
  | Some Action.defend => Action.special
  | None => Action.attack
  end.

Definition executeTacticalStrategy (situation : Situation) (w : World)
  : Action.t * World :=
  if Js.Qgtb (confidence (playerPattern situation)) (6 # 10) then
    (counterPlayerPattern (playerPattern situation), w)
  else
    (* canUseSpecial && urgency > 0.5 && Math.random() < 0.4 *)
    let '(useSpecial, w1) :=
      if canUseSpecial situation && Num.gt (urgency situation) (5 # 10)
      then let '(r, w') := mathRandom w in (Js.Qltb r (4 # 10), w')
      else (false, w) in
    if useSpecial then (Action.special, w1)
    else
      let '(rand, w2) := mathRandom w1 in
      if Js.Qltb rand (5 # 10) then (Action.attack, w2)
      else if Js.Qltb rand (75 # 100) then (Action.defend, w2)
      else (Action.special, w2).

Definition executeStrategy (strategy : Strategy) (situation : Situation) (w : World)
  : Action.t * World :=
  match strategy with
  | aggressive => executeAggressiveStrategy situation w
  | defensive => executeDefensiveStrategy situation w
  | tactical => executeTacticalStrategy situation w
  end.

Definition getOptimalAction (situation : Situation) : Action.t :=
  if healthStatusEqb (aiHealthStatus situation) desperate then
    (if canUseSpecial situation then Action.special else Action.attack)
  else if healthStatusEqb (playerHealthStatus situation) critical then Action.attack
  else if Num.lt (healthAdvantage situation) (-3 # 10) then Action.defend
  else Action.attack.

(** [applyDifficultyModifications]; [None] is the [undefined] element an
    out-of-range index would read. *)
Definition applyDifficultyModifications (ai : AI) (decision : Action.t)
  (situation : Situation) (w : World) : option Action.t * World :=
  let params := behaviorParams ai in
  (* Math.random() < params.field; a comparison with undefined is false *)
  let below (r : Q) (field : BehaviorParams -> Q) : bool :=
    match params with
    | Some p => Js.Qltb r (field p)
    | None => false
    end in
  (* this.difficulty === 'easy' && Math.random() < params.mistakeChance *)
  let '(mistake, w1) :=
    if String.eqb (difficulty ai) "easy"
    then let '(r, w') := mathRandom w in (below r mistakeChance, w')
    else (false, w) in
  if mistake then
    let actions := [Action.attack; Action.special; Action.defend] in
    let '(r, w2) := mathRandom w1 in
    (Js.index actions (Js.floor (r * inject_Z (Z.of_nat (List.length actions)))%Q), w2)
  else
    (* this.difficulty === 'hard' && Math.random() < params.optimalPlayChance *)
    let '(optimal, w2) :=
      if String.eqb (difficulty ai) "hard"
      then let '(r, w') := mathRandom w1 in (below r optimalPlayChance, w')
      else (false, w1) in
    if optimal then (Some (getOptimalAction situation), w2)
    else (Some decision, w2).

Definition logDecision (ai : AI) (decision : option Action.t) (situation : Situation)
  : AI :=
  let m := memory ai in
  let pushed :=
    ownActions m
    ++ [mkOwnAction decision (aiHealthStatus situation) (playerHealthStatus situation)
                    (urgency situation) (turnsElapsed m)] in
  let kept := if Z.of_nat (List.length pushed) >? 10 then shift pushed else pushed in
  mkAI (difficulty ai) (personality ai)
       (mkMemory (playerActions m) kept (damageDealt m) (damageTaken m) (turnsElapsed m)).

(** [makeDecision]: the chosen action, the AI with its updated memory and
    the world after the random draws. *)
Definition makeDecision (ai : AI) (battleState : BattleState) (w : World)
  : option Action.t * AI * World :=
  let ai1 := updateMemory ai battleState in
  let situation := analyzeBattleSituation ai1 battleState in
  let strategy := determineStrategy ai1 situation in
  let '(decision0, w1) := executeStrategy strategy situation w in
  let '(decision, w2) := applyDifficultyModifications ai1 decision0 situation w1 in
  let ai2 := logDecision ai1 decision situation in
  (decision, ai2, w2).

Record BattleAnalysis := mkAnalysis {
  analysisTurns : Z;
  analysisDamageRatio : Q;
  analysisPattern : Pattern;
  analysisPersonality : DifficultyManager.Personality;
  analysisDifficulty : string
}.

Definition getBattleAnalysis (ai : AI) : BattleAnalysis :=
  mkAnalysis (turnsElapsed (memory ai))
    (if damageTaken (memory ai) >? 0
     then (inject_Z (damageDealt (memory ai)) / inject_Z (damageTaken (memory ai)))%Q
     else 1)
    (analyzePlayerPattern ai)
    (personalityName (personality ai))
    (difficulty ai).

Definition resetMemory (ai : AI) : AI :=
  mkAI (difficulty ai) (personality ai) (mkMemory [] [] 0 0 0).

End AIOpponent.

(** ** BattleEngine *)

Module BattleEngine.

Inductive Side := player | opponent.
Inductive Status := active | won | lost.

Definition sideEqb (a b : Side) : bool :=
  match a, b with
  | player, player | opponent, opponent => true
  | _, _ => false
  end.

Definition statusEqb (a b : Status) : bool :=
  match a, b with
  | active, active | won, won | lost, lost => true
  | _, _ => false
  end.

(** The message templates of [executeAction], with the values they
    interpolate. *)
Inductive ActionMessage :=
| NoMessage
| MsgCriticalHit (attackerName : string) (damage : Z)
| MsgAttacks (attackerName : string) (damage : Z)
| MsgCriticalSpecial (attackerName : string) (damage : Z)
| MsgUsesSpecial (attackerName : string) (damage : Z)
| MsgDefendsRecovers (attackerName : string) (healAmount : Z)
| MsgDefensiveStance (attackerName : string).

(** The experience reward of a battle: a whole number of points, or NaN
    (from a multiplier that is not a number). *)
Inductive Reward :=
| NoNumber
| Points (points : Z).

Inductive LogEntry :=
| BattleStartEntry (playerName opponentName : string) (timestamp : Z)
| ActionEntry (actor : Side) (actionType : Action.t) (damage : Z) (critical : bool)
    (message : ActionMessage) (timestamp : Z)
| BattleEndEntry (winner : Side) (winnerName : string) (experienceReward : Reward)
    (timestamp : Z).

Record Battle := mkBattle {
  battleId : CreatureId;
  playerCreature : Creature;
  opponentCreature : Creature;
  difficulty : option string;             (* the argument of initiateBattle, possibly null *)
  currentTurn : Side;
  turnCount : Z;
  battleLog : list LogEntry;
  status : Status;
  startTime : Z;
  playerActions : ActionTracking;
  opponentActions : ActionTracking;
  winner : option Side;
  endTime : option Z;
  duration : option Z;
  experienceReward : option Reward;
  aiAnalysis : option AIOpponent.BattleAnalysis
}.

(** The engine object. [this.random] is [Math.random], as the constructor
    sets it. *)
Record Engine := mkEngine {
  currentBattle : option Battle;
  battleHistory : list Battle;
  aiOpponent : option AIOpponent.AI;
  difficultyManager : option DifficultyManager.Manager
}.

(** The engine together with the world it draws random numbers and time
    stamps from. *)
Definition State : Type := Engine * World.

(** The object returned by [executeAction]. *)
Record ActionResult := mkActionResult {
  resultActor : Side;
  resultActionType : Action.t;
  resultDamage : Z;
  resultCritical : bool;
  resultBlocked : bool;
  resultMessage : ActionMessage;
  attackerHp : Z;
  defenderHp : Z;
  resultTimestamp : Z
}.

Definition CRITICAL_HIT_BASE_CHANCE : Q := 5 # 100.
Definition CRITICAL_HIT_LEVEL_BONUS : Q := 1 # 100.
Definition CRITICAL_HIT_MULTIPLIER : Q := 15 # 10.
Definition SPECIAL_ATTACK_MULTIPLIER : Q := 13 # 10.
Definition DEFEND_DAMAGE_REDUCTION : Q := 5 # 10.
Definition EXPERIENCE_BASE_REWARD : Z := 50.
Definition EXPERIENCE_LEVEL_MULTIPLIER : Z := 10.

(** Assignments to fields of [this.currentBattle]. *)
Definition withCreatures (b : Battle) (p o : Creature) : Battle :=
  mkBattle (battleId b) p o (difficulty b) (currentTurn b) (turnCount b)
    (battleLog b) (status b) (startTime b) (playerActions b) (opponentActions b)
    (winner b) (endTime b) (duration b) (experienceReward b) (aiAnalysis b).

Definition withActions (b : Battle) (pa oa : ActionTracking) : Battle :=
  mkBattle (battleId b) (playerCreature b) (opponentCreature b) (difficulty b)
    (currentTurn b) (turnCount b) (battleLog b) (status b) (startTime b) pa oa
    (winner b) (endTime b) (duration b) (experienceReward b) (aiAnalysis b).

Definition withLog (b : Battle) (l : list LogEntry) : Battle :=
  mkBattle (battleId b) (playerCreature b) (opponentCreature b) (difficulty b)
    (currentTurn b) (turnCount b) l (status b) (startTime b) (playerActions b)
    (opponentActions b) (winner b) (endTime b) (duration b) (experienceReward b)
    (aiAnalysis b).

Definition withTurn (b : Battle) (t : Side) (n : Z) : Battle :=
  mkBattle (battleId b) (playerCreature b) (opponentCreature b) (difficulty b)
    t n (battleLog b) (status b) (startTime b) (playerActions b)
    (opponentActions b) (winner b) (endTime b) (duration b) (experienceReward b)
    (aiAnalysis b).

Definition withLastDamage (t : ActionTracking) (d : Z) : ActionTracking :=
  mkTracking (lastAction t) (consecutiveDefends t) (specialAttacksUsed t) d.

(** [this.currentBattle[actor + 'Actions']]. *)
Definition actionsOf (b : Battle) (actor : Side) : ActionTracking :=
  match actor with
  | player => playerActions b
  | opponent => opponentActions b
  end.

Definition setActionsOf (b : Battle) (actor : Side) (t : ActionTracking) : Battle :=
  match actor with
  | player => withActions b t (opponentActions b)
  | opponent => withActions b (playerActions b) t
  end.

(** The attacker and the defender that the two callers of [executeAction]
    pass for [actor]. *)
Definition attackerOf (b : Battle) (actor : Side) : Creature :=
  match actor with
  | player => playerCreature b
  | opponent => opponentCreature b
  end.

Definition defenderOf (b : Battle) (actor : Side) : Creature :=
  match actor with
  | player => opponentCreature b
  | opponent => playerCreature b
  end.

Definition setAttacker (b : Battle) (actor : Side) (c : Creature) : Battle :=
  match actor with
  | player => withCreatures b c (opponentCreature b)
  | opponent => withCreatures b (playerCreature b) c
  end.

Definition setDefender (b : Battle) (actor : Side) (c : Creature) : Battle :=
  match actor with
  | player => withCreatures b (playerCreature b) c
  | opponent => withCreatures b c (opponentCreature b)
  end.

Definition addBattleLogEntry (b : Battle) (entry : LogEntry) : Battle :=
  withLog b (battleLog b ++ [entry]).

Definition lastActionIsDefend (t : ActionTracking) : bool :=
  match lastAction t with
  | Some Action.defend => true
  | _ => false
  end.

(** [calculateDamage(attacker, defender, attackType)]; [isSpecial] is
    [attackType === 'special']. *)
Definition calculateDamage (b : Battle) (attacker defender : Creature)
  (isSpecial : bool) (w : World) : Z * World :=
  let baseDamage0 := inject_Z (attack (stats attacker)) in
  let defense0 := inject_Z (defense (stats defender)) in
  let baseDamage :=
    if isSpecial then (baseDamage0 * SPECIAL_ATTACK_MULTIPLIER)%Q else baseDamage0 in
  let defenderActions :=
    match currentTurn b with
    | player => opponentActions b
    | opponent => playerActions b
    end in
  let defense1 :=
    if lastActionIsDefend defenderActions
    then (defense0 * (1 + DEFEND_DAMAGE_REDUCTION))%Q else defense0 in
  let diff := (baseDamage - defense1)%Q in
  let damage := if Js.Qltb diff 1 then 1%Q else diff in      (* Math.max(1, ...) *)
  let variance := 2 # 10 in
  let '(r, w1) := mathRandom w in
  let randomMultiplier := (1 + (r - (5 # 10)) * variance * 2)%Q in
  let damage' := Js.floor (damage * randomMultiplier)%Q in
  (Z.max 1 damage', w1).

(** [checkCriticalHit(attacker, modifier)]. *)
Definition checkCriticalHit (e : Engine) (attacker : Creature) (modifier : Q)
  (w : World) : bool * World :=
  let levelBonus := (inject_Z (level attacker) * CRITICAL_HIT_LEVEL_BONUS)%Q in
  let baseChance :=
    match isOpponent attacker, difficultyManager e, difficultyBonuses attacker with
    | true, Some _, Some bonuses => criticalHitChance bonuses
    | _, _, _ => CRITICAL_HIT_BASE_CHANCE
    end in
  let totalChance := ((baseChance + levelBonus) * modifier)%Q in
  let '(r, w1) := mathRandom w in
  (Js.Qltb r totalChance, w1).

(** The three strings that the switch of [executeAction] recognises. *)
Definition parseAction (actionType : string) : option Action.t :=
  if String.eqb actionType "attack" then Some Action.attack
  else if String.eqb actionType "special" then Some Action.special
  else if String.eqb actionType "defend" then Some Action.defend
  else None.

Definition actionName (a : Action.t) : string :=
  match a with
  | Action.attack => "attack"
  | Action.special => "special"
  | Action.defend => "defend"
  end.

(** The action type that the AI hands to [executeAction], as text;
    [undefined] prints as "undefined". *)
Definition decisionText (d : option Action.t) : string :=
  match d with
  | Some a => actionName a
  | None => "undefined"
  end.

(** [executeAction(attacker, defender, actionType, actor)] on the current
    battle [b]; the attacker and the defender are the creatures of [b] that
    the callers pass for [actor]. *)
Definition executeAction (e : Engine) (b : Battle) (actor : Side)
  (actionType : string) (w : World)
  : Result (Battle * World) ActionResult :=
  let attacker := attackerOf b actor in
  let defender := defenderOf b actor in
  let '(timestamp, w0) := dateNow w in
  match parseAction actionType with
  | Some Action.attack =>
      let '(damage0, w1) := calculateDamage b attacker defender false w0 in
      let '(critical, w2) := checkCriticalHit e attacker 1 w1 in
      let damage :=
        if critical then Js.floor (inject_Z damage0 * CRITICAL_HIT_MULTIPLIER)%Q
        else damage0 in
      let newHp := Z.max 0 (hp (stats defender) - damage) in
      let b1 := setDefender b actor (setHp defender newHp) in
      let b2 := setActionsOf b1 actor (withLastDamage (actionsOf b1 actor) damage) in
      let message :=
        if critical then MsgCriticalHit (name attacker) damage
        else MsgAttacks (name attacker) damage in
      let b3 :=
        addBattleLogEntry b2
          (ActionEntry actor Action.attack damage critical message timestamp) in
      Ok (mkActionResult actor Action.attack damage critical false message
            (hp (stats attacker)) newHp timestamp) (b3, w2)
  | Some Action.special =>
      let '(damage0, w1) := calculateDamage b attacker defender true w0 in
      let '(critical, w2) := checkCriticalHit e attacker (5 # 10) w1 in
      let damage :=
        if critical then Js.floor (inject_Z damage0 * CRITICAL_HIT_MULTIPLIER)%Q
        else damage0 in
      let newHp := Z.max 0 (hp (stats defender) - damage) in
      let b1 := setDefender b actor (setHp defender newHp) in
      let b2 := setActionsOf b1 actor (withLastDamage (actionsOf b1 actor) damage) in
      let message :=
        if critical then MsgCriticalSpecial (name attacker) damage
        else MsgUsesSpecial (name attacker) damage in
      let b3 :=
        addBattleLogEntry b2
          (ActionEntry actor Action.special damage critical message timestamp) in
      Ok (mkActionResult actor Action.special damage critical false message
            (hp (stats attacker)) newHp timestamp) (b3, w2)
  | Some Action.defend =>
      let healAmount := Js.floor (inject_Z (maxHp (stats attacker)) * (1 # 10))%Q in
      let newHp := Z.min (maxHp (stats attacker)) (hp (stats attacker) + healAmount) in
      let b1 := setAttacker b actor (setHp attacker newHp) in
      let message :=
        if healAmount >? 0 then MsgDefendsRecovers (name attacker) healAmount
        else MsgDefensiveStance (name attacker) in
      let b2 :=
        addBattleLogEntry b1
          (ActionEntry actor Action.defend 0 false message timestamp) in
      Ok (mkActionResult actor Action.defend 0 false false message
            newHp (hp (stats defender)) timestamp) (b2, w0)
  | None => Throw ("Unknown action type: " ++ actionType) (b, w0)
  end.

Definition updateActionTracking (b : Battle) (actor : Side) (actionType : Action.t)
  : Battle :=
  let actions := actionsOf b actor in
  let defends :=
    if Action.eqb actionType Action.defend then consecutiveDefends actions + 1 else 0 in
  let specials :=
    if Action.eqb actionType Action.special then specialAttacksUsed actions + 1
    else specialAttacksUsed actions in
  setActionsOf b actor
    (mkTracking (Some actionType) defends specials (lastDamageDealt actions)).

(** The multipliers used when the engine has no DifficultyManager:
    [difficultyMultipliers[difficulty] || 1.0].  [None] is a built-in
    object, found under an inherited name. *)
Definition fallbackMultiplier (d : option string) : option Q :=
  match d with
  | None => Some 1%Q
  | Some name =>
      match DifficultyName.lookup name with
      | DifficultyName.Own easy => Some (8 # 10)
      | DifficultyName.Own medium => Some 1%Q
      | DifficultyName.Own hard => Some (13 # 10)
      | DifficultyName.Inherited => None
      | DifficultyName.Missing => Some 1%Q
      end
  end.

(** [calculateExperienceReward(winner)].  The product with a multiplier
    that is undefined or a built-in object is NaN, and so is its floor. *)
Definition calculateExperienceReward (e : Engine) (b : Battle) (winnerSide : Side)
  : Reward :=
  match winnerSide with
  | opponent => Points 0
  | player =>
      let opponentLevel := level (opponentCreature b) in
      let playerLevel := level (playerCreature b) in
      let experience0 := EXPERIENCE_BASE_REWARD in
      let experience1 := experience0 + opponentLevel * EXPERIENCE_LEVEL_MULTIPLIER in
      let experience2 :=
        if opponentLevel >? playerLevel
        then experience1 + (opponentLevel - playerLevel) * 20
        else experience1 in
      let multiplier :=
        match difficultyManager e with
        | Some dm =>
            option_map DifficultyManager.experienceMultiplier
              (DifficultyManager.getDifficultyConfigOfName dm (difficulty b))
        | None => fallbackMultiplier (difficulty b)
        end in
      match multiplier with
      | Some factor => Points (Js.floor (inject_Z experience2 * factor)%Q)
      | None => NoNumber
      end
  end.

(** [endBattle(winner)]. *)
Definition endBattle (winnerSide : Side) (s : State) : Result State unit :=
  let '(e, w) := s in
  match currentBattle e with
  | None => Ok tt s
  | Some b =>
      let '(endT, w1) := dateNow w in
      let newStatus := match winnerSide with player => won | opponent => lost end in
      let b1 :=
        mkBattle (battleId b) (playerCreature b) (opponentCreature b) (difficulty b)
          (currentTurn b) (turnCount b) (battleLog b) newStatus (startTime b)
          (playerActions b) (opponentActions b) (Some winnerSide) (Some endT)
          (Some (endT - startTime b)) (experienceReward b) (aiAnalysis b) in
      let reward := calculateExperienceReward e b1 winnerSide in
      let winnerCreature :=
        match winnerSide with
        | player => playerCreature b1
        | opponent => opponentCreature b1
        end in
      let '(stampEnd, w2) := dateNow w1 in
      let b2 :=
        mkBattle (battleId b1) (playerCreature b1) (opponentCreature b1) (difficulty b1)
          (currentTurn b1) (turnCount b1)
          (battleLog b1 ++ [BattleEndEntry winnerSide (name winnerCreature) reward stampEnd])
          (status b1) (startTime b1) (playerActions b1) (opponentActions b1)
          (winner b1) (endTime b1) (duration b1) (Some reward)
          (match aiOpponent e with
           | Some ai => Some (AIOpponent.getBattleAnalysis ai)
           | None => aiAnalysis b1
           end) in
      match difficultyManager e with
      | Some dm =>
          match DifficultyManager.recordBattleResultOfName
                  (sideEqb winnerSide player) (difficulty b2) dm with
          | Throw msg dm' =>
              Throw msg (mkEngine (Some b2) (battleHistory e) (aiOpponent e) (Some dm'), w2)
          | Ok _ dm' =>
              Ok tt (mkEngine (Some b2) (battleHistory e ++ [b2]) (aiOpponent e) (Some dm'),
                     w2)
          end
      | None =>
          Ok tt (mkEngine (Some b2) (battleHistory e ++ [b2]) (aiOpponent e) None, w2)
      end
  end.

(** [checkBattleEnd]. *)
Definition checkBattleEnd (s : State) : Result State bool :=
  let '(e, w) := s in
  match currentBattle e with
  | None => Ok true s
  | Some b =>
      if negb (statusEqb (status b) active) then Ok true s
      else
        let playerHp := hp (stats (playerCreature b)) in
        let opponentHp := hp (stats (opponentCreature b)) in
        if playerHp <=? 0 then
          match endBattle opponent s with
          | Ok _ s' => Ok true s'
          | Throw msg s' => Throw msg s'
          end
        else if opponentHp <=? 0 then
          match endBattle player s with
          | Ok _ s' => Ok true s'
          | Throw msg s' => Throw msg s'
          end
        else Ok false s
  end.

(** [makeSimpleAIDecision], the fallback without an AIOpponent. *)
Definition makeSimpleAIDecision (b : Battle) (w : World) : Action.t * World :=
  let opponentC := opponentCreature b in
  let tracking := opponentActions b in
  let hpPercentage := Num.div (hp (stats opponentC)) (maxHp (stats opponentC)) in
  let '(defendNow, w1) :=
    if Num.lt hpPercentage (3 # 10) && (consecutiveDefends tracking <? 2)
    then let '(r, w') := mathRandom w in (Js.Qltb r (4 # 10), w')
    else (false, w) in
  if defendNow then (Action.defend, w1)
  else
    (* specialAttacksUsed < 3 && this.random() < 0.25 *)
    let '(useSpecial, w2) :=
      if specialAttacksUsed tracking <? 3
      then let '(r, w') := mathRandom w1 in (Js.Qltb r (25 # 100), w')
      else (false, w1) in
    if useSpecial then (Action.special, w2) else (Action.attack, w2).

(** [makeAIDecision]: the action, the (mutated) AIOpponent and the world. *)
Definition makeAIDecision (e : Engine) (b : Battle) (w : World)
  : option Action.t * option AIOpponent.AI * World :=
  match aiOpponent e with
  | None =>
      let '(a, w1) := makeSimpleAIDecision b w in (Some a, None, w1)
  | Some ai =>
      let battleState :=
        AIOpponent.mkBattleState (playerCreature b) (opponentCreature b)
          (playerActions b) (opponentActions b)
          (lastAction (playerActions b))
          (lastDamageDealt (playerActions b))
          (lastDamageDealt (opponentActions b))
          (turnCount b) (difficulty b) in
      let '(decision, ai', w1) := AIOpponent.makeDecision ai battleState w in
      (decision, Some ai', w1)
  end.

Definition withBattle (e : Engine) (b : Battle) : Engine :=
  mkEngine (Some b) (battleHistory e) (aiOpponent e) (difficultyManager e).

(** What follows [executeAction] in both [executePlayerAction] and
    [executeAIAction]: tracking, the end-of-battle test, the turn switch. *)
Definition finishTurn (e : Engine) (b : Battle) (actor : Side) (a : Action.t)
  (result : ActionResult) (w : World) : Result State ActionResult :=
  let b1 := updateActionTracking b actor a in
  match checkBattleEnd (withBattle e b1, w) with
  | Throw msg s' => Throw msg s'
  | Ok true s' => Ok result s'
  | Ok false (e', w') =>
      match currentBattle e' with
      | None => Ok result (e', w')
      | Some b' =>
          match actor with
          | player => Ok result (withBattle e' (withTurn b' opponent (turnCount b' + 1)), w')
          | opponent => Ok result (withBattle e' (withTurn b' player (turnCount b')), w')
          end
      end
  end.

Definition executePlayerAction (actionType : string) (s : State)
  : Result State ActionResult :=
  let '(e, w) := s in
  match currentBattle e with
  | None => Throw "No active battle" s
  | Some b =>
      if negb (statusEqb (status b) active) then Throw "No active battle" s
      else if negb (sideEqb (currentTurn b) player) then Throw "Not player turn" s
      else
        match executeAction e b player actionType w with
        | Throw msg (b', w') => Throw msg (withBattle e b', w')
        | Ok result (b', w') =>
            finishTurn e b' player (resultActionType result) result w'
        end
  end.

Definition executeAIAction (s : State) : Result State ActionResult :=
  let '(e, w) := s in
  match currentBattle e with
  | None => Throw "No active battle" s
  | Some b =>
      if negb (statusEqb (status b) active) then Throw "No active battle" s
      else if negb (sideEqb (currentTurn b) opponent) then Throw "Not opponent turn" s
      else
        let '(actionType, ai', w1) := makeAIDecision e b w in
        let e1 := mkEngine (currentBattle e) (battleHistory e) ai' (difficultyManager e) in
        match executeAction e1 b opponent (decisionText actionType) w1 with
        | Throw msg (b', w') => Throw msg (withBattle e1 b', w')
        | Ok result (b', w') =>
            finishTurn e1 b' opponent (resultActionType result) result w'
        end
  end.

End BattleEngine.

(** ** Vocabulary of the stated properties *)

Module Spec.

(** The ten ASCII digits. *)
Definition asciiDigits : list ascii :=
  [ "0"; "1"; "2"; "3"; "4"; "5"; "6"; "7"; "8"; "9" ]%char.

(** A string that consists only of ASCII digits. *)
Definition OnlyDigits (s : string) : Prop :=
  forall c, In c (list_ascii_of_string s) -> In c asciiDigits.

(** The generator after [n] calls. *)
Fixpoint calls (n : nat) (g : BarcodeProcessor.SeededRandom)
  : BarcodeProcessor.SeededRandom :=
  match n with
  | O => g
  | S n' => snd (BarcodeProcessor.next (calls n' g))
  end.

(** The value returned by call number [n + 1]. *)
Definition nthValue (n : nat) (g : BarcodeProcessor.SeededRandom) : Q :=
  fst (BarcodeProcessor.next (calls n g)).

(** What is stated about the generator made from the seed [s]: where it
    starts, what each call does, the range of the returned values, and that
    a second generator made from [s] returns the same values. *)
Definition SeededRandomContract (s : Z) : Prop :=
  let g := BarcodeProcessor.createSeededRandom s in
  BarcodeProcessor.current g
    = (if Z.rem s 2147483647 <=? 0 then Z.rem s 2147483647 + 2147483646
       else Z.rem s 2147483647)
  /\ 1 <= BarcodeProcessor.current g <= 2147483646
  /\ (forall n,
        let c := BarcodeProcessor.current (calls n g) in
        let c' := (c * 16807) mod 2147483647 in
        BarcodeProcessor.next (calls n g)
          = (Qmake (c' - 1) 2147483646, BarcodeProcessor.mkGen c')
        /\ (0 <= nthValue n g)%Q /\ (nthValue n g < 1)%Q)
  /\ (forall g', g' = BarcodeProcessor.createSeededRandom s ->
        forall n, nthValue n g' = nthValue n g).

(** One level-up as the leveling rule words it: the consumed threshold is
    subtracted, the level goes up by one, the stats are those of the
    barcode's base stats at the new level, the hit points keep their ratio
    to the maximum (the new maximum times the ratio, in the arithmetic of
    doubles, floored, at least 1), and the next threshold is
    [floor (100 * 1.5 ^ (level - 1))] at the new level. *)
Definition levelUpRule (base : CreatureStats) (c : Creature) : Creature :=
  let newLevel := level c + 1 in
  let newMaxHp := maxHp base + (newLevel - 1) * 5 in
  let ratio := Js.div (inject_Z (hp (stats c))) (inject_Z (maxHp (stats c))) in
  mkCreature (id c) (name c) (barcode c)
    (mkStats (Z.max 1 (Js.floor (Js.mul (inject_Z newMaxHp) ratio)))
             newMaxHp
             (attack base + (newLevel - 1) * 5)
             (defense base + (newLevel - 1) * 5)
             (speed base + (newLevel - 1) * 5))
    newLevel
    (experience c - experienceToNext c)
    ((100 * 3 ^ (newLevel - 1)) / 2 ^ (newLevel - 1))
    (discoveryDate c) (battlesWon c) (battlesLost c)
    (isOpponent c) (difficultyBonuses c).

Fixpoint levelUps (k : nat) (base : CreatureStats) (c : Creature) : Creature :=
  match k with
  | O => c
  | S k' => levelUps k' base (levelUpRule base c)
  end.


(** A recorded result that counts as a win. *)
Definition isWin (r : option DifficultyManager.BattleResult) : bool :=
  match r with
  | Some res =>
      match DifficultyManager.won res with
      | Some true => true
      | _ => false
      end
  | None => false
  end.

(** A recorded win on medium.  A result without a difficulty is counted on
    the manager's current difficulty, which is easy for a fresh manager. *)
Definition isMediumWin (r : option DifficultyManager.BattleResult) : bool :=
  match r with
  | Some res =>
      match DifficultyManager.won res, DifficultyManager.resultDifficulty res with
      | Some true, Some medium => true
      | _, _ => false
      end
  | None => false
  end.

(** Cumulative wins and medium-specific wins of a sequence of results. *)
Definition totalWins (rs : list (option DifficultyManager.BattleResult)) : Z :=
  Z.of_nat (List.length (filter isWin rs)).

Definition mediumWins (rs : list (option DifficultyManager.BattleResult)) : Z :=
  Z.of_nat (List.length (filter isMediumWin rs)).

(** The medium counter that [checkDifficultyUnlocks] reads. *)
Definition mediumWinsOf (m : DifficultyManager.Manager) : Z :=
  match DifficultyManager.battleStats m with
  | Some (DifficultyManager.StatsFull _ md _) => DifficultyManager.wins md
  | _ => 0
  end.

(** The state of a manager that started fresh and has recorded results:
    what is unlocked is what its counters say. *)
Definition UnlockInvariant (m : DifficultyManager.Manager) : Prop :=
  DifficultyManager.currentDifficulty m = easy
  /\ DifficultyManager.battleStats m <> Some DifficultyManager.StatsEmpty
  /\ DifficultyManager.isDifficultyUnlocked m easy = true
  /\ DifficultyManager.isDifficultyUnlocked m medium
     = (DifficultyManager.getTotalWins m >=? 5)
  /\ DifficultyManager.isDifficultyUnlocked m hard
     = ((DifficultyManager.getTotalWins m >=? 15) && (mediumWinsOf m >=? 8)).

(** The preconditions that [executePlayerAction] and [executeAIAction]
    test before acting. *)
Definition MayAct (actor : BattleEngine.Side) (s : BattleEngine.State) : Prop :=
  exists b,
    BattleEngine.currentBattle (fst s) = Some b
    /\ BattleEngine.status b = BattleEngine.active
    /\ BattleEngine.currentTurn b = actor.

(** The engine's DifficultyManager, when there is one, is able to count
    the result of the current battle: its counters are not the empty
    object, and the difficulty of the battle is [null], the empty text or
    the name of a tier. *)
Definition CanRecord (s : BattleEngine.State) : Prop :=
  match BattleEngine.difficultyManager (fst s) with
  | Some dm =>
      DifficultyManager.battleStats dm <> Some DifficultyManager.StatsEmpty
      /\ forall b, BattleEngine.currentBattle (fst s) = Some b ->
                   DifficultyName.isTierOrNull (BattleEngine.difficulty b) = true
  | None => True
  end.

End Spec.

(** ** Sample inputs *)

Module Samples.

(** Two worlds that differ in clock, random values and calls made so far. *)
Definition worldA : World :=
  mkWorld (fun n => match n with O => 1700000000000 | S _ => 1700000000001 end)
          (fun _ => mkUnit01 1 3) 0 0.
Definition worldB : World :=
  mkWorld (fun _ => 1800000000000)
          (fun n => match n with O => mkUnit01 0 1 | S _ => mkUnit01 4 5 end) 12 40.

(** The creature generated from "12345678" in [worldA]. *)
Definition ivarno : Creature :=
  mkCreature (mkId 1700000000000 (1 # 4)) "Ivarno" "12345678"
    (mkStats 80 80 48 48 53) 1 0 100 1700000000001 0 0 false None.


(** The creature at level 2 with 7 of 10 hit points, as a foreign
    collection record could hold it. *)
Definition wounded : Creature :=
  mkCreature (mkId 1700000000000 (1 # 4)) "Ivarno" "12345678"
    (mkStats 7 10 48 48 53) 2 0 150 1700000000001 0 0 false None.

(** A collection that holds just this creature. *)
Definition collection : CreatureManager.Manager :=
  CreatureManager.mkManager [(id ivarno, ivarno)] [].

(** The collection after one grant of 10^12 experience points. *)
Definition afterGrant : CreatureManager.Manager :=
  match CreatureManager.awardExperience (id ivarno) 1000000000000 collection with
  | CreatureManager.Returned (_, m) => m
  | _ => collection
  end.

(** The opponent of the sample battle. *)
Definition rival : Creature :=
  mkCreature (mkId 1700000000002 (1 # 2)) "Tuka (Medium)" "99998888"
    (mkStats 50 80 60 55 50) 1 0 100 1700000000003 0 0 true
    (Some (mkBonuses (35 # 100) (1 # 10) 1)).

(** A world in which [Math.random()] always returns 0.9. *)
Definition worldHigh : World :=
  mkWorld (fun _ => 1700000000005) (fun _ => mkUnit01 9 1) 0 0.

(** The AI has used its three special attacks and has just defended twice. *)
Definition opponentTracking : ActionTracking :=
  mkTracking (Some Action.defend) 2 3 0.

Definition playerTracking : ActionTracking :=
  mkTracking (Some Action.attack) 0 0 12.

Definition defensiveAI : AIOpponent.AI :=
  AIOpponent.mkAI "medium"
    (AIOpponent.mkPersonality DifficultyManager.Defensive
       (AIOpponent.mkTraits (3 # 10) (2 # 10) (2 # 10) (6 # 10)))
    (AIOpponent.mkMemory [Action.attack] [] 30 18 5).

Definition battleState : AIOpponent.BattleState :=
  AIOpponent.mkBattleState (setHp ivarno 60) rival playerTracking opponentTracking
    (Some Action.attack) 12 0 5 (Some "medium"%string).

(** The same situation as a battle of the engine, on either side's turn. *)
Definition battle (turn : BattleEngine.Side) : BattleEngine.Battle :=
  BattleEngine.mkBattle (mkId 1700000000004 (1 # 3)) (setHp ivarno 60) rival
    (Some "medium"%string) turn 5 [] BattleEngine.active 1700000000004
    playerTracking opponentTracking None None None None None.

Definition engine (turn : BattleEngine.Side) : BattleEngine.Engine :=
  BattleEngine.mkEngine (Some (battle turn)) [] (Some defensiveAI)
    (Some DifficultyManager.initial).

(** An engine whose DifficultyManager was loaded from a progress record
    saved before any battle ([battleStats] is the empty object), in a battle
    in which the opponent has one hit point left. *)
Definition loadedManager : DifficultyManager.Manager :=
  DifficultyManager.mkManager easy [easy] (Some DifficultyManager.StatsEmpty) [].

Definition lastBlow : BattleEngine.Engine :=
  BattleEngine.mkEngine
    (Some (BattleEngine.mkBattle (mkId 1700000000004 (1 # 3)) (setHp ivarno 60)
             (setHp rival 1) (Some "medium"%string) BattleEngine.player 5 []
             BattleEngine.active 1700000000004
             playerTracking opponentTracking None None None None None))
    [] (Some defensiveAI) (Some loadedManager).

(** The same battle under a difficulty that is not the name of a tier, in
    an engine with a new DifficultyManager. *)
Definition unknownTier : BattleEngine.Engine :=
  BattleEngine.mkEngine
    (Some (BattleEngine.mkBattle (mkId 1700000000004 (1 # 3)) (setHp ivarno 60)
             (setHp rival 1) (Some "nightmare"%string) BattleEngine.player 5 []
             BattleEngine.active 1700000000004
             playerTracking opponentTracking None None None None None))
    [] (Some defensiveAI) (Some DifficultyManager.initial).

End Samples.

(** ** CreatureManager: the collection and the remaining progression methods

    The methods of the first CreatureManager class next to
    [awardExperience].  Of their console output only the message that
    [CreatureManager.ConsoleEntry] can hold (creature not found) is kept;
    the other messages change nothing and are not represented. *)

Module Collection.

Import CreatureManager.

(** [this.creatures.set(key, creature)]: an existing key keeps its place in
    the Map, a new key goes to the end. *)
Fixpoint set (cs : list (CreatureId * Creature)) (k : CreatureId) (c : Creature)
  : list (CreatureId * Creature) :=
  match cs with
  | [] => [(k, c)]
  | (k', c') :: rest =>
      if idEqb k' k then (k', c) :: rest else (k', c') :: set rest k c
  end.

(** [this.creatures.delete(key)]. *)
Fixpoint delete (cs : list (CreatureId * Creature)) (k : CreatureId)
  : list (CreatureId * Creature) :=
  match cs with
  | [] => []
  | (k', c') :: rest =>
      if idEqb k' k then rest else (k', c') :: delete rest k
  end.

(** The loop over [this.creatures.values()]. *)
Definition findCreatureByBarcode (m : Manager) (b : string) : option Creature :=
  List.find (fun creature => String.eqb (barcode creature) b)
            (List.map snd (creatures m)).

Definition addCreature (creature : Creature) (m : Manager) : bool * Manager :=
  if negb (DataValidation.isValidCreature creature) then (false, m)
  else
    match findCreatureByBarcode m (barcode creature) with
    | Some _ => (false, m)
    | None =>
        (true, mkManager (set (creatures m) (id creature) creature) (console m))
    end.

(** [getCreature]; [None] is [null]. *)
Definition getCreature (m : Manager) (creatureId : CreatureId) : option Creature :=
  get (creatures m) creatureId.

Definition getCollection (m : Manager) : list Creature :=
  List.map snd (creatures m).

Definition removeCreature (creatureId : CreatureId) (m : Manager) : bool * Manager :=
  match get (creatures m) creatureId with
  | None =>
      (false, mkManager (creatures m) (console m ++ [ErrCreatureNotFound creatureId]))
  | Some _ =>
      (true, mkManager (delete (creatures m) creatureId) (console m))
  end.

Definition clearCollection (m : Manager) : bool * Manager :=
  (true, mkManager [] (console m)).

(** The object returned by [levelUpCreature]. *)
Inductive LevelUpOutcome :=
| LevelUpFailure (error : string)                        (* success: false *)
| LevelUpSuccess (oldLevel newLevel levelsGained : Z)
    (oldStats newStats : CreatureStats) (statGains : StatGains).   (* success: true *)

(** [levelUpCreature(creatureId, levels)]: the direct level-up.
    [NotFinite] as in [updateStatsForLevel]. *)
Definition levelUpCreature (creatureId : CreatureId) (levels : Z) (m : Manager)
  : Outcome (LevelUpOutcome * Manager) :=
  match get (creatures m) creatureId with
  | None =>
      Returned (LevelUpFailure "Creature not found",
                mkManager (creatures m) (console m ++ [ErrCreatureNotFound creatureId]))
  | Some creature =>
      if levels <? 1 then Returned (LevelUpFailure "Invalid level amount", m)
      else
        let oldLevel := level creature in
        let oldStats := stats creature in
        let creature1 := setLevel creature (level creature + levels) in
        match updateStatsForLevel creature1 with
        | None => NotFinite
        | Some creature2 =>
            let creature3 :=
              setExperienceToNext creature2
                (GameUtils.calculateExperienceToNext (level creature2)) in
            Returned (LevelUpSuccess oldLevel (level creature3) levels oldStats
                        (stats creature3)
                        (calculateStatGains oldStats (stats creature3)),
                      mkManager (update (creatures m) creatureId creature3) (console m))
        end
  end.

(** [creature.battlesWon += 1] / [creature.battlesLost += 1]. *)
Definition countBattle (c : Creature) (won : bool) : Creature :=
  mkCreature (id c) (name c) (barcode c) (stats c) (level c) (experience c)
    (experienceToNext c) (discoveryDate c)
    (if won then battlesWon c + 1 else battlesWon c)
    (if won then battlesLost c else battlesLost c + 1)
    (isOpponent c) (difficultyBonuses c).

(** [updateBattleStats(creatureId, won, experienceGained)]; the result of
    the inner [awardExperience] is dropped by the source. *)
Definition updateBattleStats (creatureId : CreatureId) (won : bool)
  (experienceGained : Z) (m : Manager) : Outcome (bool * Manager) :=
  match get (creatures m) creatureId with
  | None =>
      Returned (false,
                mkManager (creatures m) (console m ++ [ErrCreatureNotFound creatureId]))
  | Some creature =>
      let m1 :=
        mkManager (update (creatures m) creatureId (countBattle creature won))
                  (console m) in
      if experienceGained >? 0 then
        match awardExperience creatureId experienceGained m1 with
        | OutOfFuel => OutOfFuel
        | NotFinite => NotFinite
        | Returned (_, m2) => Returned (true, m2)
        end
      else Returned (true, m1)
  end.

(** [calculateWinRate]. *)
Definition calculateWinRate (creature : Creature) : Q :=
  let totalBattles := battlesWon creature + battlesLost creature in
  if totalBattles >? 0
  then (inject_Z (battlesWon creature) / inject_Z totalBattles)%Q
  else 0%Q.

End Collection.

(** ** The second CreatureManager class of creature-manager.js

    The file holds a second class of the same name, whose [levelUpCreature]
    takes experience points, raises every stat by the flat growth and heals
    to full.  Its state is the Map alone; [getCreature] hands out the stored
    object itself, so the changes below are changes of the Map. *)

Module SimpleCreatureManager.

Definition Creatures : Type := list (CreatureId * Creature).

Definition getCreature (cs : Creatures) (creatureId : CreatureId) : option Creature :=
  CreatureManager.get cs creatureId.

Definition increaseCreatureStats (c : Creature) : Creature :=
  let statIncrease := GameConstants.STAT_GROWTH_PER_LEVEL in
  let newMaxHp := maxHp (stats c) + statIncrease in
  setStats c
    (mkStats newMaxHp newMaxHp
             (attack (stats c) + statIncrease)
             (defense (stats c) + statIncrease)
             (speed (stats c) + statIncrease)).

(** The body of the while loop of [levelUpCreature]. *)
Definition levelUpStep (c : Creature) : Creature :=
  let c1 := setExperience c (experience c - experienceToNext c) in
  let c2 := setLevel c1 (level c1 + 1) in
  let c3 := increaseCreatureStats c2 in
  setExperienceToNext c3 (GameUtils.calculateExperienceToNext (level c3)).

(** The while loop, which has no bound of its own, run with fuel; [None] is
    fuel used up. *)
Fixpoint levelUpLoop (fuel : nat) (c : Creature) (leveledUp : bool)
  : option (Creature * bool) :=
  match fuel with
  | O => None
  | S fuel' =>
      if experience c >=? experienceToNext c
      then levelUpLoop fuel' (levelUpStep c) true
      else Some (c, leveledUp)
  end.

(** [levelUpCreature(creatureId, experienceGained)]: whether the creature
    leveled up, and the Map. *)
Definition levelUpCreature (fuel : nat) (creatureId : CreatureId)
  (experienceGained : Z) (cs : Creatures) : option (bool * Creatures) :=
  match getCreature cs creatureId with
  | None => Some (false, cs)
  | Some creature =>
      let creature1 := setExperience creature (experience creature + experienceGained) in
      match levelUpLoop fuel creature1 false with
      | None => None
      | Some (creature2, leveledUp) =>
          Some (leveledUp, CreatureManager.update cs creatureId creature2)
      end
  end.

Definition healCreature (creatureId : CreatureId) (cs : Creatures) : bool * Creatures :=
  match getCreature cs creatureId with
  | None => (false, cs)
  | Some creature =>
      (true, CreatureManager.update cs creatureId
               (setHp creature (maxHp (stats creature))))
  end.

End SimpleCreatureManager.

(** ** DifficultyManager: selection, opponents, progress and persistence *)

Module Progression.

Import DifficultyManager.

(** [Math.round] on an exact rational: the nearest integer, halves upwards. *)
Definition round (q : Q) : Z := Qfloor (q + (1 # 2))%Q.

(** [Math.min(a, b)] on rationals. *)
Definition Qmin (a b : Q) : Q := if Qle_bool a b then a else b.

(** The keys of [this.difficultyStats]. *)
Definition parseDifficulty (s : string) : option Difficulty :=
  if String.eqb s "easy" then Some easy
  else if String.eqb s "medium" then Some medium
  else if String.eqb s "hard" then Some hard
  else None.

Definition isValidDifficulty (s : string) : bool :=
  match parseDifficulty s with
  | Some _ => true
  | None => false
  end.

(** [setDifficulty(difficulty)] for an arbitrary string. *)
Definition setDifficulty (difficulty : string) (m : Manager) : bool * Manager :=
  match parseDifficulty difficulty with
  | None => (false, m)
  | Some d =>
      if negb (isDifficultyUnlocked m d) then (false, m)
      else
        (true, mkManager d (unlockedDifficulties m) (battleStats m)
                 (events m ++ [DifficultyChanged d]))
  end.

(** [applyDifficultyEnhancements(opponent, config)]. *)
Definition applyDifficultyEnhancements (opponent : Creature) (config : DifficultyConfig)
  : Creature :=
  let boosted :=
    if Js.Qgtb (opponentStatMultiplier config) 1 then
      let bonus := ((opponentStatMultiplier config - 1) * (5 # 10))%Q in
      let s := stats opponent in
      mkStats (hp s) (maxHp s)
              (attack s + round (inject_Z (attack s) * bonus)%Q)
              (defense s + round (inject_Z (defense s) * bonus)%Q)
              (speed s)
    else stats opponent in
  mkCreature (id opponent) (name opponent) (barcode opponent) boosted
    (level opponent) (experience opponent) (experienceToNext opponent)
    (discoveryDate opponent) (battlesWon opponent) (battlesLost opponent)
    (isOpponent opponent)
    (Some (mkBonuses (configSpecialAttackFrequency config)
                     (configCriticalHitChance config)
                     (round (inject_Z (level opponent) * experienceMultiplier config)%Q))).

(** [generateOpponent(baseCreature, difficulty)]: the scaled opponent and the
    value of its [difficulty] field.  The id [opponent_<time>] is kept as
    the time stamp with the salt [-1], which no id of
    [GameUtils.generateId] has. *)
Definition generateOpponent (m : Manager) (baseCreature : Creature)
  (difficulty : option Difficulty) (w : World) : Creature * Difficulty * World :=
  let config := getDifficultyConfig m difficulty in
  let multiplier := opponentStatMultiplier config in
  let '(t, w1) := dateNow w in
  let scale (x : Z) : Z := round (inject_Z x * multiplier)%Q in
  let opponent :=
    mkCreature (mkId t (-1 # 1))
      (name baseCreature ++ " (" ++ displayName config ++ ")")%string
      (barcode baseCreature)
      (mkStats (scale (maxHp (stats baseCreature)))
               (scale (maxHp (stats baseCreature)))
               (scale (attack (stats baseCreature)))
               (scale (defense (stats baseCreature)))
               (scale (speed (stats baseCreature))))
      (Z.max 1 (scale (level baseCreature)))
      (experience baseCreature) (experienceToNext baseCreature)
      (discoveryDate baseCreature) (battlesWon baseCreature)
      (battlesLost baseCreature) true (difficultyBonuses baseCreature) in
  (applyDifficultyEnhancements opponent config,
   match difficulty with
   | Some d => d
   | None => currentDifficulty m
   end,
   w1).

(** [Object.values(weights).reduce((sum, weight) => sum + weight, 0)]. *)
Definition totalWeight (weights : list (Personality * Q)) : Q :=
  fold_left (fun sum entry => (sum + snd entry)%Q) weights 0%Q.

(** The for loop of [selectAIPersonality]; [None] when it runs to its end. *)
Fixpoint pickWeighted (weights : list (Personality * Q)) (random : Q)
  : option Personality :=
  match weights with
  | [] => None
  | (personality, weight) :: rest =>
      let random' := (random - weight)%Q in
      if Qle_bool random' 0 then Some personality else pickWeighted rest random'
  end.

(** [selectAIPersonality(difficulty)]; [None] is the [undefined] that the
    fallback reads from an empty table. *)
Definition selectAIPersonality (m : Manager) (difficulty : option Difficulty)
  (w : World) : option Personality * World :=
  let config := getDifficultyConfig m difficulty in
  let weights := aiPersonalityWeights config in
  let '(r, w1) := mathRandom w in
  let random := (r * totalWeight weights)%Q in
  match pickWeighted weights random with
  | Some personality => (Some personality, w1)
  | None => (option_map fst (hd_error weights), w1)
  end.

Definition zeroStats : BattleStats :=
  StatsFull (mkWinLoss 0 0) (mkWinLoss 0 0) (mkWinLoss 0 0).

(** [getBattleStats]. *)
Definition getBattleStats (m : Manager) : BattleStats :=
  match battleStats m with
  | Some bs => bs
  | None => zeroStats
  end.

Record MediumProgress := mkMediumProgress {
  mediumCurrent : Z;
  mediumRequired : Z;
  mediumPercentage : Q
}.

Record HardProgress := mkHardProgress {
  currentTotal : Z;
  requiredTotal : Z;
  currentMedium : Z;
  requiredMedium : Z;
  hardPercentage : Q
}.

(** The object returned by [getUnlockProgress]: an entry for each
    difficulty that is still locked. *)
Record UnlockProgress := mkUnlockProgress {
  progressMedium : option MediumProgress;
  progressHard : option HardProgress
}.

(** [getUnlockProgress]; it reads [this.battleStats.medium], which throws
    while [battleStats] is undefined. *)
Definition getUnlockProgress (m : Manager) : Result Manager UnlockProgress :=
  let totalWins := getTotalWins m in
  match battleStats m with
  | None => Throw "TypeError" m
  | Some bs =>
      let mediumWins :=
        match bs with
        | StatsEmpty => 0
        | StatsFull _ md _ => wins md
        end in
      let forMedium :=
        if negb (isDifficultyUnlocked m medium) then
          Some (mkMediumProgress totalWins mediumReq_battlesWon
                  (Qmin 100 ((inject_Z totalWins / inject_Z mediumReq_battlesWon) * 100)%Q))
        else None in
      let forHard :=
        if negb (isDifficultyUnlocked m hard) then
          let totalProgress := (inject_Z totalWins / inject_Z hardReq_battlesWon)%Q in
          let mediumProgress := (inject_Z mediumWins / inject_Z hardReq_mediumWins)%Q in
          let overallProgress := Qmin totalProgress mediumProgress in
          Some (mkHardProgress totalWins hardReq_battlesWon mediumWins hardReq_mediumWins
                  (Qmin 100 (overallProgress * 100)%Q))
        else None in
      Ok (mkUnlockProgress forMedium forHard) m
  end.

Definition resetProgress (m : Manager) : Manager :=
  mkManager easy [easy] (Some zeroStats) (events m ++ [ProgressUpdated]).

(** The record that [saveProgress] writes to local storage. *)
Record ProgressData := mkProgressData {
  savedDifficulty : Difficulty;
  savedUnlocked : list Difficulty;
  savedStats : BattleStats
}.

Definition saveProgress (m : Manager) : ProgressData :=
  mkProgressData (currentDifficulty m) (unlockedDifficulties m)
    (match battleStats m with
     | Some bs => bs
     | None => StatsEmpty
     end).

(** [loadProgress] on what local storage holds: nothing, or a record that
    [saveProgress] wrote. *)
Definition loadProgress (saved : option ProgressData) (m : Manager) : Manager :=
  match saved with
  | None => m
  | Some progressData =>
      let unlocked := savedUnlocked progressData in
      mkManager (savedDifficulty progressData)
        (if existsb (difficultyEqb easy) unlocked then unlocked else unlocked ++ [easy])
        (Some (savedStats progressData))
        (events m)
  end.

(** The constructor: the defaults, then [loadProgress]. *)
Definition create (saved : option ProgressData) : Manager :=
  loadProgress saved initial.

End Progression.

(** ** AIOpponent: construction *)

Module AISetup.

Import AIOpponent.

(** [generatePersonality]; [None] is the [undefined] element an
    out-of-range index would read. *)
Definition generatePersonality (w : World) : option Personality * World :=
  let '(r, w1) := mathRandom w in
  (Js.index personalities
     (Js.floor (r * inject_Z (Z.of_nat (List.length personalities)))%Q), w1).

Definition emptyMemory : Memory := mkMemory [] [] 0 0 0.

(** [new AIOpponent(difficulty)]; [None] when the personality is
    undefined. *)
Definition create (d : string) (w : World) : option AI * World :=
  let '(p, w1) := generatePersonality w in
  (option_map (fun p' => mkAI d p' emptyMemory) p, w1).

End AISetup.

(** ** BattleEngine: starting and leaving a battle *)

Module BattleSetup.

Import BattleEngine.

Definition SPEED_ADVANTAGE_THRESHOLD : Q := 12 # 10.

(** [determineTurnOrder]; the bias is only computed when neither speed
    reaches 1.2 times the other, and then the speeds do not add up to 0. *)
Definition determineTurnOrder (playerCreature opponentCreature : Creature) (w : World)
  : Side * World :=
  let playerSpeed := speed (stats playerCreature) in
  let opponentSpeed := speed (stats opponentCreature) in
  if Qle_bool (inject_Z opponentSpeed * SPEED_ADVANTAGE_THRESHOLD) (inject_Z playerSpeed)
  then (player, w)
  else if Qle_bool (inject_Z playerSpeed * SPEED_ADVANTAGE_THRESHOLD)
                   (inject_Z opponentSpeed)
  then (opponent, w)
  else
    let speedDifference := playerSpeed - opponentSpeed in
    let bias := (inject_Z speedDifference / inject_Z (playerSpeed + opponentSpeed))%Q in
    let '(r, w1) := mathRandom w in
    let randomValue := (r - (5 # 10))%Q in
    (if Js.Qgtb (randomValue + bias) 0 then player else opponent, w1).

Definition freshTracking : ActionTracking := mkTracking None 0 0 0.

(** [this.difficultyManager.selectAIPersonality(battleDifficulty)] for a
    text: the weights are those of the configuration found under the name
    (of easy when nothing is found); under an inherited name the
    configuration is a built-in object, its weights are undefined and
    [Object.values] throws a TypeError ([None]). *)
Definition selectAIPersonalityOfName (dm : DifficultyManager.Manager)
  (battleDifficulty : string) (w : World)
  : option (option DifficultyManager.Personality * World) :=
  match DifficultyName.lookup battleDifficulty with
  | DifficultyName.Own d => Some (Progression.selectAIPersonality dm (Some d) w)
  | DifficultyName.Inherited => None
  | DifficultyName.Missing => Some (Progression.selectAIPersonality dm (Some easy) w)
  end.

(** What follows the selection of the personality in [initiateBattle]. *)
Definition startBattle (playerCreature opponentCreature : Creature)
  (difficulty : option string) (battleDifficulty : string)
  (aiPersonality : option DifficultyManager.Personality) (s : State) (w1 : World)
  : Result State Battle :=
  let e := fst s in
    let '(ai0, w2) := AISetup.create battleDifficulty w1 in
    let '(ai, w3) :=
      match difficultyManager e with
      | Some _ =>
          let '(p, w') := AISetup.generatePersonality w2 in
          (match ai0, aiPersonality, p with
           | Some ai0', Some nm, Some p' =>
               Some (AIOpponent.mkAI (AIOpponent.difficulty ai0')
                       (AIOpponent.mkPersonality nm (AIOpponent.traits p'))
                       (AIOpponent.memory ai0'))
           | _, _, _ => None
           end, w')
      | None => (ai0, w2)
      end in
    match ai with
    | None => Throw "TypeError" s
    | Some ai' =>
        let '(bid, w4) := GameUtils.generateId w3 in
        let '(turn, w5) := determineTurnOrder playerCreature opponentCreature w4 in
        let '(start, w6) := dateNow w5 in
        let b :=
          mkBattle bid playerCreature opponentCreature difficulty turn 0 [] active
            start freshTracking freshTracking None None None None None in
        let '(stampStart, w7) := dateNow w6 in
        let b1 :=
          addBattleLogEntry b
            (BattleStartEntry (name playerCreature) (name opponentCreature) stampStart) in
        Ok b1 (mkEngine (Some b1) (battleHistory e) (Some ai') (difficultyManager e), w7)
    end.

(** [difficulty || this.difficultyManager.getCurrentDifficulty()] with a
    DifficultyManager, [difficulty || 'medium'] without. *)
Definition battleDifficultyOf (difficulty : option string) (e : Engine) : string :=
  DifficultyName.orElse difficulty
    (match difficultyManager e with
     | Some dm => DifficultyName.ofTier (DifficultyManager.getCurrentDifficulty dm)
     | None => "medium"
     end).

(** [initiateBattle(playerCreature, opponentCreature, difficulty)].  The
    [aiInfo] field of the battle is a copy of data of the AIOpponent for the
    display and is not represented.  A TypeError is thrown for an inherited
    name when the engine has a DifficultyManager; the TypeError branch of
    [startBattle] stands for an undefined personality, which the tables
    never produce (see [generatePersonality_some] and
    [selectAIPersonality_some]). *)
Definition initiateBattle (playerCreature opponentCreature : Creature)
  (difficulty : option string) (s : State) : Result State Battle :=
  let '(e, w) := s in
  if negb (DataValidation.isValidCreature playerCreature)
  then Throw "Invalid player creature" s
  else if negb (DataValidation.isValidCreature opponentCreature)
  then Throw "Invalid opponent creature" s
  else
    let battleDifficulty := battleDifficultyOf difficulty e in
    match difficultyManager e with
    | Some dm =>
        match selectAIPersonalityOfName dm battleDifficulty w with
        | None => Throw "TypeError" s
        | Some (aiPersonality, w1) =>
            startBattle playerCreature opponentCreature difficulty battleDifficulty
              aiPersonality s w1
        end
    | None =>
        startBattle playerCreature opponentCreature difficulty battleDifficulty
          (Some DifficultyManager.Tactical) s w
    end.

(** [resetBattle]. *)
Definition resetBattle (e : Engine) : Engine :=
  mkEngine None (battleHistory e) None (difficultyManager e).

(** The object returned by [getBattleStats]. *)
Record HistoryStats := mkHistoryStats {
  totalBattles : Z;
  historyWins : Z;
  historyLosses : Z;
  winRate : Q;
  averageDuration : Q;
  totalExperience : Z
}.

Definition countStatus (st : Status) (battles : list Battle) : Z :=
  Z.of_nat (List.length (filter (fun b => statusEqb (status b) st) battles)).

Definition getBattleStats (e : Engine) : HistoryStats :=
  let battles := battleHistory e in
  let total := Z.of_nat (List.length battles) in
  if total =? 0 then mkHistoryStats 0 0 0 0 0 0
  else
    let totalDuration :=
      fold_left (fun sum b => sum + match duration b with Some d => d | None => 0 end)
                battles 0 in
    let experienceSum :=
      fold_left (fun sum b =>
                   sum + match experienceReward b with
                         | Some (Points x) => x
                         | _ => 0
                         end)
                battles 0 in
    mkHistoryStats total (countStatus won battles) (countStatus lost battles)
      (inject_Z (countStatus won battles) / inject_Z total)%Q
      (inject_Z totalDuration / inject_Z total)%Q
      experienceSum.

End BattleSetup.

(** ** Vocabulary of the properties of the collection *)

Module CollectionSpec.

Import CreatureManager.

(** No two entries of the Map under the same id. *)
Definition UniqueIds (cs : list (CreatureId * Creature)) : Prop :=
  NoDup (List.map fst cs).





(** A call of one of the methods that change the collection. *)
Inductive Call :=
| CallAdd (creature : Creature)
| CallRemove (creatureId : CreatureId)
| CallClear
| CallAward (creatureId : CreatureId) (experienceGained : Z)
| CallLevelUp (creatureId : CreatureId) (levels : Z)
| CallBattle (creatureId : CreatureId) (won : bool) (experienceGained : Z).

(** The manager after the call; the returned value is dropped. *)
Definition afterCall (c : Call) (m : Manager) : Outcome Manager :=
  let dropResult {A : Type} (o : Outcome (A * Manager)) : Outcome Manager :=
    match o with
    | OutOfFuel => OutOfFuel
    | NotFinite => NotFinite
    | Returned (_, m') => Returned m'
    end in
  match c with
  | CallAdd creature => Returned (snd (Collection.addCreature creature m))
  | CallRemove creatureId => Returned (snd (Collection.removeCreature creatureId m))
  | CallClear => Returned (snd (Collection.clearCollection m))
  | CallAward creatureId xp => dropResult (awardExperience creatureId xp m)
  | CallLevelUp creatureId levels =>
      dropResult (Collection.levelUpCreature creatureId levels m)
  | CallBattle creatureId won xp =>
      dropResult (Collection.updateBattleStats creatureId won xp m)
  end.

(** A sequence of calls, one after the other. *)
Fixpoint afterCalls (cs : list Call) (m : Manager) : Outcome Manager :=
  match cs with
  | [] => Returned m
  | c :: rest =>
      match afterCall c m with
      | OutOfFuel => OutOfFuel
      | NotFinite => NotFinite
      | Returned m' => afterCalls rest m'
      end
  end.




End CollectionSpec.

(** ** Vocabulary of the properties of the two leveling implementations *)

Module LevelingSpec.

(** A creature as generation and leveling leave it: at full health, with
    the four stats of its barcode's base stats at its level. *)
Definition AtLevel (base : CreatureStats) (c : Creature) : Prop :=
  BarcodeProcessor.calculateStats (barcode c) = Some base
  /\ hp (stats c) = maxHp (stats c)
  /\ maxHp (stats c) = GameUtils.calculateStatAtLevel (maxHp base) (level c)
  /\ attack (stats c) = GameUtils.calculateStatAtLevel (attack base) (level c)
  /\ defense (stats c) = GameUtils.calculateStatAtLevel (defense base) (level c)
  /\ speed (stats c) = GameUtils.calculateStatAtLevel (speed base) (level c).

End LevelingSpec.

(** ** Vocabulary of the properties of the difficulty progression *)

Module ProgressionSpec.

Import DifficultyManager.

(** The current difficulty is unlocked, easy is unlocked, and no difficulty
    is listed twice. *)
Definition Consistent (current : Difficulty) (unlocked : list Difficulty) : Prop :=
  existsb (difficultyEqb current) unlocked = true
  /\ existsb (difficultyEqb easy) unlocked = true
  /\ NoDup unlocked.

(** A manager together with what local storage holds of its progress. *)
Record Session := mkSession {
  manager : Manager;
  storage : option Progression.ProgressData
}.

(** The first start of the game: nothing stored. *)
Definition firstStart : Session := mkSession (Progression.create None) None.

(** A call of a method of the manager, or a restart of the game (a new
    manager is constructed from local storage). *)
Inductive Call :=
| CallSet (difficulty : string)
| CallRecord (r : option BattleResult)
| CallUnlock (d : Difficulty)
| CallReset
| CallRestart.

(** Whether [recordBattleResult] gets as far as [saveProgress]. *)
Definition isResult (r : option BattleResult) : bool :=
  match r with
  | Some res =>
      match won res with
      | Some _ => true
      | None => false
      end
  | None => false
  end.

Definition saved (m : Manager) : Session :=
  mkSession m (Some (Progression.saveProgress m)).

Definition afterCall (c : Call) (s : Session) : Result Session unit :=
  match c with
  | CallSet difficulty =>
      let '(changed, m') := Progression.setDifficulty difficulty (manager s) in
      Ok tt (if changed then saved m' else s)
  | CallRecord r =>
      match recordBattleResult r (manager s) with
      | Ok _ m' => Ok tt (if isResult r then saved m' else mkSession m' (storage s))
      | Throw msg m' => Throw msg (mkSession m' (storage s))
      end
  | CallUnlock d => Ok tt (mkSession (unlockDifficulty (manager s) d) (storage s))
  | CallReset => Ok tt (saved (Progression.resetProgress (manager s)))
  | CallRestart => Ok tt (mkSession (Progression.create (storage s)) (storage s))
  end.

(** A sequence of calls; it ends at the first error that is thrown. *)
Fixpoint afterCalls (cs : list Call) (s : Session) : Result Session unit :=
  match cs with
  | [] => Ok tt s
  | c :: rest =>
      match afterCall c s with
      | Ok _ s' => afterCalls rest s'
      | Throw msg s' => Throw msg s'
      end
  end.

(** The session that a run ends in. *)
Definition finalSession (r : Result Session unit) : Session :=
  match r with
  | Ok _ s => s
  | Throw _ s => s
  end.

End ProgressionSpec.

(** ** Vocabulary of the properties of battles *)

Module BattleSpec.

Import BattleEngine.

(** Hit points between 0 and the maximum. *)
Definition HpInRange (c : Creature) : Prop :=
  0 <= hp (stats c) <= maxHp (stats c).

Definition CountersNotNegative (t : ActionTracking) : Prop :=
  0 <= consecutiveDefends t /\ 0 <= specialAttacksUsed t.

(** The status of a battle and its creatures: an active battle has no
    winner; a won battle has the player as winner, an opponent without hit
    points and a player with some; a lost battle has the opponent as winner
    and a player without hit points. *)
Definition StatusAgrees (b : Battle) : Prop :=
  match status b with
  | active => winner b = None
  | won =>
      winner b = Some player
      /\ hp (stats (opponentCreature b)) = 0
      /\ 0 < hp (stats (playerCreature b))
  | lost =>
      winner b = Some opponent /\ hp (stats (playerCreature b)) = 0
  end.

Definition BattleInv (b : Battle) : Prop :=
  HpInRange (playerCreature b)
  /\ HpInRange (opponentCreature b)
  /\ 0 <= turnCount b
  /\ CountersNotNegative (playerActions b)
  /\ CountersNotNegative (opponentActions b)
  /\ StatusAgrees b
  /\ battleLog b <> [].

(** The current battle, if any, is in order, and the history holds only
    battles that have ended. *)
Definition EngineInv (e : Engine) : Prop :=
  (forall b, currentBattle e = Some b -> BattleInv b)
  /\ Forall (fun b => status b <> active /\ BattleInv b) (battleHistory e).

(** A call of a method of the engine by its user. *)
Inductive Call :=
| CallStart (playerCreature opponentCreature : Creature) (difficulty : option string)
| CallPlayer (actionType : string)
| CallAI
| CallReset.

(** The state that a call leaves behind, whether it returns or throws. *)
Definition stateAfter {A : Type} (r : Result State A) : State :=
  match r with
  | Ok _ s => s
  | Throw _ s => s
  end.

Definition afterCall (c : Call) (s : State) : State :=
  match c with
  | CallStart p o d => stateAfter (BattleSetup.initiateBattle p o d s)
  | CallPlayer actionType => stateAfter (executePlayerAction actionType s)
  | CallAI => stateAfter (executeAIAction s)
  | CallReset => (BattleSetup.resetBattle (fst s), snd s)
  end.

(** A sequence of calls; the caller catches what is thrown and goes on. *)
Definition afterCalls (cs : list Call) (s : State) : State :=
  fold_left (fun s' c => afterCall c s') cs s.

(** The engine as its constructor leaves it. *)
Definition fresh (dm : option DifficultyManager.Manager) : Engine :=
  mkEngine None [] None dm.

End BattleSpec.

(** ** Vocabulary of the properties of the pattern analysis *)

Module PatternSpec.

(** How often the action [k] occurs in [actions]. *)
Definition occurrences (k : Action.t) (actions : list Action.t) : Z :=
  Z.of_nat (List.length (filter (fun a => Action.eqb a k) actions)).

(** [counts[k] || 0]: the number stored under the key [k]. *)
Definition countOf (counts : list (Action.t * Z)) (k : Action.t) : Z :=
  match find (fun e => Action.eqb (fst e) k) counts with
  | Some e => snd e
  | None => 0
  end.

End PatternSpec.

(** ** Further sample inputs *)

Module MoreSamples.

(** A second creature, from the barcode "99998888". *)
Definition tuka : Creature :=
  mkCreature (mkId 1700000000010 (1 # 8)) "Tuka" "99998888"
    (mkStats 111 111 66 57 50) 1 0 100 1700000000011 0 0 false None.


(** A collection with both creatures. *)
Definition pair : CreatureManager.Manager :=
  CreatureManager.mkManager [(id Samples.ivarno, Samples.ivarno); (id tuka, tuka)] [].

End MoreSamples.

(** * Properties *)

(** ** Arithmetic of [Math.floor] and of the random values *)

Lemma floor_bounds (q : Q) (n : Z) :
  (0 <= q)%Q -> (q < inject_Z n)%Q -> 0 <= Js.floor q < n.
Proof.
  intros H0 Hn. unfold Js.floor. split.
  - change 0 with (Qfloor (inject_Z 0)). apply Qfloor_resp_le. exact H0.
  - destruct (Z_lt_le_dec (Qfloor q) n) as [Hlt | Hge]; [exact Hlt | exfalso].
    assert (Hq : (inject_Z n <= q)%Q).
    { apply Qle_trans with (inject_Z (Qfloor q)).
      - rewrite <- Zle_Qle. exact Hge.
      - apply Qfloor_le. }
    apply (Qlt_not_le _ _ Hn Hq).
Qed.

Lemma unit01_range (u : Unit01) : (0 <= unit01ToQ u)%Q /\ (unit01ToQ u < 1)%Q.
Proof.
  unfold unit01ToQ, Qle, Qlt. destruct u as [[|p] g]; simpl; split; lia.
Qed.

Lemma mathRandom_range (w : World) :
  (0 <= fst (mathRandom w))%Q /\ (fst (mathRandom w) < 1)%Q.
Proof. unfold mathRandom. simpl. apply unit01_range. Qed.

(** ** Arithmetic of doubles *)

Section DoubleArithmetic.

Lemma roundHalfEven_le (x : Q) (k : Z) :
  (x <= inject_Z k)%Q -> Js.roundHalfEven x <= k.
Proof.
  intros Hx. unfold Js.roundHalfEven.
  pose proof (Qfloor_le x) as Hf.
  assert (Hfk : Qfloor x <= k).
  { rewrite Zle_Qle. apply (Qle_trans _ x); assumption. }
  assert (Hup : (inject_Z (Qfloor x) < x)%Q -> Qfloor x + 1 <= k).
  { intros Hlt. assert (Qfloor x < k); [|lia].
    rewrite Zlt_Qlt. apply (Qlt_le_trans _ x); assumption. }
  destruct (x - inject_Z (Qfloor x) ?= 1 # 2)%Q eqn:Hc.
  - destruct (Z.even (Qfloor x)); [exact Hfk|].
    apply Hup. apply Qeq_alt in Hc.
    apply (Qplus_lt_l _ _ (- inject_Z (Qfloor x))).
    rewrite Qplus_opp_r. unfold Qminus in Hc. rewrite Hc. reflexivity.
  - exact Hfk.
  - apply Hup. apply Qgt_alt in Hc.
    apply (Qplus_lt_l _ _ (- inject_Z (Qfloor x))).
    rewrite Qplus_opp_r. unfold Qminus in Hc.
    apply (Qlt_trans _ (1 # 2)); [reflexivity | exact Hc].
Qed.

Lemma roundHalfEven_ge (x : Q) (k : Z) :
  (inject_Z k <= x)%Q -> k <= Js.roundHalfEven x.
Proof.
  intros Hx. unfold Js.roundHalfEven.
  assert (Hfk : k <= Qfloor x).
  { rewrite <- (Qfloor_Z k). apply Qfloor_resp_le. exact Hx. }
  destruct (x - inject_Z (Qfloor x) ?= 1 # 2)%Q;
    [destruct (Z.even (Qfloor x))| |]; lia.
Qed.

Lemma ulp_scale (q : Q) : 1 <= 2 ^ (- Js.ulp q).
Proof.
  unfold Js.ulp.
  assert (H : 0 <= - Z.min 0 (Z.max (Js.ilog2 q - 52) (-1074))) by lia.
  pose proof (Z.pow_pos_nonneg 2 _ ltac:(lia) H). lia.
Qed.

Lemma nearest_le (q : Q) (k : Z) :
  (q <= inject_Z k)%Q -> (Js.nearest q <= inject_Z k)%Q.
Proof.
  intros Hq. unfold Js.nearest.
  pose proof (ulp_scale q) as Hs. set (s := 2 ^ (- Js.ulp q)) in *.
  assert (Hr : Js.roundHalfEven (q * inject_Z s) <= k * s).
  { apply roundHalfEven_le. rewrite inject_Z_mult.
    apply Qmult_le_compat_r; [exact Hq|].
    change 0%Q with (inject_Z 0). rewrite <- Zle_Qle. lia. }
  set (a := Js.roundHalfEven _) in *.
  unfold Qle, inject_Z. cbn [Qnum Qden]. rewrite Z2Pos.id by lia. lia.
Qed.

Lemma nearest_ge (q : Q) (k : Z) :
  (inject_Z k <= q)%Q -> (inject_Z k <= Js.nearest q)%Q.
Proof.
  intros Hq. unfold Js.nearest.
  pose proof (ulp_scale q) as Hs. set (s := 2 ^ (- Js.ulp q)) in *.
  assert (Hr : k * s <= Js.roundHalfEven (q * inject_Z s)).
  { apply roundHalfEven_ge. rewrite inject_Z_mult.
    apply Qmult_le_compat_r; [exact Hq|].
    change 0%Q with (inject_Z 0). rewrite <- Zle_Qle. lia. }
  set (a := Js.roundHalfEven _) in *.
  unfold Qle, inject_Z. cbn [Qnum Qden]. rewrite Z2Pos.id by lia. lia.
Qed.

(** Rounding to a double never crosses a whole number. *)
Lemma double_le (q : Q) (k : Z) :
  (q <= inject_Z k)%Q -> (Js.double q <= inject_Z k)%Q.
Proof.
  intros Hq. unfold Js.double.
  assert (Hr : (Qred q <= inject_Z k)%Q) by (rewrite Qred_correct; exact Hq).
  destruct (Qnum (Qred q)) eqn:Hn.
  - apply (Qle_trans _ (Qred q)); [|exact Hr].
    unfold Qle. cbn [Qnum Qden]. rewrite Hn. lia.
  - apply nearest_le. exact Hr.
  - apply Qopp_le_compat in Hr. rewrite <- inject_Z_opp in Hr.
    apply nearest_ge in Hr. apply Qopp_le_compat in Hr.
    rewrite <- inject_Z_opp, Z.opp_involutive in Hr. exact Hr.
Qed.

Lemma double_ge (q : Q) (k : Z) :
  (inject_Z k <= q)%Q -> (inject_Z k <= Js.double q)%Q.
Proof.
  intros Hq. unfold Js.double.
  assert (Hr : (inject_Z k <= Qred q)%Q) by (rewrite Qred_correct; exact Hq).
  destruct (Qnum (Qred q)) eqn:Hn.
  - apply (Qle_trans _ (Qred q)); [exact Hr|].
    unfold Qle. cbn [Qnum Qden]. rewrite Hn. lia.
  - apply nearest_ge. exact Hr.
  - apply Qopp_le_compat in Hr. rewrite <- inject_Z_opp in Hr.
    apply nearest_le in Hr. apply Qopp_le_compat in Hr.
    rewrite <- inject_Z_opp, Z.opp_involutive in Hr. exact Hr.
Qed.

(** Whole numbers are kept as they are. *)
Lemma double_integer (q : Q) (k : Z) :
  (q == inject_Z k)%Q -> (Js.double q == inject_Z k)%Q.
Proof.
  intros Hq. apply Qle_antisym.
  - apply double_le. rewrite Hq. apply Qle_refl.
  - apply double_ge. rewrite Hq. apply Qle_refl.
Qed.

(** The hit points that a level-up leaves to a creature with [h] of [m]
    hit points when the new maximum is [M]: not more than [M]. *)
Lemma keptHp_range (M h m : Z) :
  0 <= h <= m -> 0 < m -> 0 <= M ->
  0 <= Js.floor (Js.mul (inject_Z M) (Js.div (inject_Z h) (inject_Z m))) <= M.
Proof.
  intros Hh Hm HM.
  set (r := Js.div (inject_Z h) (inject_Z m)).
  assert (Hr : (inject_Z 0 <= r)%Q /\ (r <= inject_Z 1)%Q).
  { unfold r, Js.div. split.
    - apply double_ge. apply Qle_shift_div_l.
      + change 0%Q with (inject_Z 0). rewrite <- Zlt_Qlt. exact Hm.
      + rewrite Qmult_0_l. change 0%Q with (inject_Z 0). rewrite <- Zle_Qle. lia.
    - apply double_le. apply Qle_shift_div_r.
      + change 0%Q with (inject_Z 0). rewrite <- Zlt_Qlt. exact Hm.
      + rewrite Qmult_1_l. rewrite <- Zle_Qle. lia. }
  destruct Hr as [Hr0 Hr1].
  assert (HMq : (0 <= inject_Z M)%Q)
    by (change 0%Q with (inject_Z 0); rewrite <- Zle_Qle; exact HM).
  unfold Js.floor, Js.mul. split.
  - rewrite <- (Qfloor_Z 0). apply Qfloor_resp_le. apply double_ge.
    apply Qmult_le_0_compat; assumption.
  - rewrite <- (Qfloor_Z M) at 2. apply Qfloor_resp_le. apply double_le.
    rewrite <- (Qmult_1_r (inject_Z M)) at 2.
    rewrite (Qmult_comm (inject_Z M) r), (Qmult_comm (inject_Z M) 1).
    apply Qmult_le_compat_r; assumption.
Qed.

(** A creature at full health stays at full health. *)
Lemma keptHp_full (M m : Z) :
  m <> 0 ->
  Js.floor (Js.mul (inject_Z M) (Js.div (inject_Z m) (inject_Z m))) = M.
Proof.
  intros Hm. unfold Js.floor, Js.mul.
  rewrite <- (Qfloor_Z M) at 2. apply Qfloor_comp.
  apply double_integer.
  assert (Hr : (Js.div (inject_Z m) (inject_Z m) == inject_Z 1)%Q).
  { unfold Js.div. apply double_integer. apply Qmult_inv_r.
    intros H0. apply Hm. unfold Qeq in H0. cbn in H0. lia. }
  rewrite Hr. apply Qmult_1_r.
Qed.

End DoubleArithmetic.

(** ** The seeded generator *)

Section SeededRandom.

Import BarcodeProcessor.

(** 16807 is invertible modulo 2^31 - 1. *)
Lemma lcg_step_nonzero (c : Z) :
  1 <= c <= 2147483646 -> (c * 16807) mod 2147483647 <> 0.
Proof.
  intros Hc H0.
  assert (Hdiv : c * 16807 = 2147483647 * ((c * 16807) / 2147483647)).
  { apply Z.div_exact; [lia | exact H0]. }
  remember ((c * 16807) / 2147483647) as k.
  assert (Hinv : 16807 * 1407677000 = 1 + 2147483647 * 11017) by reflexivity.
  lia.
Qed.

Lemma next_in_range (g : SeededRandom) :
  1 <= current g <= 2147483646 ->
  1 <= current (snd (next g)) <= 2147483646.
Proof.
  intros Hc. unfold next. cbn [snd current].
  rewrite Z.rem_mod_nonneg by lia.
  pose proof (Z.mod_pos_bound (current g * 16807) 2147483647 ltac:(lia)) as Hb.
  pose proof (lcg_step_nonzero (current g) Hc). lia.
Qed.

Lemma next_value_range (g : SeededRandom) :
  1 <= current g <= 2147483646 ->
  (0 <= fst (next g))%Q /\ (fst (next g) < 1)%Q.
Proof.
  intros Hc. pose proof (next_in_range g Hc) as Hn.
  unfold next in *. cbn [fst snd current] in *.
  unfold Qle, Qlt. cbn [Qnum Qden]. split; lia.
Qed.

Lemma createSeededRandom_nonneg (seed : Z) :
  0 <= seed -> 1 <= current (createSeededRandom seed) <= 2147483646.
Proof.
  intros Hs. unfold createSeededRandom.
  pose proof (Z.rem_bound_pos seed 2147483647 Hs ltac:(lia)) as Hb.
  destruct (Z.leb_spec (Z.rem seed 2147483647) 0); cbn [current]; lia.
Qed.

Lemma calls_in_range (n : nat) (g : SeededRandom) :
  1 <= current g <= 2147483646 ->
  1 <= current (Spec.calls n g) <= 2147483646.
Proof.
  intros Hc. induction n as [|n IH]; cbn [Spec.calls]; [exact Hc|].
  apply next_in_range. exact IH.
Qed.

End SeededRandom.

(** C2, evaluated at the failing input: for the seed -2147483646 the
    remainder is -2147483646, adding 2147483646 leaves the generator at 0,
    outside [1, 2147483646]; [current] then stays 0 and every call returns
    -1/2147483646, outside [0, 1). *)
Theorem createSeededRandom_degenerate_seed :
  Z.rem (-2147483646) 2147483647 = -2147483646
  /\ BarcodeProcessor.current (BarcodeProcessor.createSeededRandom (-2147483646)) = 0
  /\ BarcodeProcessor.next (BarcodeProcessor.createSeededRandom (-2147483646))
     = (Qmake (-1) 2147483646, BarcodeProcessor.mkGen 0)
  /\ (Spec.nthValue 0 (BarcodeProcessor.createSeededRandom (-2147483646)) < 0)%Q.
Proof. repeat split. Qed.

(** Hence the contract does not hold for every integer seed. *)
Lemma createSeededRandom_contract_fails :
  ~ Spec.SeededRandomContract (-2147483646).
Proof.
  unfold Spec.SeededRandomContract. intros [_ [Hrange _]].
  vm_compute in Hrange. destruct Hrange as [H _]. apply H. reflexivity.
Qed.

(** It holds for every other seed: if [s % 2147483647] is not -2147483646
    (in particular if [s] is not negative, as every seed that
    [generateSeed] returns), the generator starts from [s % 2147483647],
    moved into [1, 2147483646] by adding 2147483646 when it is not
    positive; each call replaces [current] by
    [(current * 16807) mod 2147483647] and returns
    [(current - 1) / 2147483646]; every returned value lies in [0, 1); and
    two generators made from the same seed return the same sequence. *)
Lemma createSeededRandom_contract (s : Z) :
  Z.rem s 2147483647 <> -2147483646 -> Spec.SeededRandomContract s.
Proof.
  intros Hs. unfold Spec.SeededRandomContract.
  set (g := BarcodeProcessor.createSeededRandom s).
  assert (Hstart : BarcodeProcessor.current g
                   = (if Z.rem s 2147483647 <=? 0 then Z.rem s 2147483647 + 2147483646
                      else Z.rem s 2147483647)).
  { unfold g, BarcodeProcessor.createSeededRandom.
    destruct (Z.rem s 2147483647 <=? 0); reflexivity. }
  assert (Hrange : 1 <= BarcodeProcessor.current g <= 2147483646).
  { rewrite Hstart.
    assert (Hb : - 2147483647 < Z.rem s 2147483647 < 2147483647).
    { pose proof (Z.rem_bound_abs s 2147483647 ltac:(lia)). lia. }
    destruct (Z.leb_spec (Z.rem s 2147483647) 0); lia. }
  split; [exact Hstart|]. split; [exact Hrange|]. split.
  - intros n. cbv zeta.
    pose proof (calls_in_range n g Hrange) as Hn.
    split.
    + unfold BarcodeProcessor.next.
      rewrite Z.rem_mod_nonneg by lia. reflexivity.
    + unfold Spec.nthValue. apply next_value_range. exact Hn.
  - intros g' Hg' n. rewrite Hg'. reflexivity.
Qed.

(** A seed derived from a barcode: 6324 is the seed of "12345678". *)
Example createSeededRandom_contract_6324 : Spec.SeededRandomContract 6324.
Proof. apply createSeededRandom_contract. vm_compute. discriminate. Qed.

(** ** Barcode validation *)

Lemma isDigit_spec (c : ascii) : Js.isDigit c = true <-> In c Spec.asciiDigits.
Proof.
  destruct c as [[] [] [] [] [] [] [] []]; vm_compute;
    split; intros H; try discriminate H; try reflexivity;
    try (repeat (destruct H as [H | H]; [discriminate H|]); contradiction);
    tauto.
Qed.

Lemma allDigits_spec (s : string) : Js.allDigits s = true <-> Spec.OnlyDigits s.
Proof.
  unfold Spec.OnlyDigits. induction s as [|c s IH]; cbn [Js.allDigits list_ascii_of_string].
  - split; [intros _ c [] | reflexivity].
  - rewrite andb_true_iff, IH, isDigit_spec. split.
    + intros [Hc Hs] d [<- | Hd]; [exact Hc | apply Hs, Hd].
    + intros H. split; [apply H; left; reflexivity | intros d Hd; apply H; right; exact Hd].
Qed.

(** C4: [validateBarcode s] is true exactly when [s] consists only of ASCII
    digits and its length lies between 8 and 20 inclusive. *)
Theorem validateBarcode_iff (s : string) :
  BarcodeProcessor.validateBarcode s = true
  <-> (Spec.OnlyDigits s /\ (8 <= String.length s <= 20)%nat).
Proof.
  unfold BarcodeProcessor.validateBarcode, GameConstants.MIN_BARCODE_LENGTH,
    GameConstants.MAX_BARCODE_LENGTH, Js.strlen.
  rewrite <- allDigits_spec.
  destruct (Z.ltb_spec (Z.of_nat (String.length s)) 8) as [Hlt | Hge].
  { split; [discriminate | intros [_ H]; lia]. }
  destruct (Z.gtb_spec (Z.of_nat (String.length s)) 20) as [Hgt | Hle].
  { split; [discriminate | intros [_ H]; lia]. }
  assert (Htest : Js.testDigitsOnly s = Js.allDigits s).
  { destruct s; [cbn in Hge; lia | reflexivity]. }
  rewrite Htest. destruct (Js.allDigits s); cbn [negb].
  - split; [intros _; split; [reflexivity | lia] | reflexivity].
  - split; [discriminate | intros [H _]; discriminate H].
Qed.

(** The boundary cases named with C4. *)
Example validateBarcode_boundaries :
  BarcodeProcessor.validateBarcode "1234567" = false
  /\ BarcodeProcessor.validateBarcode "123456789012345678901" = false
  /\ BarcodeProcessor.validateBarcode "1234567a" = false
  /\ BarcodeProcessor.validateBarcode "12345678" = true
  /\ BarcodeProcessor.validateBarcode "12345678901234567890" = true.
Proof. repeat split; reflexivity. Qed.

(** ** Stats and names of valid barcodes *)

Section Generation.

Import BarcodeProcessor.

Lemma parseInt_digit (c : ascii) :
  Js.isDigit c = true -> exists d, Js.parseInt c = Some d /\ 0 <= d <= 9.
Proof.
  unfold Js.isDigit, Js.parseInt. intros H. rewrite H.
  apply andb_true_iff in H. destruct H as [H1 H2].
  apply Z.leb_le in H1. apply Z.leb_le in H2.
  eexists. split; [reflexivity | lia].
Qed.

Lemma generateSeedFrom_digits (s : string) :
  Js.allDigits s = true ->
  forall i seed, 0 <= i -> 0 <= seed ->
  exists v, generateSeedFrom s i seed = Some v /\ 0 <= v.
Proof.
  induction s as [|c s IH]; cbn [Js.allDigits generateSeedFrom]; intros Hd i seed Hi Hs.
  - exists seed. split; [reflexivity | exact Hs].
  - apply andb_true_iff in Hd. destruct Hd as [Hc Hrest].
    destruct (parseInt_digit c Hc) as [d [Hp Hd]]. rewrite Hp.
    apply IH; [exact Hrest | lia | nia].
Qed.

Lemma validateBarcode_allDigits (b : string) :
  validateBarcode b = true -> Js.allDigits b = true.
Proof.
  unfold validateBarcode.
  destruct (Js.strlen b <? GameConstants.MIN_BARCODE_LENGTH); [discriminate|].
  destruct (Js.strlen b >? GameConstants.MAX_BARCODE_LENGTH); [discriminate|].
  destruct (Js.testDigitsOnly b) eqn:Ht; [|discriminate].
  intros _. destruct b; [discriminate Ht | exact Ht].
Qed.

Lemma generateSeed_valid (b : string) :
  Js.allDigits b = true -> exists seed, generateSeed b = Some seed /\ 0 <= seed.
Proof.
  intros H. unfold generateSeed. apply generateSeedFrom_digits; [exact H | lia | lia].
Qed.

Lemma get_digit (s : string) :
  Js.allDigits s = true ->
  forall n c, String.get n s = Some c -> Js.isDigit c = true.
Proof.
  induction s as [|d s IH]; cbn [Js.allDigits String.get]; intros Hd n c Hg.
  - discriminate Hg.
  - apply andb_true_iff in Hd. destruct Hd as [Hc Hrest].
    destruct n as [|n].
    + injection Hg as <-. exact Hc.
    + apply (IH Hrest n c Hg).
Qed.

Lemma get_in_range (s : string) (n : nat) :
  (n < String.length s)%nat -> exists c, String.get n s = Some c.
Proof.
  revert n. induction s as [|d s IH]; cbn [String.length String.get]; intros n Hn.
  - lia.
  - destruct n as [|n]; [eexists; reflexivity | apply IH; lia].
Qed.

Lemma sumDigits_digits (b : string) (positions : list nat) :
  Js.allDigits b = true ->
  forall sum, exists v, sumDigits b positions sum = Some v.
Proof.
  intros Hd. induction positions as [|pos more IH]; cbn [sumDigits]; intros sum.
  - eexists; reflexivity.
  - unfold Js.strlen. destruct (Z.ltb_spec (Z.of_nat pos) (Z.of_nat (String.length b))) as [Hlt | Hge].
    + destruct (get_in_range b pos ltac:(lia)) as [c Hc]. rewrite Hc.
      destruct (parseInt_digit c (get_digit b Hd pos c Hc)) as [d [Hp _]].
      rewrite Hp. apply IH.
    + apply IH.
Qed.

Lemma getStatFromDigits_digits (b : string) (p q : nat) (min max : Z) :
  Js.allDigits b = true -> exists v, getStatFromDigits b [p; q] min max = Some v.
Proof.
  intros Hd. unfold getStatFromDigits.
  destruct (sumDigits_digits b [p; q] Hd 0) as [sum Hs]. rewrite Hs.
  cbn [List.length Z.of_nat]. eexists. reflexivity.
Qed.

Lemma clamp_range (v lo hi : Z) :
  lo <= hi -> lo <= GameUtils.clamp v lo hi <= hi.
Proof. unfold GameUtils.clamp. lia. Qed.

(** The stats of any string of digits, whatever its length. *)
Lemma calculateStats_digits (b : string) :
  Js.allDigits b = true ->
  exists st, calculateStats b = Some st
    /\ 80 <= hp st <= 120
    /\ 30 <= attack st <= 70
    /\ 25 <= defense st <= 65
    /\ 20 <= speed st <= 60
    /\ maxHp st = hp st.
Proof.
  intros Hd.
  unfold calculateStats.
  destruct (generateSeed_valid b Hd) as [seed [Hseed _]]. rewrite Hseed.
  destruct (getStatFromDigits_digits b 0 1 GameConstants.BASE_HP_MIN
              GameConstants.BASE_HP_MAX Hd) as [hpBase ->].
  destruct (getStatFromDigits_digits b 2 3 GameConstants.BASE_ATTACK_MIN
              GameConstants.BASE_ATTACK_MAX Hd) as [attackBase ->].
  destruct (getStatFromDigits_digits b 4 5 GameConstants.BASE_DEFENSE_MIN
              GameConstants.BASE_DEFENSE_MAX Hd) as [defenseBase ->].
  destruct (getStatFromDigits_digits b 6 7 GameConstants.BASE_SPEED_MIN
              GameConstants.BASE_SPEED_MAX Hd) as [speedBase ->].
  unfold next. cbv zeta. cbn [fst snd current hp maxHp attack defense speed].
  eexists. split; [reflexivity|].
  cbn [hp maxHp attack defense speed].
  unfold GameConstants.BASE_HP_MIN, GameConstants.BASE_HP_MAX,
    GameConstants.BASE_ATTACK_MIN, GameConstants.BASE_ATTACK_MAX,
    GameConstants.BASE_DEFENSE_MIN, GameConstants.BASE_DEFENSE_MAX,
    GameConstants.BASE_SPEED_MIN, GameConstants.BASE_SPEED_MAX.
  repeat split; try (apply clamp_range; lia).
Qed.

(** C3: for every valid barcode, [calculateStats] returns stats with hp in
    [80, 120], attack in [30, 70], defense in [25, 65], speed in [20, 60]
    and maxHp equal to hp. *)
Theorem calculateStats_ranges (b : string) :
  validateBarcode b = true ->
  exists st, calculateStats b = Some st
    /\ 80 <= hp st <= 120
    /\ 30 <= attack st <= 70
    /\ 25 <= defense st <= 65
    /\ 20 <= speed st <= 60
    /\ maxHp st = hp st.
Proof.
  intros Hv. apply calculateStats_digits. apply validateBarcode_allDigits. exact Hv.
Qed.

Lemma calculateStats_ranges_witness :
  validateBarcode "12345678" = true
  /\ exists st, calculateStats "12345678" = Some st
       /\ 80 <= hp st <= 120 /\ 30 <= attack st <= 70
       /\ 25 <= defense st <= 65 /\ 20 <= speed st <= 60
       /\ maxHp st = hp st.
Proof.
  split; [reflexivity | apply (calculateStats_ranges "12345678"); reflexivity].
Defined.

(** The stats of "12345678", evaluated. *)
Example calculateStats_12345678 :
  calculateStats "12345678" = Some (mkStats 80 80 48 48 53).
Proof. vm_compute. reflexivity. Qed.

End Generation.

Section Determinism.

Import BarcodeProcessor.

Lemma scaled_floor_range (r : Q) (n : Z) :
  (0 <= r)%Q -> (r < 1)%Q -> 0 < n -> 0 <= Js.floor (r * inject_Z n)%Q < n.
Proof.
  intros H0 H1 Hn. apply floor_bounds.
  - apply Qmult_le_0_compat; [exact H0|].
    change 0%Q with (inject_Z 0). rewrite <- Zle_Qle. lia.
  - apply Qlt_le_trans with (1 * inject_Z n)%Q.
    + apply Qmult_lt_compat_r; [|exact H1].
      change 0%Q with (inject_Z 0). rewrite <- Zlt_Qlt. exact Hn.
    + rewrite Qmult_1_l. apply Qle_refl.
Qed.

Lemma index_in_range {A : Type} (l : list A) (i : Z) :
  0 <= i < Z.of_nat (List.length l) -> exists x, Js.index l i = Some x.
Proof.
  intros Hi. unfold Js.index.
  destruct (Z.ltb_spec i 0) as [Hneg | _]; [lia|].
  destruct (nth_error l (Z.to_nat i)) as [x|] eqn:Hnth; [exists x; reflexivity|].
  apply nth_error_None in Hnth. lia.
Qed.

Lemma generateCreatureName_valid (b : string) :
  Js.allDigits b = true -> exists nm, generateCreatureName b = Some nm.
Proof.
  intros Hd. unfold generateCreatureName.
  destruct (generateSeed_valid b Hd) as [seed [-> Hseed]].
  pose proof (createSeededRandom_nonneg seed Hseed) as Hg0.
  destruct (next_value_range _ Hg0) as [Hr0 Hr1].
  destruct (next (createSeededRandom seed)) as [r1 random1].
  cbn [fst] in Hr0, Hr1.
  destruct (index_in_range namePatterns
              (Js.floor (r1 * inject_Z (Z.of_nat (List.length namePatterns)))%Q))
    as [pattern ->].
  { apply scaled_floor_range; [exact Hr0 | exact Hr1 | reflexivity]. }
  destruct (next random1) as [r2 random2].
  destruct (appendSyllables _ _ _ _ _) as [nm random3].
  eexists. reflexivity.
Qed.

Lemma isValidBarcode_of_validateBarcode (b : string) :
  validateBarcode b = true -> DataValidation.isValidBarcode b = true.
Proof.
  unfold validateBarcode, DataValidation.isValidBarcode,
    GameConstants.MIN_BARCODE_LENGTH.
  destruct (Js.strlen b <? 8); [discriminate|].
  destruct (Js.strlen b >? GameConstants.MAX_BARCODE_LENGTH); [discriminate|].
  destruct (Js.testDigitsOnly b); [reflexivity | discriminate].
Qed.

(** What [generateCreature] returns for a valid barcode, in any world. *)
Lemma generateCreature_valid (b : string) :
  validateBarcode b = true ->
  exists st nm,
    calculateStats b = Some st /\ generateCreatureName b = Some nm
    /\ forall w, exists c,
         fst (generateCreature b w) = Some c
         /\ stats c = st /\ name c = nm /\ barcode c = b
         /\ level c = 1 /\ experience c = 0 /\ experienceToNext c = 100.
Proof.
  intros Hv.
  destruct (calculateStats_digits b (validateBarcode_allDigits b Hv))
    as [st [Hst [Hhp [Hat [Hde [Hsp Hmax]]]]]].
  destruct (generateCreatureName_valid b (validateBarcode_allDigits b Hv)) as [nm Hnm].
  exists st, nm. split; [exact Hst|]. split; [exact Hnm|].
  intros w. unfold generateCreature. rewrite Hv, Hst, Hnm. cbn [negb].
  destruct (GameUtils.generateId w) as [cid w1].
  destruct (dateNow w1) as [date w2].
  assert (Hvalid : DataValidation.isValidCreature
            (mkCreature cid nm b st 1 0 (GameUtils.calculateExperienceToNext 1)
                        date 0 0 false None) = true).
  { unfold DataValidation.isValidCreature, DataValidation.isValidCreatureStats.
    cbn [barcode level experience stats].
    rewrite (isValidBarcode_of_validateBarcode b Hv). cbn [negb].
    change (1 <? 1) with false. change (0 <? 0) with false. cbv iota.
    destruct (Z.ltb_spec (hp st) 0); [lia|].
    destruct (Z.ltb_spec (maxHp st) 0); [lia|].
    destruct (Z.ltb_spec (attack st) 0); [lia|].
    destruct (Z.ltb_spec (defense st) 0); [lia|].
    destruct (Z.ltb_spec (speed st) 0); [lia|].
    apply Z.leb_le. lia. }
  rewrite Hvalid. cbn [negb fst].
  eexists. split; [reflexivity|]. cbn. repeat split; reflexivity.
Qed.

(** C1: for every valid barcode, two calls of [generateCreature], whatever
    the state of the clock and of [Math.random] at each call (whatever ran
    in between), both return a creature, with identical stats and an
    identical name. *)
Theorem generateCreature_deterministic (b : string) (w1 w2 : World) :
  validateBarcode b = true ->
  exists c1 c2,
    fst (generateCreature b w1) = Some c1
    /\ fst (generateCreature b w2) = Some c2
    /\ stats c1 = stats c2
    /\ name c1 = name c2.
Proof.
  intros Hv.
  destruct (generateCreature_valid b Hv) as [st [nm [_ [_ Hgen]]]].
  destruct (Hgen w1) as [c1 [H1 [Hs1 [Hn1 _]]]].
  destruct (Hgen w2) as [c2 [H2 [Hs2 [Hn2 _]]]].
  exists c1, c2. repeat split; try assumption; congruence.
Qed.

End Determinism.

Lemma generateCreature_deterministic_witness :
  BarcodeProcessor.validateBarcode "12345678" = true
  /\ exists c1 c2,
       fst (BarcodeProcessor.generateCreature "12345678" Samples.worldA) = Some c1
       /\ fst (BarcodeProcessor.generateCreature "12345678" Samples.worldB) = Some c2
       /\ stats c1 = stats c2 /\ name c1 = name c2.
Proof.
  split; [reflexivity|].
  apply (generateCreature_deterministic "12345678" Samples.worldA Samples.worldB). reflexivity.
Defined.

(** The golden vector of "12345678": the sample creature. *)
Example generateCreature_12345678 :
  fst (BarcodeProcessor.generateCreature "12345678" Samples.worldA)
  = Some Samples.ivarno
  /\ stats Samples.ivarno = mkStats 80 80 48 48 53
  /\ name Samples.ivarno = "Ivarno"%string.
Proof. split; [vm_compute; reflexivity | split; reflexivity]. Qed.

(** ** Leveling *)

Section Leveling.

Import CreatureManager.

Lemma calculateExperienceToNext_formula (l : Z) :
  1 <= l -> GameUtils.calculateExperienceToNext l = (100 * 3 ^ (l - 1)) / 2 ^ (l - 1).
Proof.
  intros Hl. unfold GameUtils.calculateExperienceToNext.
  destruct (Z.leb_spec 0 (l - 1)); [reflexivity | lia].
Qed.

Lemma calculateExperienceToNext_pos (l : Z) :
  1 <= l -> 100 <= GameUtils.calculateExperienceToNext l.
Proof.
  intros Hl. rewrite calculateExperienceToNext_formula by exact Hl.
  assert (H2 : 0 < 2 ^ (l - 1)) by (apply Z.pow_pos_nonneg; lia).
  assert (H3 : 2 ^ (l - 1) <= 3 ^ (l - 1)) by (apply Z.pow_le_mono_l; lia).
  apply Z.div_le_lower_bound; [exact H2 | nia].
Qed.

Lemma isValidCreature_fields (c : Creature) :
  DataValidation.isValidCreature c = true ->
  Js.allDigits (barcode c) = true /\ 1 <= level c /\ 0 <= experience c
  /\ 0 <= hp (stats c) <= maxHp (stats c).
Proof.
  unfold DataValidation.isValidCreature, DataValidation.isValidBarcode,
    DataValidation.isValidCreatureStats.
  destruct (Js.strlen (barcode c) <? 8); [discriminate|].
  destruct (Js.testDigitsOnly (barcode c)) eqn:Ht; [|discriminate]. cbn [negb].
  destruct (Z.ltb_spec (level c) 1); [discriminate|].
  destruct (Z.ltb_spec (experience c) 0); [discriminate|].
  destruct (Z.ltb_spec (hp (stats c)) 0); [discriminate|].
  destruct (Z.ltb_spec (maxHp (stats c)) 0); [discriminate|].
  destruct (attack (stats c) <? 0); [discriminate|].
  destruct (defense (stats c) <? 0); [discriminate|].
  destruct (speed (stats c) <? 0); [discriminate|].
  intros Hle. apply Z.leb_le in Hle.
  repeat split; try lia.
  destruct (barcode c); [discriminate Ht | exact Ht].
Qed.

(** The loop body of the source does what the leveling rule says. *)
Lemma levelUpOnce_rule (base : CreatureStats) (c : Creature) :
  BarcodeProcessor.calculateStats (barcode c) = Some base ->
  0 < maxHp (stats c) -> 0 <= level c ->
  levelUpOnce c = Some (Spec.levelUpRule base c).
Proof.
  intros Hbase Hmax Hlvl.
  unfold levelUpOnce, updateStatsForLevel, setExperienceToNext, setStats, setLevel,
    setExperience.
  cbn [barcode level stats experience experienceToNext id name discoveryDate
       battlesWon battlesLost isOpponent difficultyBonuses].
  rewrite Hbase.
  destruct (Z.eqb_spec (maxHp (stats c)) 0) as [H0 | _]; [lia|].
  cbn [barcode level stats experience experienceToNext id name discoveryDate
       battlesWon battlesLost isOpponent difficultyBonuses].
  rewrite calculateExperienceToNext_formula by lia.
  unfold Spec.levelUpRule, GameUtils.calculateStatAtLevel,
    GameConstants.STAT_GROWTH_PER_LEVEL.
  reflexivity.
Qed.

Lemma levelUpRule_keeps (base : CreatureStats) (c : Creature) :
  barcode (Spec.levelUpRule base c) = barcode c
  /\ level (Spec.levelUpRule base c) = level c + 1
  /\ maxHp (stats (Spec.levelUpRule base c)) = maxHp base + level c * 5
  /\ name (Spec.levelUpRule base c) = name c.
Proof. unfold Spec.levelUpRule. cbn. repeat split; lia. Qed.

End Leveling.

Section LevelUpLoop.

Import CreatureManager.

Variable base : CreatureStats.
Hypothesis base_maxHp : 80 <= maxHp base.

(** What the while loop of [checkLevelUp] returns when it is entered with
    [lg] level-ups already counted and enough fuel: the creature after [k]
    applications of the leveling rule, where [k] stops at the first level
    whose threshold is not reached, or at the safety test. *)
Lemma checkLevelUpLoop_spec :
  forall fuel c lu lg out,
    BarcodeProcessor.calculateStats (barcode c) = Some base ->
    0 < maxHp (stats c) -> 0 <= level c ->
    0 <= lg <= 50 -> 51 - lg <= Z.of_nat fuel ->
    exists k,
      Z.of_nat k <= 51 - lg
      /\ checkLevelUpLoop fuel c lu lg out
         = Returned (Spec.levelUps k base c,
                     mkLevelUpResult (match k with O => lu | S _ => true end)
                                     (lg + Z.of_nat k)
                                     (level (Spec.levelUps k base c)),
                     if lg + Z.of_nat k >? 50
                     then out ++ [WarnExcessiveLevelGain (name c)] else out)
      /\ (experience c < experienceToNext c -> k = O)
      /\ (experienceToNext c <= experience c -> (1 <= k)%nat)
      /\ (lg + Z.of_nat k <= 50 ->
          experience (Spec.levelUps k base c)
          < experienceToNext (Spec.levelUps k base c)).
Proof.
  induction fuel as [|fuel IH]; intros c lu lg out Hbase Hmax Hlvl Hlg Hfuel.
  - lia.
  - cbn [checkLevelUpLoop].
    destruct (Z.geb_spec (experience c) (experienceToNext c)) as [Hge | Hlt].
    + rewrite (levelUpOnce_rule base c Hbase Hmax Hlvl).
      destruct (levelUpRule_keeps base c) as [Hb [Hl [Hm Hn]]].
      destruct (Z.gtb_spec (lg + 1) 50) as [Hcap | Hcont].
      * exists 1%nat. cbn [Spec.levelUps Z.of_nat Pos.of_succ_nat].
        destruct (Z.gtb_spec (lg + 1) 50) as [_ | Hno]; [|lia].
        rewrite Hn. repeat split; try reflexivity; lia.
      * destruct (IH (Spec.levelUpRule base c) true (lg + 1) out) as
            [k [Hk [Hrun [_ [_ Hdone]]]]].
        { rewrite Hb. exact Hbase. }
        { rewrite Hm. lia. }
        { rewrite Hl. lia. }
        { lia. }
        { lia. }
        exists (S k). cbn [Spec.levelUps].
        replace (lg + Z.of_nat (S k)) with (lg + 1 + Z.of_nat k) by lia.
        split; [lia|]. split.
        { rewrite Hrun. rewrite Hn. destruct k; reflexivity. }
        split; [intros; lia|]. split; [intros; lia|]. exact Hdone.
    + exists O. cbn [Spec.levelUps Z.of_nat].
      rewrite Z.add_0_r.
      destruct (Z.gtb_spec lg 50) as [Hno | _]; [lia|].
      repeat split; try reflexivity; try lia.
Qed.

Lemma levelUps_level (k : nat) :
  forall c, level (Spec.levelUps k base c) = level c + Z.of_nat k.
Proof.
  induction k as [|k IH]; intros c; cbn [Spec.levelUps].
  - cbn. lia.
  - rewrite IH. unfold Spec.levelUpRule. cbn [level]. lia.
Qed.


Lemma levelUps_keeps (k : nat) :
  forall c, barcode (Spec.levelUps k base c) = barcode c
            /\ name (Spec.levelUps k base c) = name c
            /\ id (Spec.levelUps k base c) = id c.
Proof.
  induction k as [|k IH]; intros c; cbn [Spec.levelUps].
  - repeat split.
  - destruct (IH (Spec.levelUpRule base c)) as [H1 [H2 H3]].
    rewrite H1, H2, H3. unfold Spec.levelUpRule. cbn. repeat split.
Qed.



End LevelUpLoop.

Section AwardExperience.

Import CreatureManager.

Lemma get_update (cs : list (CreatureId * Creature)) (k : CreatureId)
  (c c2 : Creature) :
  get cs k = Some c -> get (update cs k c2) k = Some c2.
Proof.
  induction cs as [|[k' c'] rest IH]; cbn [get update]; intros Hget.
  - discriminate Hget.
  - destruct (idEqb k' k) eqn:Hk; cbn [get]; rewrite Hk.
    + reflexivity.
    + apply IH. exact Hget.
Qed.

Lemma setExperience_same (c : Creature) (e : Z) :
  e = experience c -> setExperience c e = c.
Proof. intros ->. destruct c. reflexivity. Qed.

(** What [awardExperience] does for a creature of the collection whose
    maximum hit points are positive: never more than 51 level-ups, and a
    result object with [success: true]. *)
Lemma awardExperience_spec (m : Manager) (cid : CreatureId) (c : Creature) (xp : Z) :
  get (creatures m) cid = Some c ->
  DataValidation.isValidCreature c = true ->
  0 < maxHp (stats c) ->
  0 <= xp ->
  exists base k m',
    BarcodeProcessor.calculateStats (barcode c) = Some base
    /\ (k <= 51)%nat
    /\ let c1 := setExperience c (experience c + xp) in
       let c' := Spec.levelUps k base c1 in
       awardExperience cid xp m
       = Returned (AwardSuccess xp (level c) (level c') (level c' - level c)
                     (stats c) (stats c')
                     (calculateStatGains (stats c) (stats c')), m')
       /\ get (creatures m') cid = Some c'
       /\ (experience c + xp < experienceToNext c -> k = O)
       /\ (experienceToNext c <= experience c + xp -> (1 <= k)%nat)
       /\ ((k <= 50)%nat -> experience c' < experienceToNext c')
       /\ (In (WarnExcessiveLevelGain (name c)) (console m') <-> (k = 51)%nat
           \/ In (WarnExcessiveLevelGain (name c)) (console m)).
Proof.
  intros Hget Hvalid Hmax Hxp.
  destruct (isValidCreature_fields c Hvalid) as [Hd [Hlvl [Hexp Hhp]]].
  destruct (calculateStats_digits (barcode c) Hd)
    as [base [Hbase [Hb [_ [_ [_ Hbmax]]]]]].
  assert (Hb80 : 80 <= maxHp base) by lia.
  set (c1 := setExperience c (experience c + xp)).
  destruct (checkLevelUpLoop_spec base Hb80 checkLevelUpFuel c1 false 0 (console m))
    as [k [Hk [Hrun [Hzero [Hone Hdone]]]]].
  { exact Hbase. }
  { exact Hmax. }
  { cbn. lia. }
  { lia. }
  { cbn. lia. }
  exists base, k.
  unfold awardExperience. rewrite Hget.
  destruct (Z.ltb_spec xp 0) as [Hneg | _]; [lia|].
  unfold checkLevelUp. fold c1. rewrite Hrun.
  cbn [leveledUp].
  eexists. split; [exact Hbase|]. split; [lia|]. cbv zeta.
  split; [reflexivity|].
  cbn [creatures console].
  split; [apply (get_update _ _ c); exact Hget|].
  split; [exact Hzero|]. split; [exact Hone|].
  split; [intros Hk50; apply Hdone; lia|].
  cbn [name c1 setExperience] in *.
  replace (0 + Z.of_nat k) with (Z.of_nat k) by lia.
  destruct (Z.gtb_spec (Z.of_nat k) 50) as [Hcap | Hnocap].
  - assert (k = 51%nat) by lia.
    split; [intros _; left; assumption|]. intros _.
    destruct k; rewrite !in_app_iff; cbn [In]; tauto.
  - split.
    + intros Hin. right.
      destruct k; rewrite in_app_iff in Hin; cbn [In] in Hin;
        destruct Hin as [Hin | [Hin | []]]; try exact Hin; discriminate Hin.
    + intros [Hk51 | Hin]; [lia|].
      destruct k; rewrite in_app_iff; left; exact Hin.
Qed.

End AwardExperience.

Section LevelingClaims.

Import CreatureManager.




(** One level-up of the sample creature, evaluated. *)
Example awardExperience_100 :
  exists m',
    awardExperience (id Samples.ivarno) 100 Samples.collection
    = Returned (AwardSuccess 100 1 2 1 (mkStats 80 80 48 48 53)
                  (mkStats 85 85 53 53 58) (mkStatGains 5 5 5 5), m').
Proof. eexists. vm_compute. reflexivity. Qed.

(** The safety test bounds a single call by 51 level-ups, and the call
    still reports success. *)
Lemma awardExperience_at_most_51 (m : Manager) (cid : CreatureId) (c : Creature)
  (xp : Z) :
  get (creatures m) cid = Some c ->
  DataValidation.isValidCreature c = true ->
  0 < maxHp (stats c) ->
  0 <= xp ->
  exists newLevel oldStats newStats gains m',
    awardExperience cid xp m
    = Returned (AwardSuccess xp (level c) newLevel (newLevel - level c)
                  oldStats newStats gains, m')
    /\ 0 <= newLevel - level c <= 51.
Proof.
  intros Hget Hvalid Hmax Hxp.
  destruct (awardExperience_spec m cid c xp Hget Hvalid Hmax Hxp)
    as [base [k [m' [_ [Hk H]]]]].
  cbv zeta in H. destruct H as [Hrun _].
  do 5 eexists. split; [exact Hrun|].
  rewrite levelUps_level. cbn [setExperience level]. lia.
Qed.

(** C6, evaluated at the failing input: one grant of 10^12 experience
    points to the level-1 creature of "12345678" applies 51 level-ups (to
    level 52), logs the warning and returns a success result. *)
Theorem awardExperience_51_level_ups :
  exists oldStats newStats gains m',
    awardExperience (id Samples.ivarno) 1000000000000 Samples.collection
    = Returned (AwardSuccess 1000000000000 1 52 51 oldStats newStats gains, m')
    /\ In (WarnExcessiveLevelGain "Ivarno") (console m').
Proof.
  do 4 eexists. split.
  - vm_compute. reflexivity.
  - cbn. left. reflexivity.
Qed.

(** C9 (as stated, for every creature of the collection) fails: after the
    grant above the creature is at level 52 with 808713550159 experience
    points against a threshold of 95643225032, and awarding 0 points then
    raises it to level 56 and changes its stats. *)
Lemma awardExperience_zero_changes_level :
  exists c r m' c',
    get (creatures Samples.afterGrant) (id Samples.ivarno) = Some c
    /\ awardExperience (id Samples.ivarno) 0 Samples.afterGrant = Returned (r, m')
    /\ get (creatures m') (id Samples.ivarno) = Some c'
    /\ level c = 52 /\ level c' = 56
    /\ stats c = mkStats 335 335 303 303 308
    /\ stats c' = mkStats 355 355 323 323 328.
Proof.
  do 4 eexists. split; [vm_compute; reflexivity|].
  split; [vm_compute; reflexivity|].
  split; [vm_compute; reflexivity|].
  repeat split.
Qed.

(** C9, amended: for every creature of the collection whose experience is
    below its threshold, awarding 0 experience leaves the creature (its
    level and all of its stats) unchanged. *)
Theorem awardExperience_zero_unchanged (m : Manager) (cid : CreatureId) (c : Creature) :
  get (creatures m) cid = Some c ->
  experience c < experienceToNext c ->
  exists m',
    awardExperience cid 0 m
    = Returned (AwardSuccess 0 (level c) (level c) 0 (stats c) (stats c)
                  (mkStatGains 0 0 0 0), m')
    /\ get (creatures m') cid = Some c.
Proof.
  intros Hget Hbelow. unfold awardExperience. rewrite Hget. cbn [Z.ltb Z.compare].
  rewrite (setExperience_same c (experience c + 0)) by lia.
  unfold checkLevelUp, checkLevelUpFuel. cbn [checkLevelUpLoop].
  destruct (Z.geb_spec (experience c) (experienceToNext c)) as [Hge | _]; [lia|].
  cbn [leveledUp]. eexists. split.
  - unfold calculateStatGains. rewrite !Z.sub_diag. reflexivity.
  - cbn [creatures]. apply (get_update _ _ c). exact Hget.
Qed.

Lemma awardExperience_zero_unchanged_witness :
  get (creatures Samples.collection) (id Samples.ivarno) = Some Samples.ivarno
  /\ experience Samples.ivarno < experienceToNext Samples.ivarno
  /\ exists m',
       awardExperience (id Samples.ivarno) 0 Samples.collection
       = Returned (AwardSuccess 0 (level Samples.ivarno) (level Samples.ivarno) 0
                     (stats Samples.ivarno) (stats Samples.ivarno)
                     (mkStatGains 0 0 0 0), m')
       /\ get (creatures m') (id Samples.ivarno) = Some Samples.ivarno.
Proof.
  split; [reflexivity|]. split; [reflexivity|].
  apply (awardExperience_zero_unchanged Samples.collection (id Samples.ivarno)
           Samples.ivarno); reflexivity.
Defined.

End LevelingClaims.

(** ** Difficulty unlocks *)

Section Unlocks.

Import DifficultyManager.

Lemma isDifficultyUnlocked_unlock (m : Manager) (d d' : Difficulty) :
  isDifficultyUnlocked (unlockDifficulty m d) d'
  = isDifficultyUnlocked m d' || difficultyEqb d' d.
Proof.
  unfold unlockDifficulty. destruct (isDifficultyUnlocked m d) eqn:Hd.
  - destruct d, d'; cbn [difficultyEqb]; rewrite ?orb_false_r; try reflexivity;
      rewrite Hd; reflexivity.
  - unfold isDifficultyUnlocked. cbn [unlockedDifficulties].
    rewrite existsb_app. cbn [existsb]. rewrite orb_false_r. reflexivity.
Qed.

Lemma unlockDifficulty_keeps (m : Manager) (d : Difficulty) :
  battleStats (unlockDifficulty m d) = battleStats m
  /\ currentDifficulty (unlockDifficulty m d) = currentDifficulty m.
Proof.
  unfold unlockDifficulty. destruct (isDifficultyUnlocked m d); split; reflexivity.
Qed.

(** [checkDifficultyUnlocks] adds medium when the total reaches 5 and hard
    when the total reaches 15 and the medium wins reach 8. *)
Lemma checkDifficultyUnlocks_spec (m : Manager) (bs : BattleStats) :
  battleStats m = Some bs ->
  exists m2,
    checkDifficultyUnlocks m = Ok tt m2
    /\ battleStats m2 = battleStats m
    /\ currentDifficulty m2 = currentDifficulty m
    /\ forall d,
         isDifficultyUnlocked m2 d
         = isDifficultyUnlocked m d
           || match d with
              | easy => false
              | medium => getTotalWins m >=? 5
              | hard => (getTotalWins m >=? 15) && (Spec.mediumWinsOf m >=? 8)
              end.
Proof.
  intros Hbs. unfold checkDifficultyUnlocks. rewrite Hbs.
  unfold mediumReq_battlesWon, hardReq_battlesWon, hardReq_mediumWins.
  assert (Hmw : match bs with StatsEmpty => 0 | StatsFull _ md _ => wins md end
                = Spec.mediumWinsOf m).
  { unfold Spec.mediumWinsOf. rewrite Hbs. destruct bs; reflexivity. }
  rewrite Hmw.
  set (total := getTotalWins m). set (mw := Spec.mediumWinsOf m).
  set (m1 := if negb (isDifficultyUnlocked m medium)
             then (if total >=? 5 then unlockDifficulty m medium else m) else m).
  assert (H1 : forall d, isDifficultyUnlocked m1 d
                         = isDifficultyUnlocked m d
                           || (difficultyEqb d medium && (total >=? 5))).
  { intros d. unfold m1. destruct (isDifficultyUnlocked m medium) eqn:Hm; cbn [negb].
    - destruct d; cbn [difficultyEqb andb]; rewrite ?orb_false_r; try reflexivity.
      rewrite Hm. reflexivity.
    - destruct (total >=? 5).
      + rewrite isDifficultyUnlocked_unlock. rewrite andb_true_r. reflexivity.
      + rewrite andb_false_r, orb_false_r. reflexivity. }
  assert (K1 : battleStats m1 = battleStats m /\ currentDifficulty m1 = currentDifficulty m).
  { unfold m1. destruct (negb (isDifficultyUnlocked m medium)); [|split; reflexivity].
    destruct (total >=? 5); [apply unlockDifficulty_keeps | split; reflexivity]. }
  set (m2 := if negb (isDifficultyUnlocked m1 hard)
             then (if (total >=? 15) && (mw >=? 8) then unlockDifficulty m1 hard else m1)
             else m1).
  assert (H2 : forall d, isDifficultyUnlocked m2 d
                         = isDifficultyUnlocked m1 d
                           || (difficultyEqb d hard && ((total >=? 15) && (mw >=? 8)))).
  { intros d. unfold m2. destruct (isDifficultyUnlocked m1 hard) eqn:Hh; cbn [negb].
    - destruct d; cbn [difficultyEqb andb]; rewrite ?orb_false_r; try reflexivity.
      rewrite Hh. reflexivity.
    - destruct ((total >=? 15) && (mw >=? 8)).
      + rewrite isDifficultyUnlocked_unlock. rewrite andb_true_r. reflexivity.
      + rewrite andb_false_r, orb_false_r. reflexivity. }
  assert (K2 : battleStats m2 = battleStats m /\ currentDifficulty m2 = currentDifficulty m).
  { unfold m2. destruct (negb (isDifficultyUnlocked m1 hard)); [|exact K1].
    destruct ((total >=? 15) && (mw >=? 8)); [|exact K1].
    destruct (unlockDifficulty_keeps m1 hard) as [A B]. rewrite A, B. exact K1. }
  exists m2. split; [reflexivity|].
  split; [rewrite <- Hbs; apply K2|]. split; [apply K2|].
  intros d. rewrite H2, H1.
  destruct d; cbn [difficultyEqb andb]; rewrite ?orb_false_r; reflexivity.
Qed.

Lemma initial_invariant : Spec.UnlockInvariant initial.
Proof. unfold Spec.UnlockInvariant. cbn. repeat split. discriminate. Qed.

End Unlocks.

Section UnlockSequence.

Import DifficultyManager.

Ltac geb_cases :=
  repeat match goal with
         | |- context [?a >=? ?b] => destruct (Z.geb_spec a b)
         end;
  cbn [andb orb]; try reflexivity; try lia.

(** Counters only grow, so a threshold that was reached stays reached. *)
Lemma unlock_flags_grow (t mw t' mw' : Z) :
  t <= t' -> mw <= mw' ->
  ((t >=? 5) || (t' >=? 5) = (t' >=? 5))
  /\ ((t >=? 15) && (mw >=? 8) || (t' >=? 15) && (mw' >=? 8)
      = (t' >=? 15) && (mw' >=? 8)).
Proof. intros Ht Hm. split; geb_cases. Qed.

(** Recording a win or a loss on a manager whose counters exist. *)
Lemma recordBattleResult_counted (m : Manager) (isWon : bool) (d : option Difficulty)
  (e md h : WinLoss) :
  Spec.UnlockInvariant m ->
  (battleStats m = None /\ e = mkWinLoss 0 0 /\ md = mkWinLoss 0 0 /\ h = mkWinLoss 0 0
   \/ battleStats m = Some (StatsFull e md h)) ->
  exists m',
    recordBattleResult (Some (mkBattleResult (Some isWon) d)) m = Ok tt m'
    /\ Spec.UnlockInvariant m'
    /\ getTotalWins m' = getTotalWins m + (if isWon then 1 else 0)
    /\ Spec.mediumWinsOf m'
       = Spec.mediumWinsOf m
         + (if Spec.isMediumWin (Some (mkBattleResult (Some isWon) d)) then 1 else 0).
Proof.
  intros [Hcur [Hne [He [Hm Hh]]]] Hstats.
  set (difficulty := match d with Some d' => d' | None => currentDifficulty m end).
  set (bs1 := match difficulty with
              | easy => StatsFull (bump isWon e) md h
              | medium => StatsFull e (bump isWon md) h
              | hard => StatsFull e md (bump isWon h)
              end).
  set (m1 := mkManager (currentDifficulty m) (unlockedDifficulties m) (Some bs1) (events m)).
  assert (Hrun : recordBattleResult (Some (mkBattleResult (Some isWon) d)) m
                 = match checkDifficultyUnlocks m1 with
                   | Throw e' m2 => Throw e' m2
                   | Ok _ m2 =>
                       Ok tt (mkManager (currentDifficulty m2) (unlockedDifficulties m2)
                                (battleStats m2) (events m2 ++ [ProgressUpdated]))
                   end).
  { unfold recordBattleResult. cbn [won resultDifficulty].
    destruct Hstats as [[Hnone [-> [-> ->]]] | Hfull].
    - rewrite Hnone. reflexivity.
    - rewrite Hfull. reflexivity. }
  assert (Ht : getTotalWins m = wins e + wins md + wins h
               /\ Spec.mediumWinsOf m = wins md).
  { unfold getTotalWins, Spec.mediumWinsOf.
    destruct Hstats as [[Hnone [-> [-> ->]]] | Hfull].
    - rewrite Hnone. split; reflexivity.
    - rewrite Hfull. split; lia. }
  destruct Ht as [Ht Hmw].
  assert (Ht1 : getTotalWins m1 = getTotalWins m + (if isWon then 1 else 0)
                /\ Spec.mediumWinsOf m1
                   = Spec.mediumWinsOf m
                     + (if Spec.isMediumWin (Some (mkBattleResult (Some isWon) d))
                        then 1 else 0)).
  { rewrite Ht, Hmw. unfold getTotalWins, Spec.mediumWinsOf, m1, bs1, difficulty.
    cbn [battleStats Spec.isMediumWin won resultDifficulty].
    rewrite Hcur.
    destruct d as [[| |]|]; destruct isWon; cbn [bump wins]; split; lia. }
  destruct Ht1 as [Ht1 Hmw1].
  destruct (checkDifficultyUnlocks_spec m1 bs1 eq_refl) as [m2 [Hchk [Hbs2 [Hcur2 Hunl]]]].
  rewrite Hrun, Hchk. eexists. split; [reflexivity|].
  assert (Hsame : forall x, isDifficultyUnlocked m1 x = isDifficultyUnlocked m x)
    by reflexivity.
  assert (Htot2 : getTotalWins
                    (mkManager (currentDifficulty m2) (unlockedDifficulties m2)
                       (battleStats m2) (events m2 ++ [ProgressUpdated]))
                  = getTotalWins m1).
  { unfold getTotalWins. cbn [battleStats]. rewrite Hbs2. reflexivity. }
  assert (Hmw2 : Spec.mediumWinsOf
                    (mkManager (currentDifficulty m2) (unlockedDifficulties m2)
                       (battleStats m2) (events m2 ++ [ProgressUpdated]))
                  = Spec.mediumWinsOf m1).
  { unfold Spec.mediumWinsOf. cbn [battleStats]. rewrite Hbs2. reflexivity. }
  assert (Hgrow_t : getTotalWins m <= getTotalWins m1) by (destruct isWon; lia).
  assert (Hgrow_m : Spec.mediumWinsOf m <= Spec.mediumWinsOf m1).
  { rewrite Hmw1. destruct (Spec.isMediumWin _); lia. }
  destruct (unlock_flags_grow _ _ _ _ Hgrow_t Hgrow_m) as [G1 G2].
  split; [|split; [rewrite Htot2; exact Ht1 | rewrite Hmw2; exact Hmw1]].
  unfold Spec.UnlockInvariant. rewrite Htot2, Hmw2.
  change (isDifficultyUnlocked
            (mkManager (currentDifficulty m2) (unlockedDifficulties m2)
               (battleStats m2) (events m2 ++ [ProgressUpdated])))
    with (isDifficultyUnlocked m2).
  cbn [currentDifficulty battleStats].
  rewrite !Hunl, !Hsame, He, Hm, Hh. cbn [orb].
  split; [rewrite Hcur2; exact Hcur|].
  split; [rewrite Hbs2; cbn [m1 battleStats]; unfold bs1; destruct difficulty; discriminate|].
  split; [reflexivity|]. split; [exact G1 | exact G2].
Qed.

Lemma recordBattleResult_step (m : Manager) (r : option BattleResult) :
  Spec.UnlockInvariant m ->
  exists m',
    recordBattleResult r m = Ok tt m'
    /\ Spec.UnlockInvariant m'
    /\ getTotalWins m' = getTotalWins m + (if Spec.isWin r then 1 else 0)
    /\ Spec.mediumWinsOf m'
       = Spec.mediumWinsOf m + (if Spec.isMediumWin r then 1 else 0).
Proof.
  intros Hinv. destruct r as [[[isWon|] d]|].
  - assert (Hstats : exists e md h,
               battleStats m = None /\ e = mkWinLoss 0 0 /\ md = mkWinLoss 0 0
                                    /\ h = mkWinLoss 0 0
               \/ battleStats m = Some (StatsFull e md h)).
    { destruct Hinv as [_ [Hne _]].
      destruct (battleStats m) as [[|e md h]|].
      - exfalso. apply Hne. reflexivity.
      - exists e, md, h. right. reflexivity.
      - exists (mkWinLoss 0 0), (mkWinLoss 0 0), (mkWinLoss 0 0). left. repeat split. }
    destruct Hstats as [e [md [h Hstats]]].
    destruct (recordBattleResult_counted m isWon d e md h Hinv Hstats)
      as [m' [Hrun [Hinv' [Ht Hmw]]]].
    exists m'. split; [exact Hrun|]. split; [exact Hinv'|].
    split; [|exact Hmw]. rewrite Ht. cbn [Spec.isWin won]. destruct isWon; reflexivity.
  - exists m. split; [reflexivity|]. split; [exact Hinv|]. cbn. split; lia.
  - exists m. split; [reflexivity|]. split; [exact Hinv|]. cbn. split; lia.
Qed.

Lemma recordAll_invariant (rs : list (option BattleResult)) :
  forall m, Spec.UnlockInvariant m ->
  exists m',
    recordAll rs m = Ok tt m'
    /\ Spec.UnlockInvariant m'
    /\ getTotalWins m' = getTotalWins m + Spec.totalWins rs
    /\ Spec.mediumWinsOf m' = Spec.mediumWinsOf m + Spec.mediumWins rs.
Proof.
  induction rs as [|r rs IH]; intros m Hinv.
  - exists m. split; [reflexivity|]. split; [exact Hinv|]. cbn. split; lia.
  - destruct (recordBattleResult_step m r Hinv) as [m1 [Hrun [Hinv1 [Ht Hmw]]]].
    destruct (IH m1 Hinv1) as [m' [Hall [Hinv' [Ht' Hmw']]]].
    exists m'. cbn [recordAll]. rewrite Hrun. split; [exact Hall|].
    split; [exact Hinv'|].
    unfold Spec.totalWins, Spec.mediumWins in *. cbn [filter].
    destruct (Spec.isWin r), (Spec.isMediumWin r); cbn [List.length]; split; lia.
Qed.

(** C8: after any sequence of recorded battle results on a fresh manager,
    easy is unlocked, medium is unlocked exactly when the cumulative wins
    are at least 5, and hard is unlocked exactly when the cumulative wins
    are at least 15 and the medium wins are at least 8; in particular hard
    is locked while the total is at least 15 and the medium wins are below
    8. *)
Theorem unlocks_after_results (rs : list (option BattleResult)) :
  exists m,
    recordAll rs initial = Ok tt m
    /\ isDifficultyUnlocked m easy = true
    /\ (isDifficultyUnlocked m medium = true <-> 5 <= Spec.totalWins rs)
    /\ (isDifficultyUnlocked m hard = true
        <-> 15 <= Spec.totalWins rs /\ 8 <= Spec.mediumWins rs)
    /\ (15 <= Spec.totalWins rs -> Spec.mediumWins rs < 8 ->
        isDifficultyUnlocked m hard = false).
Proof.
  destruct (recordAll_invariant rs initial initial_invariant)
    as [m [Hrun [[_ [_ [He [Hm Hh]]]] [Ht Hmw]]]].
  change (getTotalWins initial) with 0 in Ht.
  change (Spec.mediumWinsOf initial) with 0 in Hmw.
  exists m. split; [exact Hrun|]. split; [exact He|].
  rewrite Hm, Hh, Ht, Hmw.
  repeat split.
  - intros H. destruct (Z.geb_spec (0 + Spec.totalWins rs) 5); [lia | discriminate].
  - intros H. destruct (Z.geb_spec (0 + Spec.totalWins rs) 5); [reflexivity | lia].
  - apply andb_true_iff in H. destruct H as [H _].
    destruct (Z.geb_spec (0 + Spec.totalWins rs) 15); [lia | discriminate].
  - apply andb_true_iff in H. destruct H as [_ H].
    destruct (Z.geb_spec (0 + Spec.mediumWins rs) 8); [lia | discriminate].
  - intros [H1 H2]. apply andb_true_iff. split.
    + destruct (Z.geb_spec (0 + Spec.totalWins rs) 15); [reflexivity | lia].
    + destruct (Z.geb_spec (0 + Spec.mediumWins rs) 8); [reflexivity | lia].
  - intros H1 H2. apply andb_false_iff. right.
    destruct (Z.geb_spec (0 + Spec.mediumWins rs) 8); [lia | reflexivity].
Qed.

End UnlockSequence.

(** ** The AI and the special-attack cap *)

Section SpecialCap.

Import AIOpponent.

(** The aggressive strategy and the optimal play test [canUseSpecial]. *)
Lemma executeAggressiveStrategy_respects_cap (situation : Situation) (w : World) :
  canUseSpecial situation = false ->
  fst (executeAggressiveStrategy situation w) <> Action.special.
Proof.
  intros Hcap. unfold executeAggressiveStrategy. rewrite Hcap.
  destruct (mathRandom w) as [r w2].
  destruct (Js.Qltb r (8 # 10)); cbn [fst]; discriminate.
Qed.

Lemma getOptimalAction_respects_cap (situation : Situation) :
  canUseSpecial situation = false ->
  getOptimalAction situation <> Action.special.
Proof.
  intros Hcap. unfold getOptimalAction. rewrite Hcap.
  destruct (healthStatusEqb (aiHealthStatus situation) desperate); [discriminate|].
  destruct (healthStatusEqb (playerHealthStatus situation) critical); [discriminate|].
  destruct (Num.lt (healthAdvantage situation) (-3 # 10)); discriminate.
Qed.

(** The defensive strategy does not: told to avoid defending, it answers
    'special' whenever the draw is 0.7 or more. *)
Lemma executeDefensiveStrategy_ignores_cap (situation : Situation) (w : World) :
  shouldAvoidDefend situation = true ->
  Js.Qltb (fst (mathRandom w)) (7 # 10) = false ->
  fst (executeDefensiveStrategy situation w) = Action.special.
Proof.
  intros Havoid Hdraw. unfold executeDefensiveStrategy. rewrite Havoid.
  destruct (mathRandom w) as [r w1]. cbn [fst] in *. rewrite Hdraw. reflexivity.
Qed.

(** C7, evaluated at the failing input: the AI has used 3 special attacks
    ([canUseSpecial] is false) and defended twice in a row; the defensive
    strategy is selected and, on a draw of 0.9, [makeDecision] returns
    'special'. *)
Theorem makeDecision_special_past_cap :
  specialAttacksUsed (opponentActions Samples.battleState) = 3
  /\ canUseSpecial
       (analyzeBattleSituation (updateMemory Samples.defensiveAI Samples.battleState)
          Samples.battleState) = false
  /\ determineStrategy (updateMemory Samples.defensiveAI Samples.battleState)
       (analyzeBattleSituation (updateMemory Samples.defensiveAI Samples.battleState)
          Samples.battleState) = defensive
  /\ fst (fst (makeDecision Samples.defensiveAI Samples.battleState Samples.worldHigh))
     = Some Action.special.
Proof. repeat split; vm_compute; reflexivity. Qed.

End SpecialCap.

(** ** Acting in a battle *)

Section ActionExecution.

Import BattleEngine.

Lemma applyDifficultyModifications_some (ai : AIOpponent.AI) (decision : Action.t)
  (situation : AIOpponent.Situation) (w : World) :
  exists a, fst (AIOpponent.applyDifficultyModifications ai decision situation w) = Some a.
Proof.
  assert (Hidx : forall w1,
             exists a,
               fst (let '(r, w2) := mathRandom w1 in
                    (Js.index [Action.attack; Action.special; Action.defend]
                       (Js.floor (r * inject_Z (Z.of_nat 3))%Q), w2)) = Some a).
  { intros w1. pose proof (mathRandom_range w1) as [H0 H1].
    destruct (mathRandom w1) as [r2 w2]. cbn [fst] in *.
    apply index_in_range. apply scaled_floor_range; [exact H0 | exact H1 | reflexivity]. }
  unfold AIOpponent.applyDifficultyModifications. cbv beta zeta.
  destruct (String.eqb (AIOpponent.difficulty ai) "easy");
    destruct (String.eqb (AIOpponent.difficulty ai) "hard");
    destruct (AIOpponent.behaviorParams ai) as [p|];
    repeat match goal with
           | |- context [let '(_, _) := mathRandom w in _] =>
               destruct (mathRandom w) as [? ?]
           | |- context [if Js.Qltb ?a ?b then _ else _] => destruct (Js.Qltb a b)
           | |- context [let '(_, _) := (_, _) in _] => cbv beta iota zeta
           end;
    try apply Hidx;
    repeat match goal with
           | |- context [let '(_, _) := mathRandom ?w1 in _] =>
               destruct (mathRandom w1) as [? ?]
           | |- context [if Js.Qltb ?a ?b then _ else _] => destruct (Js.Qltb a b)
           end;
    eexists; reflexivity.
Qed.

(** [makeDecision] always returns one of the three actions. *)
Lemma makeDecision_some (ai : AIOpponent.AI) (bs : AIOpponent.BattleState) (w : World) :
  exists a, fst (fst (AIOpponent.makeDecision ai bs w)) = Some a.
Proof.
  unfold AIOpponent.makeDecision.
  destruct (AIOpponent.executeStrategy _ _ w) as [d0 w1].
  destruct (applyDifficultyModifications_some (AIOpponent.updateMemory ai bs) d0
              (AIOpponent.analyzeBattleSituation (AIOpponent.updateMemory ai bs) bs) w1)
    as [a Ha].
  destruct (AIOpponent.applyDifficultyModifications _ _ _ w1) as [d w2].
  exists a. exact Ha.
Qed.

Lemma makeAIDecision_some (e : Engine) (b : Battle) (w : World) :
  exists a, fst (fst (makeAIDecision e b w)) = Some a.
Proof.
  unfold makeAIDecision. destruct (aiOpponent e) as [ai|].
  - match goal with
    | |- context [AIOpponent.makeDecision ai ?bs w] =>
        destruct (makeDecision_some ai bs w) as [a Ha];
        destruct (AIOpponent.makeDecision ai bs w) as [[d ai'] w1]
    end.
    exists a. exact Ha.
  - destruct (makeSimpleAIDecision b w) as [a w1]. exists a. reflexivity.
Qed.

Lemma parseAction_actionName (a : Action.t) : parseAction (actionName a) = Some a.
Proof. destruct a; reflexivity. Qed.

(** A recognised action is executed. *)
Lemma executeAction_some (e : Engine) (b : Battle) (actor : Side)
  (actionType : string) (a : Action.t) (w : World) :
  parseAction actionType = Some a ->
  exists r b' w', executeAction e b actor actionType w = Ok r (b', w').
Proof.
  intros Hparse.
  unfold executeAction. rewrite Hparse. destruct (dateNow w) as [t w0]. destruct a.
  - destruct (calculateDamage _ _ _ _ w0) as [d w1].
    destruct (checkCriticalHit _ _ _ w1) as [c w2]. do 3 eexists. reflexivity.
  - destruct (calculateDamage _ _ _ _ w0) as [d w1].
    destruct (checkCriticalHit _ _ _ w1) as [c w2]. do 3 eexists. reflexivity.
  - do 3 eexists. reflexivity.
Qed.

(** A manager whose counters are not the empty object records any result. *)
Lemma recordBattleResult_ok (r : option DifficultyManager.BattleResult)
  (dm : DifficultyManager.Manager) :
  DifficultyManager.battleStats dm <> Some DifficultyManager.StatsEmpty ->
  exists dm',
    DifficultyManager.recordBattleResult r dm = Ok tt dm'
    /\ DifficultyManager.battleStats dm' <> Some DifficultyManager.StatsEmpty.
Proof.
  intros Hne. unfold DifficultyManager.recordBattleResult.
  destruct r as [[[isWon|] d]|]; cbn [DifficultyManager.won DifficultyManager.resultDifficulty];
    try (exists dm; split; [reflexivity | exact Hne]).
  set (difficulty := match d with
                     | Some d' => d'
                     | None => DifficultyManager.currentDifficulty dm
                     end).
  destruct (DifficultyManager.battleStats dm) as [[|e0 md h]|] eqn:Hbs.
  - exfalso. apply Hne. reflexivity.
  - match goal with
    | |- context [DifficultyManager.checkDifficultyUnlocks ?m1] =>
        destruct (checkDifficultyUnlocks_spec m1 _ eq_refl) as [m2 [Hchk [Hbs2 _]]];
        rewrite Hchk
    end.
    eexists. split; [reflexivity|]. cbn [DifficultyManager.battleStats] in *.
    rewrite Hbs2. destruct difficulty; discriminate.
  - match goal with
    | |- context [DifficultyManager.checkDifficultyUnlocks ?m1] =>
        destruct (checkDifficultyUnlocks_spec m1 _ eq_refl) as [m2 [Hchk [Hbs2 _]]];
        rewrite Hchk
    end.
    eexists. split; [reflexivity|]. cbn [DifficultyManager.battleStats] in *.
    rewrite Hbs2. destruct difficulty; discriminate.
Qed.

Lemma isTierOrNull_lookup (name : option string) (fallback : Difficulty) :
  DifficultyName.isTierOrNull name = true ->
  exists d,
    DifficultyName.lookup
      (DifficultyName.orElse name (DifficultyName.ofTier fallback))
    = DifficultyName.Own d.
Proof.
  unfold DifficultyName.isTierOrNull, DifficultyName.orElse, DifficultyName.lookup.
  destruct name as [[|c text]|].
  - intros _. exists fallback. destruct fallback; reflexivity.
  - destruct (DifficultyName.tier (String c text)) as [d|]; [|discriminate].
    intros _. exists d. reflexivity.
  - intros _. exists fallback. destruct fallback; reflexivity.
Qed.

(** A manager whose counters are not the empty object records the result
    of a battle whose difficulty is a tier or null. *)
Lemma recordBattleResultOfName_ok (isWin : bool) (name : option string)
  (dm : DifficultyManager.Manager) :
  DifficultyManager.battleStats dm <> Some DifficultyManager.StatsEmpty ->
  DifficultyName.isTierOrNull name = true ->
  exists dm',
    DifficultyManager.recordBattleResultOfName isWin name dm = Ok tt dm'
    /\ DifficultyManager.battleStats dm' <> Some DifficultyManager.StatsEmpty.
Proof.
  intros Hne Hname. unfold DifficultyManager.recordBattleResultOfName.
  destruct (isTierOrNull_lookup name (DifficultyManager.currentDifficulty dm) Hname)
    as [d Hd].
  rewrite Hd. apply recordBattleResult_ok. exact Hne.
Qed.

Lemma endBattle_ok (winnerSide : Side) (e : Engine) (w : World) :
  Spec.CanRecord (e, w) -> exists s', endBattle winnerSide (e, w) = Ok tt s'.
Proof.
  unfold Spec.CanRecord. cbn [fst]. intros Hrec. unfold endBattle.
  destruct (currentBattle e) as [b|] eqn:Hb; [|eexists; reflexivity].
  destruct (dateNow w) as [endT w1]. destruct (dateNow w1) as [stampEnd w2].
  destruct (difficultyManager e) as [dm|]; [|eexists; reflexivity].
  destruct Hrec as [Hstats Hname].
  cbn [difficulty].
  destruct (recordBattleResultOfName_ok (sideEqb winnerSide player) (difficulty b) dm
              Hstats (Hname b eq_refl)) as [dm' [Hrun _]].
  rewrite Hrun. eexists. reflexivity.
Qed.

Lemma finishTurn_ok (e : Engine) (b : Battle) (actor : Side) (a : Action.t)
  (result : ActionResult) (w : World) :
  Spec.CanRecord (withBattle e b, w) ->
  exists s', finishTurn e b actor a result w = Ok result s'.
Proof.
  intros Hrec. unfold finishTurn, checkBattleEnd.
  cbn [withBattle currentBattle].
  set (b1 := updateActionTracking b actor a).
  assert (Hrec1 : Spec.CanRecord (withBattle e b1, w)).
  { revert Hrec. unfold Spec.CanRecord. cbn [fst withBattle difficultyManager currentBattle].
    destruct (difficultyManager e) as [dm|]; [|tauto].
    intros [Hs Hn]. split; [exact Hs|]. intros b0 [= <-].
    rewrite <- (Hn b eq_refl). subst b1. destruct actor; reflexivity. }
  destruct (negb (statusEqb (status b1) active)); [eexists; reflexivity|].
  destruct (hp (stats (playerCreature b1)) <=? 0).
  { destruct (endBattle_ok opponent (withBattle e b1) w Hrec1) as [s' Hs'].
    rewrite Hs'. eexists. reflexivity. }
  destruct (hp (stats (opponentCreature b1)) <=? 0).
  { destruct (endBattle_ok player (withBattle e b1) w Hrec1) as [s' Hs'].
    rewrite Hs'. eexists. reflexivity. }
  cbn [currentBattle]. destruct actor; eexists; reflexivity.
Qed.

(** An action leaves the difficulty of the battle as it is. *)
Lemma executeAction_difficulty (e : Engine) (b b' : Battle) (actor : Side)
  (actionType : string) (r : ActionResult) (w w' : World) :
  executeAction e b actor actionType w = Ok r (b', w') ->
  difficulty b' = difficulty b.
Proof.
  unfold executeAction. destruct (dateNow w) as [t w0].
  destruct (parseAction actionType) as [[| |]|]; [| | |discriminate].
  - destruct (calculateDamage _ _ _ _ w0) as [d w1].
    destruct (checkCriticalHit _ _ _ w1) as [c w2].
    intros [= _ <- _]. destruct actor; reflexivity.
  - destruct (calculateDamage _ _ _ _ w0) as [d w1].
    destruct (checkCriticalHit _ _ _ w1) as [c w2].
    intros [= _ <- _]. destruct actor; reflexivity.
  - intros [= _ <- _]. destruct actor; reflexivity.
Qed.

Lemma CanRecord_withBattle (e : Engine) (ai : option AIOpponent.AI) (b b' : Battle)
  (w w' : World) :
  Spec.CanRecord (e, w) -> currentBattle e = Some b ->
  difficulty b' = difficulty b ->
  Spec.CanRecord
    (withBattle (mkEngine (currentBattle e) (battleHistory e) ai (difficultyManager e))
                b', w').
Proof.
  unfold Spec.CanRecord. cbn [fst withBattle difficultyManager currentBattle].
  intros Hrec Hb Hd. destruct (difficultyManager e) as [dm|]; [|exact I].
  destruct Hrec as [Hs Hn]. split; [exact Hs|].
  intros b0 [= <-]. rewrite Hd. apply Hn. exact Hb.
Qed.

Lemma withBattle_same (e : Engine) (b : Battle) :
  currentBattle e = Some b -> withBattle e b = e.
Proof. intros H. destruct e. cbn in *. subst. reflexivity. Qed.

End ActionExecution.

Section ActionGuards.

Import BattleEngine.

Lemma statusEqb_active (x : Status) : statusEqb x active = true <-> x = active.
Proof. destruct x; cbn; split; intros H; try reflexivity; discriminate H. Qed.

Lemma sideEqb_eq (x y : Side) : sideEqb x y = true <-> x = y.
Proof. destruct x, y; cbn; split; intros H; try reflexivity; discriminate H. Qed.

(** The three ways in which [executePlayerAction] can go. *)
Lemma executePlayerAction_cases (actionType : string) (s : State) :
  Spec.CanRecord s ->
  (Spec.MayAct player s /\ parseAction actionType <> None
   /\ exists r s', executePlayerAction actionType s = Ok r s')
  \/ (Spec.MayAct player s /\ parseAction actionType = None
      /\ exists msg w', executePlayerAction actionType s = Throw msg (fst s, w'))
  \/ (~ Spec.MayAct player s
      /\ exists msg, executePlayerAction actionType s = Throw msg s).
Proof.
  destruct s as [e w]. intros Hrec. unfold executePlayerAction, Spec.MayAct. cbn [fst].
  destruct (currentBattle e) as [b|] eqn:Hb.
  2:{ right. right. split; [intros [b [Hb' _]]; discriminate Hb' | eexists; reflexivity]. }
  destruct (statusEqb (status b) active) eqn:Hst; cbn [negb].
  2:{ right. right. split; [|eexists; reflexivity].
      intros [b' [Hb' [Hs _]]]. injection Hb' as <-.
      apply statusEqb_active in Hs. congruence. }
  destruct (sideEqb (currentTurn b) player) eqn:Ht; cbn [negb].
  2:{ right. right. split; [|eexists; reflexivity].
      intros [b' [Hb' [_ Hturn]]]. injection Hb' as <-.
      apply sideEqb_eq in Hturn. congruence. }
  assert (Hmay : exists b0, Some b = Some b0 /\ status b0 = active /\ currentTurn b0 = player).
  { exists b. split; [reflexivity|]. split; [apply statusEqb_active | apply sideEqb_eq];
      assumption. }
  destruct (parseAction actionType) as [a|] eqn:Hp.
  - left. split; [exact Hmay|]. split; [discriminate|].
    destruct (executeAction_some e b player actionType a w Hp) as [r [b' [w' Hrun]]].
    rewrite Hrun.
    destruct (finishTurn_ok e b' player (resultActionType r) r w') as [s' Hs'].
    { pose proof (CanRecord_withBattle e (aiOpponent e) b b' w w' Hrec Hb
                    (executeAction_difficulty _ _ _ _ _ _ _ _ Hrun)) as H.
      destruct e. exact H. }
    exists r, s'. exact Hs'.
  - right. left. split; [exact Hmay|]. split; [reflexivity|].
    unfold executeAction. rewrite Hp. destruct (dateNow w) as [t w0].
    rewrite (withBattle_same e b Hb). eexists. eexists. reflexivity.
Qed.

(** The two ways in which [executeAIAction] can go. *)
Lemma executeAIAction_cases (s : State) :
  Spec.CanRecord s ->
  (Spec.MayAct opponent s /\ exists r s', executeAIAction s = Ok r s')
  \/ (~ Spec.MayAct opponent s /\ exists msg, executeAIAction s = Throw msg s).
Proof.
  destruct s as [e w]. intros Hrec. unfold executeAIAction, Spec.MayAct. cbn [fst].
  destruct (currentBattle e) as [b|] eqn:Hb.
  2:{ right. split; [intros [b [Hb' _]]; discriminate Hb' | eexists; reflexivity]. }
  destruct (statusEqb (status b) active) eqn:Hst; cbn [negb].
  2:{ right. split; [|eexists; reflexivity].
      intros [b' [Hb' [Hs _]]]. injection Hb' as <-.
      apply statusEqb_active in Hs. congruence. }
  destruct (sideEqb (currentTurn b) opponent) eqn:Ht; cbn [negb].
  2:{ right. split; [|eexists; reflexivity].
      intros [b' [Hb' [_ Hturn]]]. injection Hb' as <-.
      apply sideEqb_eq in Hturn. congruence. }
  left. split.
  { exists b. split; [reflexivity|]. split; [apply statusEqb_active | apply sideEqb_eq];
      assumption. }
  destruct (makeAIDecision_some e b w) as [a Ha].
  destruct (makeAIDecision e b w) as [[d ai'] w1]. cbn [fst] in Ha. subst d.
  set (e1 := mkEngine (Some b) (battleHistory e) ai' (difficultyManager e)).
  destruct (executeAction_some e1 b opponent (decisionText (Some a)) a w1
              (parseAction_actionName a)) as [r [b' [w' Hrun]]].
  rewrite Hrun.
  destruct (finishTurn_ok e1 b' opponent (resultActionType r) r w') as [s' Hs'].
  { pose proof (CanRecord_withBattle e ai' b b' w w' Hrec Hb
                  (executeAction_difficulty _ _ _ _ _ _ _ _ Hrun)) as H.
    subst e1. rewrite Hb in H. exact H. }
  exists r, s'. exact Hs'.
Qed.

(** C10 (as stated) fails: in an active battle on the player's turn,
    [executePlayerAction] throws for an action type that is not one of
    'attack', 'special', 'defend'. *)
Lemma executePlayerAction_unknown_action_throws :
  Spec.MayAct player (Samples.engine player, Samples.worldHigh)
  /\ exists s',
       executePlayerAction "heal" (Samples.engine player, Samples.worldHigh)
       = Throw "Unknown action type: heal" s'.
Proof.
  split.
  - exists (Samples.battle player). repeat split.
  - eexists. vm_compute. reflexivity.
Qed.

(** C10, amended: with a DifficultyManager that is able to count the
    result of the current battle (its counters are not the empty object and
    the battle was started under no difficulty or under the name of a tier),
    or with none, [executePlayerAction] throws exactly when there is no
    current battle, the battle is not active, it is not the player's turn,
    or the action type is not one of the three actions; [executeAIAction]
    throws
    exactly when there is no current battle, the battle is not active, or it
    is not the opponent's turn; every such throw leaves the engine as it
    was; in all other cases the action is executed and a result returned. *)
Theorem execute_actions_throw_exactly (actionType : string) (s : State) :
  Spec.CanRecord s ->
  ((exists msg s', executePlayerAction actionType s = Throw msg s')
   <-> (~ Spec.MayAct player s \/ parseAction actionType = None))
  /\ (forall msg s', executePlayerAction actionType s = Throw msg s' -> fst s' = fst s)
  /\ (~ Spec.MayAct player s ->
      exists msg, executePlayerAction actionType s = Throw msg s)
  /\ (Spec.MayAct player s -> parseAction actionType <> None ->
      exists r s', executePlayerAction actionType s = Ok r s')
  /\ ((exists msg s', executeAIAction s = Throw msg s') <-> ~ Spec.MayAct opponent s)
  /\ (forall msg s', executeAIAction s = Throw msg s' -> s' = s)
  /\ (Spec.MayAct opponent s -> exists r s', executeAIAction s = Ok r s').
Proof.
  intros Hrec.
  destruct (executePlayerAction_cases actionType s Hrec)
    as [[Hmay [Hp [r [s1 Hrun]]]] | [[Hmay [Hp [msg1 [w1 Hrun]]]] | [Hno [msg1 Hrun]]]];
  destruct (executeAIAction_cases s Hrec)
    as [[HmayA [rA [sA HrunA]]] | [HnoA [msgA HrunA]]];
  rewrite Hrun, HrunA;
  repeat split;
  try (intros; exfalso; tauto);
  try (intros [msg [s' H]]; discriminate H);
  try (intros msg s' H; discriminate H);
  try (intros msg s' H; injection H as _ <-; reflexivity);
  try (intros; eexists; reflexivity);
  try (intros; eexists; eexists; reflexivity);
  try (intros; tauto);
  try (intros [H | H]; [tauto | congruence]).
Qed.

Lemma execute_actions_throw_exactly_witness :
  Spec.CanRecord (Samples.engine player, Samples.worldHigh)
  /\ Spec.MayAct player (Samples.engine player, Samples.worldHigh)
  /\ parseAction "attack" <> None
  /\ (exists r s',
        executePlayerAction "attack" (Samples.engine player, Samples.worldHigh)
        = Ok r s')
  /\ ~ Spec.MayAct opponent (Samples.engine player, Samples.worldHigh)
  /\ (exists msg,
        executeAIAction (Samples.engine player, Samples.worldHigh)
        = Throw msg (Samples.engine player, Samples.worldHigh)).
Proof.
  assert (Hrec : Spec.CanRecord (Samples.engine player, Samples.worldHigh))
    by (cbn; split; [discriminate | intros b [= <-]; reflexivity]).
  assert (Hmay : Spec.MayAct player (Samples.engine player, Samples.worldHigh))
    by (exists (Samples.battle player); repeat split).
  assert (Hparse : parseAction "attack" <> None) by (vm_compute; discriminate).
  destruct (execute_actions_throw_exactly "attack"
              (Samples.engine player, Samples.worldHigh) Hrec)
    as [_ [_ [_ [Hok [Hai [Hsame _]]]]]].
  split; [exact Hrec|]. split; [exact Hmay|]. split; [exact Hparse|].
  split; [exact (Hok Hmay Hparse)|].
  assert (Hno : ~ Spec.MayAct opponent (Samples.engine player, Samples.worldHigh)).
  { intros [b [Hb [_ Hturn]]]. cbn in Hb. injection Hb as <-. discriminate Hturn. }
  split; [exact Hno|].
  destruct (proj2 Hai Hno) as [msg [s' Hrun]].
  exists msg. rewrite Hrun. rewrite (Hsame msg s' Hrun). reflexivity.
Defined.

(** The sample battle, one action of each side, evaluated. *)
Example executePlayerAction_attack :
  exists r s',
    executePlayerAction "attack" (Samples.engine player, Samples.worldHigh) = Ok r s'
    /\ resultDamage r = 1
    /\ option_map currentTurn (currentBattle (fst s')) = Some opponent
    /\ option_map turnCount (currentBattle (fst s')) = Some 6.
Proof. do 2 eexists. split; [vm_compute; reflexivity | repeat split]. Qed.

Example executeAIAction_special :
  exists r s',
    executeAIAction (Samples.engine opponent, Samples.worldHigh) = Ok r s'
    /\ resultActionType r = Action.special
    /\ option_map (fun b => specialAttacksUsed (opponentActions b))
         (currentBattle (fst s')) = Some 4.
Proof. do 2 eexists. split; [vm_compute; reflexivity | repeat split]. Qed.

(** Outside the amended statement: when the DifficultyManager holds the
    empty counters object, the blow that ends the battle makes
    [executePlayerAction] throw after the battle has been changed. *)
Example executePlayerAction_empty_counters_throw :
  exists s',
    executePlayerAction "attack" (Samples.lastBlow, Samples.worldHigh)
    = Throw "TypeError" s'
    /\ option_map status (currentBattle (fst s')) = Some won.
Proof. eexists. split; [vm_compute; reflexivity | reflexivity]. Qed.

(** Outside the amended statement as well: when the battle was started
    under a difficulty that is not the name of a tier, the manager has no
    counters under that name, and the blow that ends the battle makes
    [executePlayerAction] throw after the battle has been changed. *)
Example executePlayerAction_unknown_tier_throw :
  Spec.MayAct player (Samples.unknownTier, Samples.worldHigh)
  /\ exists s',
       executePlayerAction "attack" (Samples.unknownTier, Samples.worldHigh)
       = Throw "TypeError" s'
       /\ option_map status (currentBattle (fst s')) = Some won.
Proof.
  split.
  - eexists. repeat split.
  - eexists. split; [vm_compute; reflexivity | reflexivity].
Qed.

End ActionGuards.

(** ** Further properties of the generator and of the validators *)

Section GenerationResults.

Import BarcodeProcessor.

(** X1: [generateCreature] returns null exactly for the barcodes that
    [validateBarcode] rejects, and then it reads neither the clock nor
    [Math.random].  For every other barcode it returns a creature that
    passes [DataValidation.isValidCreature], at level 1, without
    experience and at full health, after two clock readings and one random
    draw. *)
Theorem generateCreature_null_exactly_when_invalid (b : string) (w : World) :
  (fst (generateCreature b w) = None <-> validateBarcode b = false)
  /\ (validateBarcode b = false -> snd (generateCreature b w) = w)
  /\ (forall c, fst (generateCreature b w) = Some c ->
        DataValidation.isValidCreature c = true
        /\ barcode c = b /\ level c = 1 /\ experience c = 0
        /\ experienceToNext c = 100
        /\ hp (stats c) = maxHp (stats c)
        /\ battlesWon c = 0 /\ battlesLost c = 0 /\ isOpponent c = false
        /\ id c = fst (GameUtils.generateId w)
        /\ ticks (snd (generateCreature b w)) = S (S (ticks w))
        /\ draws (snd (generateCreature b w)) = S (draws w)).
Proof.
  destruct (validateBarcode b) eqn:Hv.
  - destruct (calculateStats_digits b (validateBarcode_allDigits b Hv))
      as [st [Hst [_ [_ [_ [_ Hmax]]]]]].
    destruct (generateCreature_valid b Hv) as [st' [nm [Hst' [Hnm Hgen]]]].
    destruct (Hgen w) as [c [Hc _]].
    split; [split; [rewrite Hc; discriminate | discriminate]|].
    split; [discriminate|].
    intros c0. unfold generateCreature. rewrite Hv, Hst, Hnm. cbn [negb].
    unfold GameUtils.generateId, dateNow, mathRandom. cbn [clock entropy ticks draws].
    match goal with
    | |- context [DataValidation.isValidCreature ?x] =>
        destruct (DataValidation.isValidCreature x) eqn:Hvalid
    end; cbn [negb fst snd]; [|discriminate].
    intros Hsome. injection Hsome as <-.
    cbn [barcode level experience experienceToNext stats battlesWon battlesLost
         isOpponent id ticks draws].
    repeat split; try reflexivity; try exact Hvalid. symmetry. exact Hmax.
  - unfold generateCreature. rewrite Hv. cbn [negb fst snd].
    split; [split; reflexivity|]. split; [reflexivity|]. discriminate.
Qed.

(** The seed loop adds at most [9 * (i + 1) * 31] at index [i]. *)
Lemma generateSeedFrom_bound (s : string) :
  forall i seed v, 0 <= i ->
    generateSeedFrom s i seed = Some v ->
    seed <= v
    /\ 2 * (v - seed)
       <= 279 * (2 * Js.strlen s * i + Js.strlen s * (Js.strlen s + 1)).
Proof.
  unfold Js.strlen.
  induction s as [|c s IH]; intros i seed v Hi; cbn [generateSeedFrom String.length].
  - intros [= <-]. change (Z.of_nat 0) with 0. split; lia.
  - unfold Js.parseInt.
    destruct ((48 <=? Z.of_nat (nat_of_ascii c)) && (Z.of_nat (nat_of_ascii c) <=? 57))
      eqn:Hd; [|discriminate].
    apply andb_prop in Hd. destruct Hd as [H48 H57].
    apply Z.leb_le in H48. apply Z.leb_le in H57.
    intros Hrun. apply IH in Hrun; [|lia]. destruct Hrun as [Hle Hb].
    set (d := Z.of_nat (nat_of_ascii c) - 48) in *.
    set (n := Z.of_nat (String.length s)) in *.
    assert (Hd : 0 <= d <= 9) by (subst d; lia).
    assert (Hn : 0 <= n) by (subst n; lia).
    replace (Z.of_nat (S (String.length s))) with (n + 1) by (subst n; lia).
    assert (Hprod : 0 <= d * (i + 1) <= 9 * (i + 1)) by nia.
    split; nia.
Qed.

(** X2: the seed of a valid barcode is a whole number between 0 and 58590
    (the seed of twenty nines), so the generator made from it starts at the
    seed itself, or at 2147483646 when the seed is 0, and never in the
    state 0. *)
Theorem generateSeed_range (b : string) :
  validateBarcode b = true ->
  exists seed,
    generateSeed b = Some seed
    /\ 0 <= seed <= 58590
    /\ current (createSeededRandom seed)
       = (if seed =? 0 then 2147483646 else seed)
    /\ 1 <= current (createSeededRandom seed) <= 2147483646.
Proof.
  intros Hv.
  destruct (generateSeed_valid b (validateBarcode_allDigits b Hv)) as [seed [Hseed H0]].
  exists seed. split; [exact Hseed|].
  assert (Hlen : 8 <= Js.strlen b <= 20).
  { revert Hv. unfold validateBarcode, GameConstants.MIN_BARCODE_LENGTH,
      GameConstants.MAX_BARCODE_LENGTH.
    destruct (Z.ltb_spec (Js.strlen b) 8); [discriminate|].
    destruct (Z.gtb_spec (Js.strlen b) 20); [discriminate|]. lia. }
  destruct (generateSeedFrom_bound b 0 0 seed (Z.le_refl 0) Hseed) as [_ Hb].
  assert (Hrange : 0 <= seed <= 58590) by nia.
  split; [exact Hrange|].
  split; [|apply createSeededRandom_nonneg; lia].
  unfold createSeededRandom.
  rewrite Z.rem_small by lia.
  destruct (Z.eqb_spec seed 0) as [-> | Hne]; [reflexivity|].
  destruct (Z.leb_spec seed 0); [lia | reflexivity].
Qed.

Lemma generateSeed_range_witness :
  validateBarcode "99999999999999999999" = true
  /\ exists seed,
       generateSeed "99999999999999999999" = Some seed
       /\ 0 <= seed <= 58590
       /\ current (createSeededRandom seed)
          = (if seed =? 0 then 2147483646 else seed)
       /\ 1 <= current (createSeededRandom seed) <= 2147483646.
Proof.
  split; [reflexivity|].
  apply (generateSeed_range "99999999999999999999"). reflexivity.
Defined.

(** The bound is reached, and the seed 0 occurs. *)
Example generateSeed_extremes :
  generateSeed "99999999999999999999" = Some 58590
  /\ generateSeed "00000000" = Some 0
  /\ generateSeed "20000000" = generateSeed "01000000".
Proof. repeat split. Qed.

(** X3: [DataValidation.isValidBarcode] has no upper length limit: it
    accepts what [validateBarcode] accepts and, beyond that, exactly the
    digit strings of more than 20 characters. *)
Theorem isValidBarcode_accepts_longer (b : string) :
  DataValidation.isValidBarcode b = true
  <-> (validateBarcode b = true
       \/ (Spec.OnlyDigits b /\ (20 < String.length b)%nat)).
Proof.
  rewrite <- allDigits_spec.
  unfold DataValidation.isValidBarcode, validateBarcode,
    GameConstants.MIN_BARCODE_LENGTH, GameConstants.MAX_BARCODE_LENGTH, Js.strlen.
  destruct (Z.ltb_spec (Z.of_nat (String.length b)) 8) as [Hshort | Hlong].
  - split; [discriminate|]. intros [H | [_ H]]; [discriminate H | lia].
  - destruct (Z.gtb_spec (Z.of_nat (String.length b)) 20) as [H20 | H20].
    + unfold Js.testDigitsOnly. destruct b as [|c b]; [cbn in Hlong; lia|].
      split.
      * intros H. right. split; [exact H | lia].
      * intros [H | [H _]]; [discriminate H | exact H].
    + destruct (Js.testDigitsOnly b) eqn:Ht; cbn [negb].
      * split; [intros _; left; reflexivity | reflexivity].
      * split; [discriminate|]. intros [H | [_ H]]; [discriminate H | lia].
Qed.

Example isValidBarcode_21_digits :
  DataValidation.isValidBarcode "123456789012345678901" = true
  /\ validateBarcode "123456789012345678901" = false.
Proof. split; reflexivity. Qed.

(** X4: for the levels 1 to 75 the experience thresholds grow strictly: the
    threshold of the next level exceeds the current one by at least 50.
    (Up to level 76 the source's numbers give the threshold exactly.) *)
Theorem calculateExperienceToNext_grows (l : Z) :
  1 <= l <= 75 ->
  GameUtils.calculateExperienceToNext l + 50
  <= GameUtils.calculateExperienceToNext (l + 1).
Proof.
  intros [Hl _].
  pose proof (calculateExperienceToNext_pos l Hl) as Hpos.
  rewrite calculateExperienceToNext_formula in * by lia.
  rewrite calculateExperienceToNext_formula by lia.
  replace (l + 1 - 1) with (Z.succ (l - 1)) by lia.
  rewrite !Z.pow_succ_r by lia.
  set (A := 3 ^ (l - 1)) in *. set (B := 2 ^ (l - 1)) in *.
  assert (HB : 0 < B) by (subst B; apply Z.pow_pos_nonneg; lia).
  assert (HAB : B <= A) by (subst A B; apply Z.pow_le_mono_l; lia).
  pose proof (Z.mul_div_le (100 * A) B HB) as Hq.
  apply Z.div_le_lower_bound; [lia|]. nia.
Qed.

Lemma calculateExperienceToNext_grows_witness :
  1 <= 75 <= 75
  /\ GameUtils.calculateExperienceToNext 75 + 50
     <= GameUtils.calculateExperienceToNext (75 + 1).
Proof.
  split; [lia|]. apply (calculateExperienceToNext_grows 75). lia.
Defined.

End GenerationResults.

(** ** The shape of generated names *)

Section NameShape.

Import BarcodeProcessor.

Lemma append_length (s t : string) :
  String.length (s ++ t) = (String.length s + String.length t)%nat.
Proof. induction s as [|c s IH]; cbn; [reflexivity | rewrite IH; reflexivity]. Qed.

Lemma substring_length (s : string) :
  forall n m, (n + m <= String.length s)%nat -> String.length (substring n m s) = m.
Proof.
  induction s as [|c s IH]; intros n m H; cbn [String.length] in H.
  - assert (Hn : n = O) by lia. assert (Hm : m = O) by lia. subst. reflexivity.
  - destruct n as [|n]; cbn [substring].
    + destruct m as [|m]; [reflexivity|]. cbn [String.length]. f_equal. apply IH. lia.
    + apply IH. lia.
Qed.

Lemma index_In {A : Type} (l : list A) (i : Z) (x : A) :
  Js.index l i = Some x -> In x l.
Proof.
  unfold Js.index. destruct (i <? 0); [discriminate|]. apply nth_error_In.
Qed.

(** Every syllable of the table has two characters and starts with a
    lower-case letter. *)
Lemma syllables_shape (syl : string) :
  In syl syllables ->
  exists a b, syl = String a (String b EmptyString)
              /\ (97 <= nat_of_ascii a <= 122)%nat.
Proof.
  revert syl. apply Forall_forall. unfold syllables.
  repeat (constructor; [do 2 eexists; split; [reflexivity | cbn; lia] |]).
  constructor.
Qed.

Lemma drawSyllable_listed (retries : nat) :
  forall nl used g,
    1 <= current g <= 2147483646 ->
    In (fst (drawSyllable retries nl used g)) syllables
    /\ 1 <= current (snd (drawSyllable retries nl used g)) <= 2147483646.
Proof.
  induction retries as [|retries IH]; intros nl used g Hg; cbn [drawSyllable];
    destruct (next_value_range g Hg) as [Hr0 Hr1];
    pose proof (next_in_range g Hg) as Hg';
    destruct (next g) as [r g']; cbn [fst snd] in Hr0, Hr1, Hg';
    destruct (index_in_range syllables
                (Js.floor (r * inject_Z (Z.of_nat (List.length syllables)))%Q))
      as [syl Hsyl];
    try (apply scaled_floor_range; [exact Hr0 | exact Hr1 | reflexivity]);
    rewrite Hsyl.
  - cbn [fst snd]. split; [exact (index_In _ _ _ Hsyl) | exact Hg'].
  - destruct ((nl <=? 3) && hasSyllable used syl).
    + apply IH. exact Hg'.
    + cbn [fst snd]. split; [exact (index_In _ _ _ Hsyl) | exact Hg'].
Qed.

(** The loop appends [todo] syllables: two characters each, and the first
    character of the name is the first character of the first syllable. *)
Lemma appendSyllables_shape (todo : nat) :
  forall nl nm used g,
    1 <= current g <= 2147483646 ->
    String.length (fst (appendSyllables todo nl nm used g))
    = (String.length nm + 2 * todo)%nat
    /\ 1 <= current (snd (appendSyllables todo nl nm used g)) <= 2147483646
    /\ (forall a rest, nm = String a rest ->
          exists rest', fst (appendSyllables todo nl nm used g) = String a rest')
    /\ (nm = EmptyString -> (1 <= todo)%nat ->
          exists a rest',
            fst (appendSyllables todo nl nm used g) = String a rest'
            /\ (97 <= nat_of_ascii a <= 122)%nat).
Proof.
  induction todo as [|todo IH]; intros nl nm used g Hg; cbn [appendSyllables].
  - cbn [fst snd]. split; [lia|]. split; [exact Hg|].
    split; [intros a rest ->; eexists; reflexivity | intros _ H; lia].
  - destruct (drawSyllable_listed 9 nl used g Hg) as [Hin Hg'].
    destruct (drawSyllable 9 nl used g) as [syl g']. cbn [fst snd] in Hin, Hg'.
    destruct (syllables_shape syl Hin) as [a [b [-> Ha]]].
    destruct (IH nl (nm ++ String a (String b EmptyString))%string
                 (String a (String b EmptyString) :: used) g' Hg')
      as [Hlen [Hcur [Hhead _]]].
    split; [rewrite Hlen, append_length; cbn [String.length]; lia|].
    split; [exact Hcur|]. split.
    + intros a0 rest ->. apply (Hhead a0 (rest ++ String a (String b EmptyString))%string).
      reflexivity.
    + intros -> _. destruct (Hhead a (String b EmptyString) eq_refl) as [rest' Hr].
      exists a, rest'. split; [exact Hr | exact Ha].
Qed.

(** Styling inserts at most one character, behind the first one. *)
Lemma applyNameStyling_shape (a : ascii) (rest : string) (st : NameStyle)
  (g : SeededRandom) :
  1 <= current g <= 2147483646 ->
  (1 <= String.length rest)%nat ->
  exists rest',
    applyNameStyling (String a rest) st g = String a rest'
    /\ (String.length rest <= String.length rest' <= S (String.length rest))%nat.
Proof.
  intros Hg Hlen. set (nm := String a rest).
  assert (Hnm : String.length nm = S (String.length rest)) by reflexivity.
  assert (Hkeep : exists rest', nm = String a rest'
            /\ (String.length rest <= String.length rest' <= S (String.length rest))%nat).
  { exists rest. split; [reflexivity | lia]. }
  assert (Hins : forall pos c,
            (1 <= pos <= String.length rest)%nat ->
            exists rest',
              (Js.sliceTo nm pos ++ String c (Js.sliceFrom nm pos))%string
              = String a rest'
              /\ (String.length rest <= String.length rest'
                  <= S (String.length rest))%nat).
  { intros pos c Hpos. unfold Js.sliceTo, Js.sliceFrom.
    destruct pos as [|pos]; [lia|]. subst nm. cbn [substring String.length append].
    eexists. split; [reflexivity|].
    rewrite append_length. cbn [String.length].
    rewrite !substring_length by lia. lia. }
  destruct (next_value_range g Hg) as [H10 H11].
  pose proof (next_in_range g Hg) as Hg1.
  destruct (next_value_range _ Hg1) as [H20 H21].
  unfold applyNameStyling. fold nm.
  destruct (next g) as [r1 g1]. cbn [fst snd] in H10, H11, Hg1, H20, H21.
  destruct (next g1) as [r2 g2]. cbn [fst] in H20, H21.
  destruct st.
  - destruct (Js.Qltb r1 (3 # 10)); [|exact Hkeep].
    assert (Hpos : 0 <= Js.floor (r2 * inject_Z (Js.strlen nm - 1))%Q
                   < Js.strlen nm - 1).
    { apply scaled_floor_range; [exact H20 | exact H21 |]. unfold Js.strlen. lia. }
    destruct (String.get _ nm) as [char|]; [|exact Hkeep].
    destruct (Js.includesChar consonants char); [|exact Hkeep].
    apply Hins.
    assert (Hs : Js.strlen nm = Z.of_nat (S (String.length rest))) by reflexivity.
    lia.
  - exact Hkeep.
  - destruct (Js.Qltb r1 (2 # 10) && (Js.strlen nm >? 4)) eqn:Hc; [|exact Hkeep].
    apply andb_prop in Hc. destruct Hc as [_ H4]. apply Z.gtb_lt in H4.
    assert (Hpos : 0 <= Js.floor (r2 * inject_Z (Js.strlen nm - 2))%Q
                   < Js.strlen nm - 2).
    { apply scaled_floor_range; [exact H20 | exact H21 | lia]. }
    apply Hins.
    assert (Hs : Js.strlen nm = Z.of_nat (S (String.length rest))) by reflexivity.
    lia.
Qed.

(** X5: the name generated for a valid barcode has between 4 and 11
    characters (two to five syllables of two characters, and at most one
    character added by the styling) and starts with a capital letter. *)
Theorem generateCreatureName_shape (b : string) :
  validateBarcode b = true ->
  exists first rest,
    generateCreatureName b = Some (String first rest)
    /\ (65 <= nat_of_ascii first <= 90)%nat
    /\ (4 <= String.length (String first rest) <= 11)%nat.
Proof.
  intros Hv. unfold generateCreatureName.
  destruct (generateSeed_valid b (validateBarcode_allDigits b Hv)) as [seed [-> Hseed]].
  pose proof (createSeededRandom_nonneg seed Hseed) as Hg0.
  destruct (next_value_range _ Hg0) as [Hr0 Hr1].
  pose proof (next_in_range _ Hg0) as Hg1.
  destruct (next (createSeededRandom seed)) as [r1 random1].
  cbn [fst snd] in Hr0, Hr1, Hg1.
  destruct (index_in_range namePatterns
              (Js.floor (r1 * inject_Z (Z.of_nat (List.length namePatterns)))%Q))
    as [pattern Hpattern].
  { apply scaled_floor_range; [exact Hr0 | exact Hr1 | reflexivity]. }
  rewrite Hpattern. apply index_In in Hpattern.
  destruct (next_value_range _ Hg1) as [Hs0 Hs1].
  pose proof (next_in_range _ Hg1) as Hg2.
  destruct (next random1) as [r2 random2]. cbn [fst snd] in Hs0, Hs1, Hg2.
  set (nameLength :=
         minLength pattern
         + Js.floor (r2 * inject_Z (maxLength pattern - minLength pattern + 1))%Q).
  assert (Hnl : 2 <= nameLength <= 5).
  { assert (Hfl : 0 <= Js.floor (r2 * inject_Z 2)%Q < 2)
      by (apply scaled_floor_range; [exact Hs0 | exact Hs1 | lia]).
    subst nameLength.
    destruct Hpattern as [<- | [<- | [<- | []]]]; cbn [minLength maxLength];
      match goal with
      | |- context [inject_Z ?z] => change z with 2
      end; lia. }
  destruct (appendSyllables_shape (Z.to_nat nameLength) nameLength EmptyString []
              random2 Hg2) as [Hlen [Hg3 [_ Hhead]]].
  destruct (Hhead eq_refl ltac:(lia)) as [a [rest0 [Hname Ha]]].
  destruct (appendSyllables (Z.to_nat nameLength) nameLength EmptyString [] random2)
    as [nm random3].
  cbn [fst snd] in Hlen, Hg3, Hname. subst nm.
  cbn [String.length] in Hlen.
  destruct (applyNameStyling_shape a rest0 (style pattern) random3 Hg3 ltac:(lia))
    as [rest' [-> Hrest]].
  cbn [capitalize]. exists (Js.toUpperCase a), rest'.
  split; [reflexivity|]. split.
  - unfold Js.toUpperCase.
    destruct (Nat.leb_spec 97 (nat_of_ascii a)); [|lia].
    destruct (Nat.leb_spec (nat_of_ascii a) 122); [|lia]. cbn [andb].
    rewrite nat_ascii_embedding by lia. lia.
  - cbn [String.length]. lia.
Qed.

Lemma generateCreatureName_shape_witness :
  validateBarcode "12345678" = true
  /\ exists first rest,
       generateCreatureName "12345678" = Some (String first rest)
       /\ (65 <= nat_of_ascii first <= 90)%nat
       /\ (4 <= String.length (String first rest) <= 11)%nat.
Proof.
  split; [reflexivity|]. apply (generateCreatureName_shape "12345678"). reflexivity.
Defined.

End NameShape.

(** ** The collection *)

Section CollectionProperties.

Import CreatureManager Collection CollectionSpec.

Lemma idEqb_eq (a b : CreatureId) : idEqb a b = true <-> a = b.
Proof.
  unfold idEqb. destruct a as [sa [na da]], b as [sb [nb db]].
  cbn [stamp salt Qnum Qden].
  rewrite !andb_true_iff, !Z.eqb_eq, Pos.eqb_eq. split.
  - intros [[-> ->] ->]. reflexivity.
  - intros [= -> -> ->]. auto.
Qed.

Lemma idEqb_refl (a : CreatureId) : idEqb a a = true.
Proof. apply idEqb_eq. reflexivity. Qed.

Lemma idEqb_neq (a b : CreatureId) : a <> b -> idEqb a b = false.
Proof.
  intros Hne. destruct (idEqb a b) eqn:H; [|reflexivity].
  apply idEqb_eq in H. contradiction.
Qed.


Lemma get_None (cs : list (CreatureId * Creature)) (k : CreatureId) :
  get cs k = None <-> ~ In k (List.map fst cs).
Proof.
  induction cs as [|[k' c'] rest IH]; cbn [get List.map fst In]; [tauto|].
  destruct (idEqb k' k) eqn:Hk.
  - apply idEqb_eq in Hk. split; [discriminate | intros H; exfalso; apply H; left; exact Hk].
  - rewrite IH. split.
    + intros Hn [He | Hin]; [|contradiction].
      subst. rewrite idEqb_refl in Hk. discriminate.
    + intros Hn Hin. apply Hn. right. exact Hin.
Qed.

Lemma In_get (cs : list (CreatureId * Creature)) (k : CreatureId) (c : Creature) :
  UniqueIds cs -> In (k, c) cs -> get cs k = Some c.
Proof.
  unfold UniqueIds.
  induction cs as [|[k' c'] rest IH]; cbn [get List.map fst In]; [contradiction|].
  intros Hnd [He | Hin].
  - injection He as -> ->. rewrite idEqb_refl. reflexivity.
  - inversion Hnd as [|? ? Hnotin Hnd']; subst.
    destruct (idEqb k' k) eqn:Hk.
    + apply idEqb_eq in Hk. subst. exfalso. apply Hnotin.
      apply (in_map fst) in Hin. exact Hin.
    + apply IH; assumption.
Qed.

Lemma get_set_same (cs : list (CreatureId * Creature)) (k : CreatureId) (c : Creature) :
  get (set cs k c) k = Some c.
Proof.
  induction cs as [|[k' c'] rest IH]; cbn [set get].
  - rewrite idEqb_refl. reflexivity.
  - destruct (idEqb k' k) eqn:Hk; cbn [get]; rewrite Hk; [reflexivity | exact IH].
Qed.

Lemma get_set_other (cs : list (CreatureId * Creature)) (k k' : CreatureId)
  (c : Creature) :
  k' <> k -> get (set cs k c) k' = get cs k'.
Proof.
  intros Hne. induction cs as [|[k0 c0] rest IH]; cbn [set get].
  - rewrite idEqb_neq by congruence. reflexivity.
  - destruct (idEqb k0 k) eqn:Hk; cbn [get].
    + apply idEqb_eq in Hk. subst k0. rewrite idEqb_neq by congruence. reflexivity.
    + destruct (idEqb k0 k'); [reflexivity | exact IH].
Qed.

Lemma get_update_other (cs : list (CreatureId * Creature)) (k k' : CreatureId)
  (c : Creature) :
  k' <> k -> get (update cs k c) k' = get cs k'.
Proof.
  intros Hne. induction cs as [|[k0 c0] rest IH]; cbn [update get]; [reflexivity|].
  destruct (idEqb k0 k) eqn:Hk; cbn [get].
  - apply idEqb_eq in Hk. subst k0. rewrite idEqb_neq by congruence. reflexivity.
  - destruct (idEqb k0 k'); [reflexivity | exact IH].
Qed.


Lemma In_delete (cs : list (CreatureId * Creature)) (k : CreatureId)
  (e : CreatureId * Creature) :
  In e (delete cs k) -> In e cs.
Proof.
  induction cs as [|[k' c'] rest IH]; cbn [delete]; [tauto|].
  destruct (idEqb k' k); cbn [In]; [tauto|].
  intros [<- | Hin]; [left; reflexivity | right; apply IH; exact Hin].
Qed.




Lemma delete_NoDup {B : Type} (f : CreatureId * Creature -> B)
  (cs : list (CreatureId * Creature)) (k : CreatureId) :
  NoDup (List.map f cs) -> NoDup (List.map f (delete cs k)).
Proof.
  induction cs as [|[k' c'] rest IH]; cbn [delete List.map]; [tauto|].
  intros Hnd. inversion Hnd as [|? ? Hnotin Hnd']; subst.
  destruct (idEqb k' k); [exact Hnd'|]. cbn [List.map]. constructor.
  - intros Hin. apply Hnotin. apply in_map_iff in Hin.
    destruct Hin as [e [He Hin]]. apply in_map_iff. exists e.
    split; [exact He | apply (In_delete _ k); exact Hin].
  - apply IH. exact Hnd'.
Qed.



Lemma findCreatureByBarcode_None (m : Manager) (b : string) :
  findCreatureByBarcode m b = None
  <-> forall e, In e (creatures m) -> barcode (snd e) <> b.
Proof.
  unfold findCreatureByBarcode. split.
  - intros Hnone e Hin Heq.
    pose proof (find_none _ _ Hnone (snd e) (in_map snd _ _ Hin)) as Hf.
    cbn beta in Hf. rewrite Heq, String.eqb_refl in Hf. discriminate.
  - intros Hall.
    destruct (find _ _) as [c|] eqn:Hfind; [|reflexivity].
    apply find_some in Hfind. destruct Hfind as [Hin Heq].
    apply in_map_iff in Hin. destruct Hin as [e [<- Hin]].
    apply String.eqb_eq in Heq. exfalso. exact (Hall e Hin Heq).
Qed.


Lemma isValidCreature_iff (c : Creature) :
  DataValidation.isValidCreature c = true
  <-> (DataValidation.isValidBarcode (barcode c) = true
       /\ 1 <= level c /\ 0 <= experience c
       /\ 0 <= hp (stats c) <= maxHp (stats c)
       /\ 0 <= attack (stats c) /\ 0 <= defense (stats c) /\ 0 <= speed (stats c)).
Proof.
  unfold DataValidation.isValidCreature, DataValidation.isValidCreatureStats.
  destruct (DataValidation.isValidBarcode (barcode c)); cbn [negb];
    [|split; [discriminate | intros [H _]; discriminate H]].
  destruct (Z.ltb_spec (level c) 1); [split; [discriminate | lia]|].
  destruct (Z.ltb_spec (experience c) 0); [split; [discriminate | lia]|].
  destruct (Z.ltb_spec (hp (stats c)) 0); [split; [discriminate | lia]|].
  destruct (Z.ltb_spec (maxHp (stats c)) 0); [split; [discriminate | lia]|].
  destruct (Z.ltb_spec (attack (stats c)) 0); [split; [discriminate | lia]|].
  destruct (Z.ltb_spec (defense (stats c)) 0); [split; [discriminate | lia]|].
  destruct (Z.ltb_spec (speed (stats c)) 0); [split; [discriminate | lia]|].
  rewrite Z.leb_le. split; [intros; repeat split; try reflexivity; lia | lia].
Qed.

(** [updateStatsForLevel] on a valid creature: the stats of the barcode at
    the creature's level, hit points in proportion, everything else kept. *)
Lemma updateStatsForLevel_keeps (c c' : Creature) :
  DataValidation.isValidCreature c = true ->
  updateStatsForLevel c = Some c' ->
  exists base,
    BarcodeProcessor.calculateStats (barcode c) = Some base
    /\ 0 < maxHp (stats c)
    /\ c' = setStats c
              (mkStats (Z.max 1 (Js.floor
                                   (Js.mul (inject_Z (GameUtils.calculateStatAtLevel
                                                        (maxHp base) (level c)))
                                           (Js.div (inject_Z (hp (stats c)))
                                                   (inject_Z (maxHp (stats c)))))))
                       (GameUtils.calculateStatAtLevel (maxHp base) (level c))
                       (GameUtils.calculateStatAtLevel (attack base) (level c))
                       (GameUtils.calculateStatAtLevel (defense base) (level c))
                       (GameUtils.calculateStatAtLevel (speed base) (level c)))
    /\ DataValidation.isValidCreature c' = true
    /\ 1 <= hp (stats c')
    /\ (hp (stats c) = maxHp (stats c) -> hp (stats c') = maxHp (stats c')).
Proof.
  intros Hvalid Hrun.
  destruct (isValidCreature_fields c Hvalid) as [Hd [Hlvl [Hexp Hhp]]].
  apply isValidCreature_iff in Hvalid.
  destruct Hvalid as [Hbar [_ [_ [_ [Hatk [Hdef Hspd]]]]]].
  destruct (calculateStats_digits (barcode c) Hd)
    as [base [Hbase [Hb1 [Hb2 [Hb3 [Hb4 Hb5]]]]]].
  exists base. split; [exact Hbase|].
  revert Hrun. unfold updateStatsForLevel. rewrite Hbase.
  destruct (Z.eqb_spec (maxHp (stats c)) 0) as [H0 | Hne]; [discriminate|].
  assert (Hmax : 0 < maxHp (stats c)) by lia.
  intros [= <-].
  split; [exact Hmax|]. split; [reflexivity|].
  set (newMax := GameUtils.calculateStatAtLevel (maxHp base) (level c)).
  assert (HnewMax : 80 <= newMax).
  { subst newMax. unfold GameUtils.calculateStatAtLevel,
      GameConstants.STAT_GROWTH_PER_LEVEL. lia. }
  pose proof (keptHp_range newMax (hp (stats c)) (maxHp (stats c)) Hhp Hmax
                ltac:(lia)) as Hq.
  split.
  - apply isValidCreature_iff. unfold setStats.
    cbn [barcode level experience stats hp maxHp attack defense speed].
    unfold GameUtils.calculateStatAtLevel, GameConstants.STAT_GROWTH_PER_LEVEL in *.
    repeat split; try assumption; lia.
  - unfold setStats. cbn [stats hp maxHp]. split; [lia|].
    intros Hfull. rewrite Hfull, keptHp_full by lia. lia.
Qed.

Lemma isValidCreature_setLevel (c : Creature) (l : Z) :
  DataValidation.isValidCreature c = true -> 1 <= l ->
  DataValidation.isValidCreature (setLevel c l) = true.
Proof.
  rewrite !isValidCreature_iff. unfold setLevel.
  cbn [barcode level experience stats]. tauto.
Qed.

Lemma isValidCreature_setExperience (c : Creature) (e : Z) :
  DataValidation.isValidCreature c = true -> 0 <= e ->
  DataValidation.isValidCreature (setExperience c e) = true.
Proof.
  rewrite !isValidCreature_iff. unfold setExperience.
  cbn [barcode level experience stats]. tauto.
Qed.

Lemma isValidCreature_setExperienceToNext (c : Creature) (e : Z) :
  DataValidation.isValidCreature c = true ->
  DataValidation.isValidCreature (setExperienceToNext c e) = true.
Proof.
  rewrite !isValidCreature_iff. unfold setExperienceToNext.
  cbn [barcode level experience stats]. tauto.
Qed.

Lemma isValidCreature_countBattle (c : Creature) (won : bool) :
  DataValidation.isValidCreature c = true ->
  DataValidation.isValidCreature (countBattle c won) = true.
Proof.
  rewrite !isValidCreature_iff. unfold countBattle.
  cbn [barcode level experience stats]. tauto.
Qed.

(** What one pass of the loop of [checkLevelUp] keeps. *)
Lemma levelUpOnce_keeps (c c' : Creature) :
  DataValidation.isValidCreature c = true ->
  experienceToNext c <= experience c ->
  levelUpOnce c = Some c' ->
  barcode c' = barcode c /\ id c' = id c /\ name c' = name c
  /\ battlesWon c' = battlesWon c /\ battlesLost c' = battlesLost c
  /\ level c' = level c + 1
  /\ DataValidation.isValidCreature c' = true
  /\ 1 <= hp (stats c') <= maxHp (stats c')
  /\ (hp (stats c) = maxHp (stats c) -> hp (stats c') = maxHp (stats c')).
Proof.
  intros Hvalid Hge. unfold levelUpOnce.
  set (c2 := setLevel (setExperience c (experience c - experienceToNext c))
                      (level (setExperience c (experience c - experienceToNext c)) + 1)).
  assert (Hv2 : DataValidation.isValidCreature c2 = true).
  { apply isValidCreature_setLevel.
    - apply isValidCreature_setExperience; [exact Hvalid | lia].
    - destruct (isValidCreature_fields c Hvalid) as [_ [Hl _]]. cbn [level setExperience]. lia. }
  destruct (updateStatsForLevel c2) as [c3|] eqn:Hup; [|discriminate].
  intros [= <-].
  destruct (updateStatsForLevel_keeps c2 c3 Hv2 Hup)
    as [base [_ [_ [-> [Hv3 [Hhp Hfull]]]]]].
  apply isValidCreature_setExperienceToNext
    with (e := GameUtils.calculateExperienceToNext (level c2)) in Hv3.
  pose proof Hv3 as Hv3'. apply isValidCreature_iff in Hv3'.
  cbn [setExperienceToNext setStats setLevel setExperience c2 barcode id name level
       stats hp maxHp battlesWon battlesLost] in *.
  repeat split; try reflexivity; try lia; try exact Hv3.
Qed.

Lemma checkLevelUpLoop_keeps :
  forall fuel c lu lg out c' r out',
    DataValidation.isValidCreature c = true ->
    checkLevelUpLoop fuel c lu lg out = Returned (c', r, out') ->
    barcode c' = barcode c /\ id c' = id c /\ name c' = name c
    /\ battlesWon c' = battlesWon c /\ battlesLost c' = battlesLost c
    /\ level c <= level c'
    /\ DataValidation.isValidCreature c' = true
    /\ (hp (stats c) = maxHp (stats c) -> hp (stats c') = maxHp (stats c')).
Proof.
  induction fuel as [|fuel IH]; intros c lu lg out c' r out' Hvalid;
    cbn [checkLevelUpLoop]; [discriminate|].
  destruct (Z.geb_spec (experience c) (experienceToNext c)) as [Hge | Hlt].
  - destruct (levelUpOnce c) as [c1|] eqn:Hone; [|discriminate].
    destruct (levelUpOnce_keeps c c1 Hvalid Hge Hone)
      as [Hb [Hi [Hn [Hw [Hl [Hlv [Hv1 [_ Hfull]]]]]]]].
    destruct (lg + 1 >? 50).
    + intros [= <- <- <-]. repeat split; try assumption; lia.
    + intros Hrun. apply IH in Hrun; [|exact Hv1].
      destruct Hrun as [Hb' [Hi' [Hn' [Hw' [Hl' [Hlv' [Hv' Hfull']]]]]]].
      repeat split; try congruence; try lia; auto.
  - intros [= <- <- <-]. repeat split; try reflexivity; try assumption; lia.
Qed.

(** What [awardExperience] does to the Map: nothing, or it replaces the
    creature under the given id by one of the same barcode and id. *)
Lemma awardExperience_keeps (cid : CreatureId) (xp : Z) (m m' : Manager)
  (c : Creature) (r : AwardResult) :
  get (creatures m) cid = Some c ->
  DataValidation.isValidCreature c = true ->
  awardExperience cid xp m = Returned (r, m') ->
  (xp < 0 /\ creatures m' = creatures m)
  \/ (0 <= xp
      /\ exists c',
           creatures m' = update (creatures m) cid c'
           /\ barcode c' = barcode c /\ id c' = id c /\ name c' = name c
           /\ battlesWon c' = battlesWon c /\ battlesLost c' = battlesLost c
           /\ level c <= level c'
           /\ DataValidation.isValidCreature c' = true
           /\ (hp (stats c) = maxHp (stats c) -> hp (stats c') = maxHp (stats c'))).
Proof.
  intros Hget Hvalid. unfold awardExperience. rewrite Hget.
  destruct (Z.ltb_spec xp 0) as [Hneg | Hpos].
  - intros [= <- <-]. left. split; [exact Hneg | reflexivity].
  - unfold checkLevelUp.
    destruct (checkLevelUpLoop _ _ _ _ _) as [| |[[c2 lr] out]] eqn:Hloop;
      try discriminate.
    intros [= <- <-]. right. split; [exact Hpos|]. exists c2.
    split; [reflexivity|].
    apply checkLevelUpLoop_keeps in Hloop.
    + cbn [setExperience barcode id name battlesWon battlesLost level stats] in Hloop.
      exact Hloop.
    + apply isValidCreature_setExperience; [exact Hvalid|].
      destruct (isValidCreature_fields c Hvalid) as [_ [_ [He _]]]. lia.
Qed.


(** X6: [addCreature] refuses a creature that fails
    [DataValidation.isValidCreature] and a creature whose barcode is already
    in the collection, and then changes nothing.  Otherwise the creature can
    be read back under its id and is the one found for its barcode, and
    every other id reads as before. *)
Theorem addCreature_result (creature : Creature) (m : Manager) :
  (fst (addCreature creature m) = true
   <-> (DataValidation.isValidCreature creature = true
        /\ forall e, In e (creatures m) -> barcode (snd e) <> barcode creature))
  /\ (fst (addCreature creature m) = false -> snd (addCreature creature m) = m)
  /\ (fst (addCreature creature m) = true ->
      getCreature (snd (addCreature creature m)) (id creature) = Some creature
      /\ findCreatureByBarcode (snd (addCreature creature m)) (barcode creature)
         = Some creature
      /\ forall k, k <> id creature ->
           getCreature (snd (addCreature creature m)) k = getCreature m k).
Proof.
  unfold addCreature.
  destruct (DataValidation.isValidCreature creature) eqn:Hvalid; cbn [negb].
  - destruct (findCreatureByBarcode m (barcode creature)) as [found|] eqn:Hfind.
    + cbn [fst snd]. split; [|split; [reflexivity | discriminate]].
      split; [discriminate|]. intros [_ Hnone].
      apply findCreatureByBarcode_None in Hnone. congruence.
    + cbn [fst snd]. pose proof Hfind as Hnone.
      rewrite findCreatureByBarcode_None in Hnone.
      split; [split; [intros _; split; [reflexivity | exact Hnone] | reflexivity]|].
      split; [discriminate|]. intros _.
      unfold getCreature. cbn [creatures].
      split; [apply get_set_same|].
      split; [|intros k Hk; apply get_set_other; exact Hk].
      unfold findCreatureByBarcode. cbn [creatures].
      clear Hfind. induction (creatures m) as [|[k0 c0] rest IH]; cbn [set].
      * rewrite idEqb_refl || cbn [List.map snd find].
        cbn [List.map snd find]. rewrite String.eqb_refl. reflexivity.
      * destruct (idEqb k0 (id creature)); cbn [List.map snd find].
        -- rewrite String.eqb_refl. reflexivity.
        -- destruct (String.eqb_spec (barcode c0) (barcode creature)) as [Heq | _].
           ++ exfalso. apply (Hnone (k0, c0)); [left; reflexivity | exact Heq].
           ++ apply IH. intros e Hin. apply Hnone. right. exact Hin.
  - cbn [fst snd]. split; [|split; [reflexivity | discriminate]].
    split; [discriminate | intros [H _]; discriminate H].
Qed.




Lemma updateStatsForLevel_some (c : Creature) :
  DataValidation.isValidCreature c = true ->
  0 < maxHp (stats c) ->
  exists c', updateStatsForLevel c = Some c'.
Proof.
  intros Hvalid Hmax.
  destruct (isValidCreature_fields c Hvalid) as [Hd _].
  destruct (calculateStats_digits (barcode c) Hd) as [base [Hbase _]].
  unfold updateStatsForLevel. rewrite Hbase.
  destruct (Z.eqb_spec (maxHp (stats c)) 0); [lia|]. eexists. reflexivity.
Qed.


Lemma checkLevelUpLoop_positive :
  forall fuel c lu lg out c' r out',
    DataValidation.isValidCreature c = true ->
    0 < maxHp (stats c) ->
    checkLevelUpLoop fuel c lu lg out = Returned (c', r, out') ->
    0 < maxHp (stats c').
Proof.
  induction fuel as [|fuel IH]; intros c lu lg out c' r out' Hvalid Hmax;
    cbn [checkLevelUpLoop]; [discriminate|].
  destruct (Z.geb_spec (experience c) (experienceToNext c)) as [Hge | Hlt].
  - destruct (levelUpOnce c) as [c1|] eqn:Hone; [|discriminate].
    destruct (levelUpOnce_keeps c c1 Hvalid Hge Hone)
      as [_ [_ [_ [_ [_ [_ [Hv1 [Hhp1 _]]]]]]]].
    destruct (lg + 1 >? 50).
    + intros [= <- <- <-]. lia.
    + apply IH; [exact Hv1 | lia].
  - intros [= <- <- <-]. exact Hmax.
Qed.


(** The loop of [checkLevelUp] returns for a valid creature with a positive
    maximum of hit points. *)
Lemma checkLevelUp_returns (c : Creature) (out : list ConsoleEntry) :
  DataValidation.isValidCreature c = true ->
  0 < maxHp (stats c) ->
  exists res, checkLevelUp c out = Returned res.
Proof.
  intros Hvalid Hmax.
  destruct (isValidCreature_fields c Hvalid) as [Hd [Hlvl _]].
  destruct (calculateStats_digits (barcode c) Hd)
    as [base [Hbase [Hb [_ [_ [_ Hbmax]]]]]].
  destruct (checkLevelUpLoop_spec base ltac:(lia) checkLevelUpFuel c false 0 out
              Hbase Hmax ltac:(lia) ltac:(lia) ltac:(cbn; lia))
    as [k [_ [Hrun _]]].
  eexists. exact Hrun.
Qed.







Lemma get_delete_same (cs : list (CreatureId * Creature)) (k : CreatureId) :
  UniqueIds cs -> get (delete cs k) k = None.
Proof.
  unfold UniqueIds.
  induction cs as [|[k' c'] rest IH]; cbn [delete List.map fst]; intros Hnd;
    [reflexivity|].
  inversion Hnd as [|? ? Hnotin Hnd']; subst.
  destruct (idEqb k' k) eqn:Hk.
  - apply idEqb_eq in Hk. subst k'. apply get_None. exact Hnotin.
  - cbn [get]. rewrite Hk. apply IH. exact Hnd'.
Qed.

Lemma get_delete_other (cs : list (CreatureId * Creature)) (k k' : CreatureId) :
  k' <> k -> get (delete cs k) k' = get cs k'.
Proof.
  intros Hne. induction cs as [|[k0 c0] rest IH]; cbn [delete get]; [reflexivity|].
  destruct (idEqb k0 k) eqn:Hk; cbn [get].
  - apply idEqb_eq in Hk. subst k0. rewrite idEqb_neq by congruence. reflexivity.
  - destruct (idEqb k0 k'); [reflexivity | exact IH].
Qed.

(** X8: after [removeCreature] the id reads as null and every other id
    reads as before; it returns false, and leaves the collection as it is,
    exactly when the id was not in the collection. *)
Theorem removeCreature_result (cid : CreatureId) (m : Manager) :
  UniqueIds (creatures m) ->
  (fst (removeCreature cid m) = true <-> getCreature m cid <> None)
  /\ getCreature (snd (removeCreature cid m)) cid = None
  /\ (forall k, k <> cid ->
        getCreature (snd (removeCreature cid m)) k = getCreature m k)
  /\ (fst (removeCreature cid m) = false ->
      creatures (snd (removeCreature cid m)) = creatures m)
  /\ UniqueIds (creatures (snd (removeCreature cid m))).
Proof.
  intros Hids. unfold removeCreature, getCreature.
  destruct (get (creatures m) cid) as [c|] eqn:Hget; cbn [fst snd creatures].
  - split; [split; [discriminate | reflexivity]|].
    split; [apply get_delete_same; exact Hids|].
    split; [intros k Hk; apply get_delete_other; exact Hk|].
    split; [discriminate | apply delete_NoDup; exact Hids].
  - split; [split; [discriminate | intros H; contradiction]|].
    split; [exact Hget|]. split; [reflexivity|]. split; [reflexivity | exact Hids].
Qed.

Lemma removeCreature_result_witness :
  UniqueIds (creatures MoreSamples.pair)
  /\ getCreature (snd (removeCreature (id Samples.ivarno) MoreSamples.pair))
       (id Samples.ivarno) = None
  /\ getCreature (snd (removeCreature (id Samples.ivarno) MoreSamples.pair))
       (id MoreSamples.tuka) = Some MoreSamples.tuka.
Proof.
  assert (Hids : UniqueIds (creatures MoreSamples.pair)).
  { unfold UniqueIds. cbn. repeat constructor; cbn; intuition discriminate. }
  split; [exact Hids|].
  destruct (removeCreature_result (id Samples.ivarno) MoreSamples.pair Hids)
    as [_ [Hgone [Hrest _]]].
  split; [exact Hgone|].
  rewrite Hrest; [reflexivity | discriminate].
Defined.

(** X9: [awardExperience] reports a failure exactly when the id is not in
    the collection ("Creature not found") or the amount is negative
    ("Invalid experience amount"), and a failure leaves every creature of
    the collection as it was. *)
Theorem awardExperience_failure_cases (cid : CreatureId) (xp : Z) (m : Manager) :
  (getCreature m cid = None ->
   exists m',
     awardExperience cid xp m = Returned (AwardFailure "Creature not found", m')
     /\ creatures m' = creatures m)
  /\ (getCreature m cid <> None -> xp < 0 ->
      exists m',
        awardExperience cid xp m
        = Returned (AwardFailure "Invalid experience amount", m')
        /\ creatures m' = creatures m)
  /\ (forall msg m',
        awardExperience cid xp m = Returned (AwardFailure msg, m') ->
        (getCreature m cid = None \/ xp < 0) /\ creatures m' = creatures m).
Proof.
  unfold getCreature, awardExperience.
  destruct (get (creatures m) cid) as [c|] eqn:Hget.
  - split; [discriminate|]. split.
    + intros _ Hneg. destruct (Z.ltb_spec xp 0); [|lia].
      eexists. split; reflexivity.
    + intros msg m'. destruct (Z.ltb_spec xp 0) as [Hneg | Hpos].
      * intros [= <- <-]. split; [right; exact Hneg | reflexivity].
      * destruct (checkLevelUp _ _) as [| |[[c2 lr] out]]; discriminate.
  - split; [intros _; eexists; split; reflexivity|].
    split; [intros H; contradiction|].
    intros msg m' [= <- <-]. split; [left; reflexivity | reflexivity].
Qed.

(** X10: for a valid creature of the collection with a positive maximum
    of hit points and a level below 2^53, [awardExperience] returns; the
    award never lowers the level, keeps the creature's id, name, barcode and
    battle counters, leaves the hit points between 0 and the maximum, which
    stays positive, keeps a creature at full health at full health, and
    touches no other creature of the collection. *)
Theorem awardExperience_keeps_health (cid : CreatureId) (xp : Z) (m : Manager)
  (c : Creature) :
  getCreature m cid = Some c ->
  DataValidation.isValidCreature c = true ->
  0 < maxHp (stats c) ->
  level c < 2 ^ 53 ->
  exists r m' c',
    awardExperience cid xp m = Returned (r, m')
    /\ getCreature m' cid = Some c'
    /\ id c' = id c /\ name c' = name c /\ barcode c' = barcode c
    /\ battlesWon c' = battlesWon c /\ battlesLost c' = battlesLost c
    /\ level c <= level c'
    /\ 0 <= hp (stats c') <= maxHp (stats c')
    /\ 0 < maxHp (stats c')
    /\ (hp (stats c) = maxHp (stats c) -> hp (stats c') = maxHp (stats c'))
    /\ (forall k, k <> cid -> getCreature m' k = getCreature m k).
Proof.
  unfold getCreature. intros Hget Hvalid Hmax _.
  unfold awardExperience. rewrite Hget.
  destruct (isValidCreature_fields c Hvalid) as [_ [_ [He Hhp]]].
  destruct (Z.ltb_spec xp 0) as [Hneg | Hnonneg].
  - do 2 eexists. exists c. split; [reflexivity|]. cbn [creatures].
    split; [exact Hget|]. repeat split; try reflexivity; try lia; auto.
  - assert (Hv1 : DataValidation.isValidCreature
                    (setExperience c (experience c + xp)) = true)
      by (apply isValidCreature_setExperience; [exact Hvalid | lia]).
    destruct (checkLevelUp_returns (setExperience c (experience c + xp)) (console m)
                Hv1 Hmax) as [[[c2 lr] out] Hloop].
    rewrite Hloop. do 2 eexists. exists c2. split; [reflexivity|]. cbn [creatures].
    split; [apply (get_update _ _ c); exact Hget|].
    pose proof (checkLevelUpLoop_positive _ _ _ _ _ _ _ _ Hv1 Hmax Hloop) as Hpos'.
    apply checkLevelUpLoop_keeps in Hloop; [|exact Hv1].
    cbn [setExperience barcode id name battlesWon battlesLost level stats] in Hloop.
    destruct Hloop as [Hb [Hi [Hn [Hw [Hl [Hlv [Hv Hfull]]]]]]].
    destruct (isValidCreature_fields c2 Hv) as [_ [_ [_ Hhp2]]].
    repeat split; try assumption; try lia;
      try (intros k Hk; apply get_update_other; exact Hk).
Qed.

Lemma awardExperience_keeps_health_witness :
  getCreature Samples.collection (id Samples.ivarno) = Some Samples.ivarno
  /\ DataValidation.isValidCreature Samples.ivarno = true
  /\ 0 < maxHp (stats Samples.ivarno)
  /\ level Samples.ivarno < 2 ^ 53
  /\ exists r m' c',
       awardExperience (id Samples.ivarno) 250 Samples.collection = Returned (r, m')
       /\ getCreature m' (id Samples.ivarno) = Some c'
       /\ level Samples.ivarno <= level c'
       /\ hp (stats c') = maxHp (stats c').
Proof.
  split; [reflexivity|]. split; [reflexivity|]. split; [reflexivity|].
  split; [cbn; lia|].
  destruct (awardExperience_keeps_health (id Samples.ivarno) 250 Samples.collection
              Samples.ivarno eq_refl eq_refl eq_refl ltac:(cbn; lia))
    as [r [m' [c' [Hrun [Hget [_ [_ [_ [_ [_ [Hl [_ [_ [Hfull _]]]]]]]]]]]]]].
  exists r, m', c'. split; [exact Hrun|]. split; [exact Hget|].
  split; [exact Hl|]. apply Hfull. reflexivity.
Defined.

End CollectionProperties.

(** ** Direct level-ups, battle counters and the win rate *)

Section DirectLevelUp.

Import CreatureManager Collection CollectionSpec.

(** What [levelUpCreature] returns and stores for a creature of the
    collection, in terms of the creature before. *)
Lemma levelUpCreature_spec (cid : CreatureId) (levels : Z) (m : Manager)
  (c : Creature) :
  get (creatures m) cid = Some c ->
  DataValidation.isValidCreature c = true ->
  0 < maxHp (stats c) ->
  1 <= levels ->
  exists base,
    BarcodeProcessor.calculateStats (barcode c) = Some base
    /\ 80 <= maxHp base
    /\ let newStats :=
         mkStats (Z.max 1 (Js.floor
                             (Js.mul (inject_Z (GameUtils.calculateStatAtLevel
                                                  (maxHp base) (level c + levels)))
                                     (Js.div (inject_Z (hp (stats c)))
                                             (inject_Z (maxHp (stats c)))))))
                 (GameUtils.calculateStatAtLevel (maxHp base) (level c + levels))
                 (GameUtils.calculateStatAtLevel (attack base) (level c + levels))
                 (GameUtils.calculateStatAtLevel (defense base) (level c + levels))
                 (GameUtils.calculateStatAtLevel (speed base) (level c + levels)) in
       let c' :=
         setExperienceToNext (setStats (setLevel c (level c + levels)) newStats)
           (GameUtils.calculateExperienceToNext (level c + levels)) in
       levelUpCreature cid levels m
       = Returned (LevelUpSuccess (level c) (level c + levels) levels (stats c) newStats
                     (calculateStatGains (stats c) newStats),
                   mkManager (update (creatures m) cid c') (console m))
       /\ DataValidation.isValidCreature c' = true
       /\ 1 <= hp newStats <= maxHp newStats
       /\ (hp (stats c) = maxHp (stats c) -> hp newStats = maxHp newStats).
Proof.
  intros Hget Hvalid Hmax Hlevels.
  destruct (isValidCreature_fields c Hvalid) as [Hd [Hl _]].
  assert (Hv1 : DataValidation.isValidCreature (setLevel c (level c + levels)) = true)
    by (apply isValidCreature_setLevel; [exact Hvalid | lia]).
  destruct (updateStatsForLevel_some _ Hv1 Hmax) as [c2 Hup].
  destruct (updateStatsForLevel_keeps _ c2 Hv1 Hup)
    as [base [Hbase [_ [Hc2 [Hv2 [Hhp Hfull]]]]]].
  destruct (calculateStats_digits (barcode c) Hd) as [base' [Hbase' [Hb _]]].
  cbn [setLevel barcode] in Hbase. rewrite Hbase in Hbase'. injection Hbase' as <-.
  assert (Hb80 : 80 <= maxHp base).
  { destruct (calculateStats_digits (barcode c) Hd) as [b2 [Hb2 [Hr [_ [_ [_ He]]]]]].
    rewrite Hbase in Hb2. injection Hb2 as <-. lia. }
  exists base. split; [exact Hbase|]. split; [exact Hb80|]. cbv zeta.
  unfold levelUpCreature. rewrite Hget.
  destruct (Z.ltb_spec levels 1); [lia|]. rewrite Hup, Hc2.
  cbn [setLevel setStats setExperienceToNext level stats hp maxHp] in *.
  split; [reflexivity|].
  split; [apply isValidCreature_setExperienceToNext with (e := GameUtils.calculateExperienceToNext (level c + levels)) in Hv2; rewrite Hc2 in Hv2; exact Hv2|].
  rewrite Hc2 in Hhp, Hfull.
  pose proof Hv2 as Hv2'. rewrite Hc2 in Hv2'. apply isValidCreature_iff in Hv2'.
  cbn [setLevel setStats setExperienceToNext level stats hp maxHp] in *.
  split; [lia | exact Hfull].
Qed.



(** X12: two direct level-ups in a row, by [a] and then by [b] levels, end
    at the same level, threshold, experience and four stats as one level-up
    by [a + b]; for a creature at full health the two stored creatures are
    the same in every field. *)
Theorem levelUpCreature_composes (cid : CreatureId) (a b : Z) (m : Manager)
  (c : Creature) :
  getCreature m cid = Some c ->
  DataValidation.isValidCreature c = true ->
  0 < maxHp (stats c) ->
  1 <= a -> 1 <= b ->
  exists r1 m1 r2 m2 r12 m12 c2 c12,
    levelUpCreature cid a m = Returned (r1, m1)
    /\ levelUpCreature cid b m1 = Returned (r2, m2)
    /\ levelUpCreature cid (a + b) m = Returned (r12, m12)
    /\ getCreature m2 cid = Some c2
    /\ getCreature m12 cid = Some c12
    /\ level c2 = level c12
    /\ experience c2 = experience c12
    /\ experienceToNext c2 = experienceToNext c12
    /\ maxHp (stats c2) = maxHp (stats c12)
    /\ attack (stats c2) = attack (stats c12)
    /\ defense (stats c2) = defense (stats c12)
    /\ speed (stats c2) = speed (stats c12)
    /\ (hp (stats c) = maxHp (stats c) -> c2 = c12).
Proof.
  unfold getCreature. intros Hget Hvalid Hmax Ha Hb.
  destruct (levelUpCreature_spec cid a m c Hget Hvalid Hmax Ha)
    as [base [Hbase [Hb80 [Hrun1 [Hv1 [Hhp1 Hfull1]]]]]].
  cbv zeta in Hrun1, Hv1, Hhp1, Hfull1.
  set (s1 := mkStats _ _ _ _ _) in Hrun1, Hv1, Hhp1, Hfull1.
  set (c1 := setExperienceToNext _ _) in Hrun1, Hv1.
  set (m1 := mkManager (update (creatures m) cid c1) (console m)) in Hrun1.
  assert (Hget1 : get (creatures m1) cid = Some c1)
    by (apply (get_update _ _ c); exact Hget).
  assert (Hmax1 : 0 < maxHp (stats c1)) by (cbn [c1 setExperienceToNext setStats stats]; lia).
  destruct (levelUpCreature_spec cid b m1 c1 Hget1 Hv1 Hmax1 Hb)
    as [base1 [Hbase1 [_ [Hrun2 [_ [Hhp2 Hfull2]]]]]].
  cbn [c1 setExperienceToNext setStats setLevel barcode] in Hbase1.
  rewrite Hbase in Hbase1. injection Hbase1 as <-.
  destruct (levelUpCreature_spec cid (a + b) m c Hget Hvalid Hmax ltac:(lia))
    as [base12 [Hbase12 [_ [Hrun12 [_ [Hhp12 Hfull12]]]]]].
  rewrite Hbase in Hbase12. injection Hbase12 as <-.
  cbv zeta in Hrun2, Hrun12, Hhp2, Hfull2, Hhp12, Hfull12.
  do 8 eexists.
  split; [exact Hrun1|]. split; [exact Hrun2|]. split; [exact Hrun12|].
  cbn [creatures].
  split; [apply (get_update _ _ c1); exact Hget1|].
  split; [apply (get_update _ _ c); exact Hget|].
  cbn [c1 s1 setExperienceToNext setStats setLevel level experience experienceToNext
       stats hp maxHp attack defense speed] in *.
  rewrite <- !Z.add_assoc.
  repeat split; try reflexivity.
  intros Hfull. specialize (Hfull1 Hfull). specialize (Hfull12 Hfull).
  specialize (Hfull2 Hfull1).
  rewrite <- !Z.add_assoc in Hfull2. rewrite Hfull2, Hfull12. reflexivity.
Qed.

Lemma levelUpCreature_composes_witness :
  getCreature Samples.collection (id Samples.ivarno) = Some Samples.ivarno
  /\ DataValidation.isValidCreature Samples.ivarno = true
  /\ 0 < maxHp (stats Samples.ivarno)
  /\ 1 <= 2 /\ 1 <= 3
  /\ exists r1 m1 r2 m2 r12 m12 c2 c12,
       levelUpCreature (id Samples.ivarno) 2 Samples.collection = Returned (r1, m1)
       /\ levelUpCreature (id Samples.ivarno) 3 m1 = Returned (r2, m2)
       /\ levelUpCreature (id Samples.ivarno) (2 + 3) Samples.collection
          = Returned (r12, m12)
       /\ getCreature m2 (id Samples.ivarno) = Some c2
       /\ getCreature m12 (id Samples.ivarno) = Some c12
       /\ c2 = c12.
Proof.
  split; [reflexivity|]. split; [reflexivity|]. split; [reflexivity|].
  split; [lia|]. split; [lia|].
  destruct (levelUpCreature_composes (id Samples.ivarno) 2 3 Samples.collection
              Samples.ivarno eq_refl eq_refl eq_refl ltac:(lia) ltac:(lia))
    as [r1 [m1 [r2 [m2 [r12 [m12 [c2 [c12 [H1 [H2 [H3 [H4 [H5 H6]]]]]]]]]]]]].
  exists r1, m1, r2, m2, r12, m12, c2, c12.
  repeat split; try assumption.
  apply H6. reflexivity.
Defined.

(** X13: [updateBattleStats] counts the battle exactly once, as a win or as
    a loss, whatever the experience.  With an amount of 0 or less nothing
    else changes: no level-up is applied even when the stored experience
    has reached the threshold, and a negative amount is not reported. *)
Theorem updateBattleStats_counts_once (cid : CreatureId) (won : bool) (xp : Z)
  (m m' : Manager) (c : Creature) (r : bool) :
  getCreature m cid = Some c ->
  DataValidation.isValidCreature c = true ->
  updateBattleStats cid won xp m = Returned (r, m') ->
  r = true
  /\ exists c',
       getCreature m' cid = Some c'
       /\ battlesWon c' = battlesWon c + (if won then 1 else 0)
       /\ battlesLost c' = battlesLost c + (if won then 0 else 1)
       /\ level c <= level c'
       /\ (xp <= 0 -> c' = countBattle c won /\ console m' = console m)
       /\ forall k, k <> cid -> getCreature m' k = getCreature m k.
Proof.
  unfold getCreature, updateBattleStats. intros Hget Hvalid. rewrite Hget.
  set (cb := countBattle c won).
  assert (Hcb : battlesWon cb = battlesWon c + (if won then 1 else 0)
                /\ battlesLost cb = battlesLost c + (if won then 0 else 1)
                /\ level cb = level c).
  { subst cb. unfold countBattle. cbn [battlesWon battlesLost level].
    destruct won; repeat split; lia. }
  destruct Hcb as [Hw [Hl Hlv]].
  destruct (Z.gtb_spec xp 0) as [Hpos | Hnone].
  - destruct (awardExperience cid xp _) as [| |[r2 m2]] eqn:Haward; try discriminate.
    intros [= <- <-]. split; [reflexivity|].
    pose proof (get_update (creatures m) cid c cb Hget) as Hget1.
    destruct (awardExperience_keeps cid xp
                (mkManager (update (creatures m) cid cb) (console m)) m2 cb r2
                Hget1 (isValidCreature_countBattle c won Hvalid) Haward)
      as [[Hneg _] | [_ [c' [Hupd [_ [_ [_ [Hw' [Hl' [Hlv' _]]]]]]]]]]; [lia|].
    exists c'. rewrite Hupd. cbn [creatures].
    split; [apply (get_update _ _ cb); exact Hget1|].
    repeat split; try lia.
    intros k Hk. rewrite !get_update_other by exact Hk. reflexivity.
  - intros [= <- <-]. split; [reflexivity|]. exists cb. cbn [creatures console].
    split; [apply (get_update _ _ c); exact Hget|].
    repeat split; try lia.
    intros k Hk. apply get_update_other. exact Hk.
Qed.

Lemma updateBattleStats_counts_once_witness :
  getCreature Samples.collection (id Samples.ivarno) = Some Samples.ivarno
  /\ DataValidation.isValidCreature Samples.ivarno = true
  /\ exists m',
       updateBattleStats (id Samples.ivarno) true (-5) Samples.collection
       = Returned (true, m')
       /\ getCreature m' (id Samples.ivarno) = Some (countBattle Samples.ivarno true).
Proof.
  split; [reflexivity|]. split; [reflexivity|].
  eexists. split; [reflexivity|].
  destruct (updateBattleStats_counts_once (id Samples.ivarno) true (-5)
              Samples.collection _ Samples.ivarno true eq_refl eq_refl eq_refl)
    as [_ [c' [Hget [_ [_ [_ [Hsame _]]]]]]].
  destruct (Hsame ltac:(lia)) as [-> _]. exact Hget.
Defined.

(** X14: for counters that are not negative the win rate lies between 0
    and 1, and it is 0 for a creature without battles. *)
Theorem calculateWinRate_range (c : Creature) :
  0 <= battlesWon c -> 0 <= battlesLost c ->
  (0 <= calculateWinRate c)%Q /\ (calculateWinRate c <= 1)%Q
  /\ (battlesWon c + battlesLost c = 0 -> calculateWinRate c = 0%Q).
Proof.
  intros Hw Hl. unfold calculateWinRate.
  destruct (Z.gtb_spec (battlesWon c + battlesLost c) 0) as [Hpos | Hzero].
  - assert (Ht : (0 < inject_Z (battlesWon c + battlesLost c))%Q)
      by (change 0%Q with (inject_Z 0); rewrite <- Zlt_Qlt; lia).
    split; [|split; [|lia]].
    + apply Qle_shift_div_l; [exact Ht|]. rewrite Qmult_0_l.
      change 0%Q with (inject_Z 0). rewrite <- Zle_Qle. exact Hw.
    + apply Qle_shift_div_r; [exact Ht|]. rewrite Qmult_1_l.
      rewrite <- Zle_Qle. lia.
  - split; [apply Qle_refl|]. split; [discriminate | reflexivity].
Qed.

Lemma calculateWinRate_range_witness :
  0 <= battlesWon MoreSamples.tuka /\ 0 <= battlesLost MoreSamples.tuka
  /\ (0 <= calculateWinRate MoreSamples.tuka)%Q
  /\ (calculateWinRate MoreSamples.tuka <= 1)%Q.
Proof.
  split; [cbn; lia|]. split; [cbn; lia|].
  destruct (calculateWinRate_range MoreSamples.tuka ltac:(cbn; lia) ltac:(cbn; lia))
    as [H0 [H1 _]].
  split; assumption.
Defined.

End DirectLevelUp.

(** ** The second CreatureManager class *)

Section SecondManager.

Import CreatureManager LevelingSpec.

Lemma levelUpLoop_more_fuel (fuel : nat) :
  forall fuel' c lu res,
    (fuel <= fuel')%nat ->
    SimpleCreatureManager.levelUpLoop fuel c lu = Some res ->
    SimpleCreatureManager.levelUpLoop fuel' c lu = Some res.
Proof.
  induction fuel as [|fuel IH]; intros fuel' c lu res Hle;
    cbn [SimpleCreatureManager.levelUpLoop]; [discriminate|].
  destruct fuel' as [|fuel']; [lia|]. cbn [SimpleCreatureManager.levelUpLoop].
  destruct (experience c >=? experienceToNext c); [|tauto].
  apply IH. lia.
Qed.

(** On a creature that is at its level's stats and at full health, one pass
    of either loop does the same. *)
Lemma levelUpOnce_levelUpStep (base : CreatureStats) (c : Creature) :
  AtLevel base c -> 80 <= maxHp base -> 1 <= level c ->
  levelUpOnce c = Some (SimpleCreatureManager.levelUpStep c)
  /\ AtLevel base (SimpleCreatureManager.levelUpStep c)
  /\ level (SimpleCreatureManager.levelUpStep c) = level c + 1
  /\ name (SimpleCreatureManager.levelUpStep c) = name c.
Proof.
  intros [Hbase [Hfull [Hm [Ha [Hd Hs]]]]] Hb80 Hl.
  unfold GameUtils.calculateStatAtLevel, GameConstants.STAT_GROWTH_PER_LEVEL in *.
  assert (Hmax : 0 < maxHp (stats c)) by lia.
  rewrite (levelUpOnce_rule base c Hbase Hmax ltac:(lia)).
  unfold Spec.levelUpRule, SimpleCreatureManager.levelUpStep,
    SimpleCreatureManager.increaseCreatureStats, setExperienceToNext, setStats,
    setLevel, setExperience, AtLevel, GameUtils.calculateStatAtLevel,
    GameConstants.STAT_GROWTH_PER_LEVEL.
  cbn [barcode level stats experience experienceToNext id name discoveryDate
       battlesWon battlesLost isOpponent difficultyBonuses hp maxHp attack defense speed].
  rewrite calculateExperienceToNext_formula by lia.
  rewrite Hfull, keptHp_full by lia.
  split.
  - rewrite Hm, Ha, Hd, Hs. do 2 f_equal. f_equal; lia.
  - repeat split; try assumption; try lia.
Qed.

Lemma checkLevelUpLoop_levelUpLoop (base : CreatureStats) :
  80 <= maxHp base ->
  forall fuel c lu lg out c' r out',
    AtLevel base c -> 1 <= level c -> 0 <= lg -> lu = (0 <? lg) ->
    checkLevelUpLoop fuel c lu lg out = Returned (c', r, out') ->
    level c' = level c + (levelsGained r - lg)
    /\ leveledUp r = (0 <? levelsGained r)
    /\ (levelsGained r <= 50 ->
        SimpleCreatureManager.levelUpLoop fuel c lu = Some (c', leveledUp r)).
Proof.
  intros Hb80.
  induction fuel as [|fuel IH]; intros c lu lg out c' r out' Hat Hl Hlg Hlu;
    cbn [checkLevelUpLoop SimpleCreatureManager.levelUpLoop]; [discriminate|].
  destruct (experience c >=? experienceToNext c).
  - destruct (levelUpOnce_levelUpStep base c Hat Hb80 Hl) as [-> [Hat' [Hl' _]]].
    destruct (Z.gtb_spec (lg + 1) 50) as [Hcap | Hgo].
    + intros [= <- <- <-]. cbn [levelsGained leveledUp].
      split; [lia|]. split; [|lia].
      symmetry. apply Z.ltb_lt. lia.
    + intros Hrun. apply IH in Hrun; [|exact Hat' | lia | lia |].
      * destruct Hrun as [Hlev [Hflag Hloop]].
        split; [lia|]. split; [exact Hflag | exact Hloop].
      * symmetry. apply Z.ltb_lt. lia.
  - intros [= <- <- <-]. cbn [levelsGained leveledUp].
    split; [lia|]. split; [exact Hlu | reflexivity].
Qed.

(** X15: for a creature at full health whose stats are those of its
    barcode at its level, the two leveling implementations agree: unless
    the first one stops at its 51st level-up, the second
    [levelUpCreature] stores exactly the creature that [awardExperience]
    stores for the same amount, and returns whether a level was gained. *)
Theorem leveling_implementations_agree (fuel : nat) (cid : CreatureId) (xp : Z)
  (m m' : Manager) (c : Creature) (base : CreatureStats)
  (oldLevel newLevel gained : Z) (oldStats newStats : CreatureStats)
  (gains : StatGains) :
  get (creatures m) cid = Some c ->
  DataValidation.isValidCreature c = true ->
  AtLevel base c ->
  awardExperience cid xp m
  = Returned (AwardSuccess xp oldLevel newLevel gained oldStats newStats gains, m') ->
  gained <= 50 ->
  (52 <= fuel)%nat ->
  SimpleCreatureManager.levelUpCreature fuel cid xp (creatures m)
  = Some (0 <? gained, creatures m').
Proof.
  intros Hget Hvalid Hat Hrun Hgained Hfuel.
  destruct (isValidCreature_fields c Hvalid) as [Hd [Hl _]].
  assert (Hb80 : 80 <= maxHp base).
  { destruct (calculateStats_digits (barcode c) Hd) as [b [Hb [Hr [_ [_ [_ He]]]]]].
    destruct Hat as [Hbase _]. rewrite Hbase in Hb. injection Hb as <-. lia. }
  revert Hrun. unfold awardExperience, SimpleCreatureManager.levelUpCreature,
    SimpleCreatureManager.getCreature. rewrite Hget.
  destruct (xp <? 0); [discriminate|].
  unfold checkLevelUp.
  destruct (checkLevelUpLoop _ _ _ _ _) as [| |[[c2 lr] out]] eqn:Hloop;
    try discriminate.
  intros [= <- <- <- <- <- <- <-].
  apply (checkLevelUpLoop_levelUpLoop base Hb80) in Hloop.
  - destruct Hloop as [Hlev [Hflag Hsame]].
    cbn [setExperience level] in Hlev.
    rewrite (levelUpLoop_more_fuel checkLevelUpFuel fuel _ _ (c2, leveledUp lr)).
    + cbn [creatures]. rewrite Hflag. do 3 f_equal. lia.
    + exact Hfuel.
    + apply Hsame. lia.
  - destruct Hat as [H1 [H2 [H3 [H4 [H5 H6]]]]]. repeat split; assumption.
  - cbn [setExperience level]. exact Hl.
  - lia.
  - reflexivity.
Qed.

Lemma leveling_implementations_agree_witness :
  exists m',
    get (creatures Samples.collection) (id Samples.ivarno) = Some Samples.ivarno
    /\ DataValidation.isValidCreature Samples.ivarno = true
    /\ AtLevel (mkStats 80 80 48 48 53) Samples.ivarno
    /\ awardExperience (id Samples.ivarno) 250 Samples.collection
       = Returned (AwardSuccess 250 1 3 2 (mkStats 80 80 48 48 53)
                     (mkStats 90 90 58 58 63) (mkStatGains 10 10 10 10), m')
    /\ 2 <= 50 /\ (52 <= 60)%nat
    /\ SimpleCreatureManager.levelUpCreature 60 (id Samples.ivarno) 250
         (creatures Samples.collection)
       = Some (0 <? 2, creatures m').
Proof.
  eexists.
  split; [reflexivity|]. split; [reflexivity|].
  split; [repeat split; vm_compute; reflexivity|].
  split; [vm_compute; reflexivity|].
  split; [lia|]. split; [lia|].
  apply (leveling_implementations_agree 60 (id Samples.ivarno) 250 Samples.collection _
           Samples.ivarno (mkStats 80 80 48 48 53) 1 3 2 (mkStats 80 80 48 48 53)
           (mkStats 90 90 58 58 63) (mkStatGains 10 10 10 10)).
  - reflexivity.
  - reflexivity.
  - repeat split; vm_compute; reflexivity.
  - vm_compute. reflexivity.
  - lia.
  - lia.
Defined.

(** Every generated creature is at its level's stats and at full health. *)
Lemma generateCreature_AtLevel (b : string) (w : World) (c : Creature) :
  fst (BarcodeProcessor.generateCreature b w) = Some c ->
  exists base, AtLevel base c.
Proof.
  intros Hgen.
  destruct (BarcodeProcessor.validateBarcode b) eqn:Hv.
  - destruct (generateCreature_valid b Hv) as [st [nm [Hst [_ Hall]]]].
    destruct (Hall w) as [c0 [Hc0 [Hs [_ [Hb [Hl _]]]]]].
    rewrite Hgen in Hc0. injection Hc0 as <-.
    destruct (calculateStats_digits b (validateBarcode_allDigits b Hv))
      as [st' [Hst' [_ [_ [_ [_ Hfull]]]]]].
    rewrite Hst in Hst'. injection Hst' as <-.
    exists st. unfold AtLevel, GameUtils.calculateStatAtLevel. rewrite Hb, Hs, Hl.
    repeat split; try assumption; try lia.
  - unfold BarcodeProcessor.generateCreature in Hgen. rewrite Hv in Hgen.
    discriminate Hgen.
Qed.

(** The loop of the second [levelUpCreature] once the stored threshold is
    at least 100: it returns, after [n] passes, when the fuel exceeds a
    hundredth of the experience. *)
Lemma levelUpLoop_returns :
  forall fuel c lu,
    0 <= level c -> 100 <= experienceToNext c ->
    experience c < 100 * Z.of_nat fuel -> (1 <= fuel)%nat ->
    exists c' n,
      SimpleCreatureManager.levelUpLoop fuel c lu
      = Some (c', match n with O => lu | S _ => true end)
      /\ experience c' < experienceToNext c'
      /\ level c' = level c + Z.of_nat n
      /\ maxHp (stats c') = maxHp (stats c) + 5 * Z.of_nat n
      /\ attack (stats c') = attack (stats c) + 5 * Z.of_nat n
      /\ defense (stats c') = defense (stats c) + 5 * Z.of_nat n
      /\ speed (stats c') = speed (stats c) + 5 * Z.of_nat n
      /\ ((1 <= n)%nat -> hp (stats c') = maxHp (stats c'))
      /\ (n = O -> c' = c)
      /\ barcode c' = barcode c /\ id c' = id c.
Proof.
  induction fuel as [|fuel IH]; intros c lu Hl Ht He Hf; [lia|].
  cbn [SimpleCreatureManager.levelUpLoop].
  destruct (Z.geb_spec (experience c) (experienceToNext c)) as [Hge | Hlt].
  - set (c1 := SimpleCreatureManager.levelUpStep c).
    assert (Hc1 : level c1 = level c + 1
                  /\ experience c1 = experience c - experienceToNext c
                  /\ experienceToNext c1 = GameUtils.calculateExperienceToNext (level c + 1)
                  /\ maxHp (stats c1) = maxHp (stats c) + 5
                  /\ hp (stats c1) = maxHp (stats c1)
                  /\ attack (stats c1) = attack (stats c) + 5
                  /\ defense (stats c1) = defense (stats c) + 5
                  /\ speed (stats c1) = speed (stats c) + 5
                  /\ barcode c1 = barcode c /\ id c1 = id c).
    { subst c1. unfold SimpleCreatureManager.levelUpStep,
        SimpleCreatureManager.increaseCreatureStats, setExperienceToNext, setStats,
        setLevel, setExperience, GameConstants.STAT_GROWTH_PER_LEVEL.
      cbn [level experience experienceToNext stats hp maxHp attack defense speed
           barcode id].
      repeat split; reflexivity. }
    destruct Hc1 as [H1 [H2 [H3 [H4 [H5 [H6 [H7 [H8 [H9 H10]]]]]]]]].
    pose proof (calculateExperienceToNext_pos (level c + 1) ltac:(lia)) as Hpos.
    destruct (IH c1 true) as [c' [n [Hrun [Hdone [Hlev [Hm [Ha [Hd [Hs [Hfull [Hzero [Hb Hi]]]]]]]]]]]];
      try lia.
    exists c', (S n). split; [rewrite Hrun; destruct n; reflexivity|].
    split; [exact Hdone|].
    repeat split; try lia; try congruence.
    intros _. destruct n as [|n]; [rewrite (Hzero eq_refl); exact H5 | apply Hfull; lia].
  - exists c, O. cbn [Z.of_nat]. repeat split; try reflexivity; lia.
Qed.

(** X16: the second [levelUpCreature], whose loop has no bound of its own,
    returns for every amount of experience: with enough fuel it stores a
    creature whose experience is below its threshold, [n] levels higher,
    with [5 n] added to each of the four stats and, when [n >= 1], at full
    health; it returns true exactly when [n >= 1]. *)
Theorem simple_levelUpCreature_returns (cid : CreatureId) (xp : Z)
  (cs : SimpleCreatureManager.Creatures) (c : Creature) :
  SimpleCreatureManager.getCreature cs cid = Some c ->
  0 <= level c ->
  exists fuel0, forall fuel, (fuel0 <= fuel)%nat ->
    exists c' n,
      SimpleCreatureManager.levelUpCreature fuel cid xp cs
      = Some (match n with O => false | S _ => true end, update cs cid c')
      /\ experience c' < experienceToNext c'
      /\ level c' = level c + Z.of_nat n
      /\ maxHp (stats c') = maxHp (stats c) + 5 * Z.of_nat n
      /\ attack (stats c') = attack (stats c) + 5 * Z.of_nat n
      /\ defense (stats c') = defense (stats c) + 5 * Z.of_nat n
      /\ speed (stats c') = speed (stats c) + 5 * Z.of_nat n
      /\ ((1 <= n)%nat -> hp (stats c') = maxHp (stats c'))
      /\ (n = O -> c' = setExperience c (experience c + xp)).
Proof.
  intros Hget Hl.
  exists (S (S (Z.to_nat (experience c + xp - experienceToNext c)))).
  intros fuel Hfuel.
  unfold SimpleCreatureManager.levelUpCreature. rewrite Hget.
  set (c0 := setExperience c (experience c + xp)).
  destruct fuel as [|fuel]; [lia|].
  cbn [SimpleCreatureManager.levelUpLoop].
  destruct (Z.geb_spec (experience c0) (experienceToNext c0)) as [Hge | Hlt].
  - set (c1 := SimpleCreatureManager.levelUpStep c0).
    assert (Hc1 : level c1 = level c + 1
                  /\ experience c1 = experience c + xp - experienceToNext c
                  /\ experienceToNext c1 = GameUtils.calculateExperienceToNext (level c + 1)
                  /\ maxHp (stats c1) = maxHp (stats c) + 5
                  /\ hp (stats c1) = maxHp (stats c1)
                  /\ attack (stats c1) = attack (stats c) + 5
                  /\ defense (stats c1) = defense (stats c) + 5
                  /\ speed (stats c1) = speed (stats c) + 5).
    { subst c1 c0. unfold SimpleCreatureManager.levelUpStep,
        SimpleCreatureManager.increaseCreatureStats, setExperienceToNext, setStats,
        setLevel, setExperience, GameConstants.STAT_GROWTH_PER_LEVEL.
      cbn [level experience experienceToNext stats hp maxHp attack defense speed].
      repeat split; reflexivity. }
    destruct Hc1 as [H1 [H2 [H3 [H4 [H5 [H6 [H7 H8]]]]]]].
    pose proof (calculateExperienceToNext_pos (level c + 1) ltac:(lia)) as Hpos.
    destruct (levelUpLoop_returns fuel c1 true)
      as [c' [n [Hrun [Hdone [Hlev [Hm [Ha [Hd [Hs [Hfull [Hzero _]]]]]]]]]]];
      try lia.
    exists c', (S n). rewrite Hrun.
    split; [destruct n; reflexivity|]. split; [exact Hdone|].
    repeat split; try lia.
    intros _. destruct n as [|n]; [rewrite (Hzero eq_refl); exact H5 | apply Hfull; lia].
  - exists c0, O. cbn [Z.of_nat].
    split; [reflexivity|]. split; [exact Hlt|].
    subst c0. cbn [setExperience level stats].
    repeat split; try reflexivity; lia.
Qed.

Lemma simple_levelUpCreature_returns_witness :
  SimpleCreatureManager.getCreature (creatures Samples.collection) (id Samples.ivarno)
  = Some Samples.ivarno
  /\ 0 <= level Samples.ivarno
  /\ exists fuel0, forall fuel, (fuel0 <= fuel)%nat ->
       exists c' n,
         SimpleCreatureManager.levelUpCreature fuel (id Samples.ivarno) 1000000000000
           (creatures Samples.collection)
         = Some (match n with O => false | S _ => true end,
                 update (creatures Samples.collection) (id Samples.ivarno) c')
         /\ experience c' < experienceToNext c'.
Proof.
  split; [reflexivity|]. split; [cbn; lia|].
  destruct (simple_levelUpCreature_returns (id Samples.ivarno) 1000000000000
              (creatures Samples.collection) Samples.ivarno eq_refl ltac:(cbn; lia))
    as [fuel0 Hall].
  exists fuel0. intros fuel Hfuel.
  destruct (Hall fuel Hfuel) as [c' [n [Hrun [Hdone _]]]].
  exists c', n. split; assumption.
Defined.

(** X17: the second [levelUpCreature] does not test the sign of the amount.
    For an amount that keeps the experience below the threshold it stores
    the sum and returns false; when the sum is negative the stored creature
    no longer passes [DataValidation.isValidCreature]. *)
Theorem simple_levelUpCreature_accepts_negative (fuel : nat) (cid : CreatureId)
  (xp : Z) (cs : SimpleCreatureManager.Creatures) (c : Creature) :
  SimpleCreatureManager.getCreature cs cid = Some c ->
  experience c + xp < experienceToNext c ->
  (1 <= fuel)%nat ->
  SimpleCreatureManager.levelUpCreature fuel cid xp cs
  = Some (false, update cs cid (setExperience c (experience c + xp)))
  /\ SimpleCreatureManager.getCreature
       (update cs cid (setExperience c (experience c + xp))) cid
     = Some (setExperience c (experience c + xp))
  /\ (experience c + xp < 0 ->
      DataValidation.isValidCreature (setExperience c (experience c + xp)) = false).
Proof.
  intros Hget Hlt Hfuel.
  unfold SimpleCreatureManager.levelUpCreature. rewrite Hget.
  destruct fuel as [|fuel]; [lia|]. cbn [SimpleCreatureManager.levelUpLoop].
  cbn [setExperience experience experienceToNext].
  destruct (Z.geb_spec (experience c + xp) (experienceToNext c)); [lia|].
  split; [reflexivity|].
  split; [apply (get_update _ _ c); exact Hget|].
  intros Hneg. unfold DataValidation.isValidCreature.
  cbn [setExperience barcode level experience stats].
  destruct (negb _); [reflexivity|].
  destruct (level c <? 1); [reflexivity|].
  destruct (Z.ltb_spec (experience c + xp) 0); [reflexivity | lia].
Qed.

Lemma simple_levelUpCreature_accepts_negative_witness :
  SimpleCreatureManager.getCreature (creatures Samples.collection) (id Samples.ivarno)
  = Some Samples.ivarno
  /\ experience Samples.ivarno + (-30) < experienceToNext Samples.ivarno
  /\ (1 <= 5)%nat
  /\ SimpleCreatureManager.levelUpCreature 5 (id Samples.ivarno) (-30)
       (creatures Samples.collection)
     = Some (false,
             update (creatures Samples.collection) (id Samples.ivarno)
               (setExperience Samples.ivarno (experience Samples.ivarno + (-30))))
  /\ DataValidation.isValidCreature
       (setExperience Samples.ivarno (experience Samples.ivarno + (-30))) = false.
Proof.
  split; [reflexivity|]. split; [cbn; lia|]. split; [lia|].
  destruct (simple_levelUpCreature_accepts_negative 5 (id Samples.ivarno) (-30)
              (creatures Samples.collection) Samples.ivarno eq_refl
              ltac:(cbn; lia) ltac:(lia))
    as [Hrun [_ Hinvalid]].
  split; [exact Hrun|]. apply Hinvalid. cbn. lia.
Defined.

End SecondManager.

(** ** Difficulty selection, progress and persistence *)

Section ProgressionProperties.

Import DifficultyManager Progression ProgressionSpec.

Lemma difficultyEqb_eq (a b : Difficulty) : difficultyEqb a b = true <-> a = b.
Proof. destruct a, b; cbn; split; intros H; try reflexivity; discriminate H. Qed.

Lemma existsb_difficulty (d : Difficulty) (l : list Difficulty) :
  existsb (difficultyEqb d) l = true <-> In d l.
Proof.
  rewrite existsb_exists. split.
  - intros [x [Hin Heq]]. apply difficultyEqb_eq in Heq. subst. exact Hin.
  - intros Hin. exists d. split; [exact Hin | apply difficultyEqb_eq; reflexivity].
Qed.

Lemma Consistent_unlock (current : Difficulty) (m : Manager) (d : Difficulty) :
  Consistent current (unlockedDifficulties m) ->
  Consistent current (unlockedDifficulties (unlockDifficulty m d)).
Proof.
  intros [Hc [He Hn]]. unfold unlockDifficulty, isDifficultyUnlocked.
  destruct (existsb (difficultyEqb d) (unlockedDifficulties m)) eqn:Hd;
    cbn [unlockedDifficulties]; [repeat split; assumption|].
  split; [rewrite existsb_app, Hc; reflexivity|].
  split; [rewrite existsb_app, He; reflexivity|].
  apply NoDup_app; [exact Hn | constructor; [intros [] | constructor] |].
  intros x Hin [<- | []].
  apply existsb_difficulty in Hin. congruence.
Qed.

Lemma checkDifficultyUnlocks_consistent (m m' : Manager) (msg : string) :
  Consistent (currentDifficulty m) (unlockedDifficulties m) ->
  (checkDifficultyUnlocks m = Ok tt m' \/ checkDifficultyUnlocks m = Throw msg m') ->
  Consistent (currentDifficulty m') (unlockedDifficulties m').
Proof.
  intros Hc. unfold checkDifficultyUnlocks.
  destruct (battleStats m) as [bs|]; [|intros [H | [= _ <-]]; [discriminate H | exact Hc]].
  intros [[= <-] | H]; [|discriminate H].
  set (m1 := if negb (isDifficultyUnlocked m medium) then _ else m).
  assert (H1 : Consistent (currentDifficulty m1) (unlockedDifficulties m1)
                /\ currentDifficulty m1 = currentDifficulty m).
  { subst m1. destruct (negb _); [|split; [exact Hc | reflexivity]].
    destruct (_ >=? _); [|split; [exact Hc | reflexivity]].
    destruct (unlockDifficulty_keeps m medium) as [_ Hcur].
    split; [rewrite Hcur; apply Consistent_unlock; exact Hc | exact Hcur]. }
  destruct H1 as [H1 Hcur1].
  destruct (negb (isDifficultyUnlocked m1 hard)); [|exact H1].
  destruct (_ && _); [|exact H1].
  destruct (unlockDifficulty_keeps m1 hard) as [_ Hcur].
  rewrite Hcur. apply Consistent_unlock. exact H1.
Qed.

Lemma recordBattleResult_consistent (r : option BattleResult) (m : Manager) :
  Consistent (currentDifficulty m) (unlockedDifficulties m) ->
  forall m' msg,
    (recordBattleResult r m = Ok tt m' \/ recordBattleResult r m = Throw msg m') ->
    Consistent (currentDifficulty m') (unlockedDifficulties m').
Proof.
  intros Hc m' msg. unfold recordBattleResult.
  destruct r as [res|]; [|intros [[= <-] | H]; [exact Hc | discriminate H]].
  destruct (won res) as [isWin|]; [|intros [[= <-] | H]; [exact Hc | discriminate H]].
  destruct (match battleStats m with Some bs' => bs' | None => _ end) as [|e md h].
  - intros [H | [= _ <-]]; [discriminate H | exact Hc].
  - match goal with
    | |- context [checkDifficultyUnlocks ?x] => set (m1 := x)
    end.
    assert (Hc1 : Consistent (currentDifficulty m1) (unlockedDifficulties m1))
      by exact Hc.
    destruct (checkDifficultyUnlocks m1) as [[] m2 | msg2 m2] eqn:Hcheck.
    + intros [[= <-] | H]; [|discriminate H]. cbn [currentDifficulty unlockedDifficulties].
      apply (checkDifficultyUnlocks_consistent m1 m2 msg Hc1). left. exact Hcheck.
    + intros [H | [= _ <-]]; [discriminate H|].
      apply (checkDifficultyUnlocks_consistent m1 m2 msg2 Hc1). right. exact Hcheck.
Qed.

Lemma Consistent_create (saved : option ProgressData) :
  (forall p, saved = Some p -> Consistent (savedDifficulty p) (savedUnlocked p)) ->
  Consistent (currentDifficulty (create saved)) (unlockedDifficulties (create saved)).
Proof.
  intros Hs. unfold create, loadProgress. destruct saved as [p|].
  - destruct (Hs p eq_refl) as [Hc [He Hn]]. cbn [currentDifficulty unlockedDifficulties].
    rewrite He. repeat split; assumption.
  - cbn. repeat split; try reflexivity. repeat constructor. intros [].
Qed.

(** X18: from the first start of the game on, whatever is called on the
    manager (selecting, recording, unlocking, resetting) and however often
    the game is restarted from local storage, the current difficulty is
    always an unlocked one, easy stays unlocked and no difficulty is listed
    twice; this also holds in the state an error leaves behind, and for
    what local storage holds. *)
Theorem difficulty_stays_consistent (calls : list Call) :
  let s := finalSession (afterCalls calls firstStart) in
  Consistent (currentDifficulty (manager s)) (unlockedDifficulties (manager s))
  /\ forall p, storage s = Some p -> Consistent (savedDifficulty p) (savedUnlocked p).
Proof.
  cbv zeta.
  assert (Hgen : forall cs s,
            Consistent (currentDifficulty (manager s)) (unlockedDifficulties (manager s)) ->
            (forall p, storage s = Some p ->
                       Consistent (savedDifficulty p) (savedUnlocked p)) ->
            let s' := finalSession (afterCalls cs s) in
            Consistent (currentDifficulty (manager s')) (unlockedDifficulties (manager s'))
            /\ forall p, storage s' = Some p ->
                         Consistent (savedDifficulty p) (savedUnlocked p)).
  { induction cs as [|c cs IH]; intros s Hm Hst; cbn [afterCalls finalSession].
    - split; assumption.
    - assert (Hsaved : forall m0,
                Consistent (currentDifficulty m0) (unlockedDifficulties m0) ->
                forall p, storage (saved m0) = Some p ->
                          Consistent (savedDifficulty p) (savedUnlocked p)).
      { intros m0 H0 p [= <-]. exact H0. }
      destruct c as [difficulty | r | d | |]; cbn [afterCall].
      + unfold setDifficulty.
        destruct (parseDifficulty difficulty) as [d|]; [|apply IH; assumption].
        destruct (isDifficultyUnlocked (manager s) d) eqn:Hd; cbn [negb];
          [|apply IH; assumption].
        destruct Hm as [_ [He Hn]].
        assert (H1 : Consistent d (unlockedDifficulties (manager s)))
          by (repeat split; assumption).
        apply IH; [exact H1 | apply Hsaved; exact H1].
      + destruct (recordBattleResult r (manager s)) as [[] m' | msg m'] eqn:Hrec.
        * assert (H1 : Consistent (currentDifficulty m') (unlockedDifficulties m'))
            by (apply (recordBattleResult_consistent r (manager s) Hm m' EmptyString);
                left; exact Hrec).
          destruct (isResult r); apply IH; try exact H1; try exact Hst.
          apply Hsaved. exact H1.
        * cbn [finalSession manager storage]. split; [|exact Hst].
          apply (recordBattleResult_consistent r (manager s) Hm m' msg).
          right. exact Hrec.
      + apply IH; [|exact Hst]. cbn [manager].
        destruct (unlockDifficulty_keeps (manager s) d) as [_ Hcur]. rewrite Hcur.
        apply Consistent_unlock. exact Hm.
      + assert (H1 : Consistent (currentDifficulty (resetProgress (manager s)))
                       (unlockedDifficulties (resetProgress (manager s)))).
        { cbn. repeat split; try reflexivity. repeat constructor. intros []. }
        apply IH; [exact H1 | apply Hsaved; exact H1].
      + apply IH; [|exact Hst]. cbn [manager]. apply Consistent_create. exact Hst. }
  apply Hgen.
  - cbn. repeat split; try reflexivity. repeat constructor. intros [].
  - intros p H. discriminate H.
Qed.

(** X19: what a restart makes of a saved manager.  The current difficulty,
    the unlocked difficulties and the counters that exist come back as they
    were.  Counters that did not exist yet come back as an empty object:
    the manager that could record its first result before the restart
    throws a TypeError on every result after it. *)
Theorem saveProgress_loadProgress (m : Manager) :
  let m' := create (Some (saveProgress m)) in
  currentDifficulty m' = currentDifficulty m
  /\ (forall d, isDifficultyUnlocked m' d
                = isDifficultyUnlocked m d || difficultyEqb d easy)
  /\ (isDifficultyUnlocked m easy = true ->
      unlockedDifficulties m' = unlockedDifficulties m)
  /\ getTotalWins m' = getTotalWins m
  /\ (forall bs, battleStats m = Some bs -> battleStats m' = Some bs)
  /\ (battleStats m = None ->
      battleStats m' = Some StatsEmpty
      /\ forall isWon d,
           (exists m2,
              recordBattleResult (Some (mkBattleResult (Some isWon) d)) m = Ok tt m2)
           /\ (exists m2,
                 recordBattleResult (Some (mkBattleResult (Some isWon) d)) m'
                 = Throw "TypeError" m2)).
Proof.
  cbv zeta. unfold create, loadProgress, saveProgress.
  cbn [savedDifficulty savedUnlocked savedStats].
  split; [reflexivity|]. split.
  { intros d. unfold isDifficultyUnlocked. cbn [unlockedDifficulties].
    destruct (existsb (difficultyEqb easy) (unlockedDifficulties m)) eqn:He.
    - destruct (difficultyEqb d easy) eqn:Hd; [|rewrite orb_false_r; reflexivity].
      apply difficultyEqb_eq in Hd. subst d. rewrite He. reflexivity.
    - rewrite existsb_app. cbn [existsb]. rewrite orb_false_r. reflexivity. }
  split.
  { unfold isDifficultyUnlocked. intros He. cbn [unlockedDifficulties].
    rewrite He. reflexivity. }
  split.
  { unfold getTotalWins. cbn [battleStats]. destruct (battleStats m); reflexivity. }
  split.
  { intros bs Hbs. cbn [battleStats]. rewrite Hbs. reflexivity. }
  intros Hnone. cbn [battleStats]. rewrite Hnone. split; [reflexivity|].
  intros isWon d. split.
  - destruct (recordBattleResult_ok (Some (mkBattleResult (Some isWon) d)) m)
      as [m2 [Hok _]]; [rewrite Hnone; discriminate|].
    exists m2. exact Hok.
  - unfold recordBattleResult. cbn [won battleStats]. eexists. reflexivity.
Qed.

(** X20: [getUnlockProgress] throws a TypeError on a manager whose counters
    do not exist yet, as after the first start of the game; on every other
    manager it returns an entry for each difficulty that is still locked
    and for no other, with a percentage of at most 100 that is not negative
    when the counted wins are not. *)
Theorem getUnlockProgress_result (m : Manager) :
  getUnlockProgress (manager firstStart) = Throw "TypeError" (manager firstStart)
  /\ (battleStats m = None -> getUnlockProgress m = Throw "TypeError" m)
  /\ (battleStats m <> None ->
      exists p,
        getUnlockProgress m = Ok p m
        /\ (progressMedium p = None <-> isDifficultyUnlocked m medium = true)
        /\ (progressHard p = None <-> isDifficultyUnlocked m hard = true)
        /\ (forall mp, progressMedium p = Some mp ->
              mediumCurrent mp = getTotalWins m
              /\ (mediumPercentage mp <= 100)%Q
              /\ (0 <= getTotalWins m -> (0 <= mediumPercentage mp)%Q))
        /\ (forall hp, progressHard p = Some hp ->
              currentTotal hp = getTotalWins m
              /\ currentMedium hp = Spec.mediumWinsOf m
              /\ (hardPercentage hp <= 100)%Q)).
Proof.
  assert (Hmin : forall a b : Q, (Qmin a b <= a)%Q).
  { intros a b. unfold Qmin. destruct (Qle_bool a b) eqn:Hab; [apply Qle_refl|].
    destruct (Qlt_le_dec b a) as [Hlt | Hle]; [apply Qlt_le_weak; exact Hlt|].
    apply Qle_bool_iff in Hle. congruence. }
  split; [reflexivity|]. unfold getUnlockProgress.
  split; [intros ->; reflexivity|].
  intros Hsome. destruct (battleStats m) as [bs|] eqn:Hbs; [|contradiction].
  eexists. split; [reflexivity|]. cbn [progressMedium progressHard].
  split; [destruct (isDifficultyUnlocked m medium); cbn [negb];
          split; intros H; try reflexivity; discriminate H|].
  split; [destruct (isDifficultyUnlocked m hard); cbn [negb];
          split; intros H; try reflexivity; discriminate H|].
  split.
  - intros mp. destruct (negb (isDifficultyUnlocked m medium)); [|discriminate].
    intros [= <-]. cbn [mediumCurrent mediumPercentage].
    split; [reflexivity|]. split; [apply Hmin|].
    intros Hwins. unfold Qmin.
    destruct (Qle_bool 100 _); [discriminate|].
    apply Qmult_le_0_compat; [|discriminate].
    apply Qle_shift_div_l; [reflexivity|]. rewrite Qmult_0_l.
    change 0%Q with (inject_Z 0). rewrite <- Zle_Qle. exact Hwins.
  - intros hp. destruct (negb (isDifficultyUnlocked m hard)); [|discriminate].
    intros [= <-]. cbn [currentTotal currentMedium hardPercentage].
    split; [reflexivity|]. split; [|apply Hmin].
    unfold Spec.mediumWinsOf. rewrite Hbs. destruct bs; reflexivity.
Qed.

(** X21: after [resetProgress], whatever the manager was before (also one
    that was loaded with empty counters), every sequence of results is
    recorded without an error, and medium and hard are unlocked exactly by
    the wins recorded since. *)
Theorem resetProgress_then_record (m : Manager)
  (rs : list (option BattleResult)) :
  exists m',
    recordAll rs (resetProgress m) = Ok tt m'
    /\ getTotalWins m' = Spec.totalWins rs
    /\ isDifficultyUnlocked m' easy = true
    /\ (isDifficultyUnlocked m' medium = true <-> 5 <= Spec.totalWins rs)
    /\ (isDifficultyUnlocked m' hard = true
        <-> 15 <= Spec.totalWins rs /\ 8 <= Spec.mediumWins rs).
Proof.
  assert (Hinv : Spec.UnlockInvariant (resetProgress m)).
  { unfold Spec.UnlockInvariant, resetProgress. cbn. repeat split; discriminate. }
  destruct (recordAll_invariant rs (resetProgress m) Hinv)
    as [m' [Hrun [[_ [_ [He [Hm Hh]]]] [Ht Hmw]]]].
  exists m'. split; [exact Hrun|].
  assert (Ht0 : getTotalWins (resetProgress m) = 0) by reflexivity.
  assert (Hm0 : Spec.mediumWinsOf (resetProgress m) = 0) by reflexivity.
  split; [lia|]. split; [exact He|].
  rewrite Hm, Hh, andb_true_iff, !Z.geb_le. split; [lia | split; lia].
Qed.

End ProgressionProperties.

(** ** Opponents *)

Section OpponentProperties.

Import DifficultyManager Progression.

(** [Math.round] of an integer times a fraction, as an integer division. *)
Lemma round_scale (x n : Z) (d : positive) :
  round (inject_Z x * (n # d))%Q = (2 * x * n + Z.pos d) / (2 * Z.pos d).
Proof.
  unfold round, Qfloor, Qplus, Qmult, inject_Z. cbn [Qnum Qden].
  f_equal; lia.
Qed.

Lemma round_nonneg (x n : Z) (d : positive) :
  0 <= x -> 0 <= n -> 0 <= round (inject_Z x * (n # d))%Q.
Proof.
  intros Hx Hn. rewrite round_scale. apply Z.div_pos; nia.
Qed.

(** X22: the opponent that [generateOpponent] makes of a valid creature is
    itself a valid creature at full health, marked as an opponent, with the
    tier's name appended and the tier's bonuses attached.  On medium its
    level and four stats are those of the base creature, on easy none of
    them is higher, on hard none is lower.  One clock reading is made and
    no random number drawn. *)
Theorem generateOpponent_scaling (m : Manager) (base : Creature)
  (d : option Difficulty) (w : World) :
  DataValidation.isValidCreature base = true ->
  let o := fst (fst (generateOpponent m base d w)) in
  let tier := snd (fst (generateOpponent m base d w)) in
  DataValidation.isValidCreature o = true
  /\ hp (stats o) = maxHp (stats o)
  /\ isOpponent o = true
  /\ barcode o = barcode base
  /\ tier = match d with Some x => x | None => currentDifficulty m end
  /\ name o = (name base ++ " (" ++ displayName (difficultyStats tier) ++ ")")%string
  /\ match tier with
     | easy =>
         maxHp (stats o) <= maxHp (stats base)
         /\ attack (stats o) <= attack (stats base)
         /\ defense (stats o) <= defense (stats base)
         /\ speed (stats o) <= speed (stats base)
         /\ level o <= level base
     | medium =>
         maxHp (stats o) = maxHp (stats base)
         /\ attack (stats o) = attack (stats base)
         /\ defense (stats o) = defense (stats base)
         /\ speed (stats o) = speed (stats base)
         /\ level o = level base
     | hard =>
         maxHp (stats base) <= maxHp (stats o)
         /\ attack (stats base) <= attack (stats o)
         /\ defense (stats base) <= defense (stats o)
         /\ speed (stats base) <= speed (stats o)
         /\ level base <= level o
     end
  /\ (exists bonuses,
        difficultyBonuses o = Some bonuses
        /\ specialAttackFrequency bonuses
           = configSpecialAttackFrequency (difficultyStats tier)
        /\ criticalHitChance bonuses = configCriticalHitChance (difficultyStats tier)
        /\ level o <= experienceReward bonuses)
  /\ ticks (snd (generateOpponent m base d w)) = S (ticks w)
  /\ draws (snd (generateOpponent m base d w)) = draws w.
Proof.
  intros Hvalid. apply isValidCreature_iff in Hvalid.
  destruct Hvalid as [Hbar [Hl [He [Hhp [Ha [Hd Hs]]]]]].
  assert (Hm : 0 <= maxHp (stats base)) by lia.
  cbv zeta. unfold generateOpponent, dateNow.
  cbn [fst snd clock entropy ticks draws].
  set (tier := match d with Some x => x | None => currentDifficulty m end).
  assert (Hcfg : getDifficultyConfig m d = difficultyStats tier)
    by (unfold getDifficultyConfig; subst tier; destruct d; reflexivity).
  rewrite Hcfg.
  unfold applyDifficultyEnhancements.
  cbn [stats level hp maxHp attack defense speed id name barcode experience
       experienceToNext discoveryDate battlesWon battlesLost isOpponent].
  assert (Hvalid' : forall l h mx a df sp b,
            1 <= l -> 0 <= h <= mx -> 0 <= a -> 0 <= df -> 0 <= sp ->
            DataValidation.isValidCreature
              (mkCreature (mkId (clock w (ticks w)) (-1 # 1))
                 (name base ++ " (" ++ displayName (difficultyStats tier) ++ ")")%string
                 (barcode base) (mkStats h mx a df sp) l (experience base)
                 (experienceToNext base) (discoveryDate base) (battlesWon base)
                 (battlesLost base) true b) = true).
  { intros. apply isValidCreature_iff.
    cbn [barcode level experience stats hp maxHp attack defense speed].
    repeat split; try assumption; lia. }
  destruct tier; cbn [difficultyStats opponentStatMultiplier displayName
                      experienceMultiplier configSpecialAttackFrequency
                      configCriticalHitChance];
    change (Js.Qgtb (8 # 10) 1) with false;
    change (Js.Qgtb 1 1) with false;
    change (Js.Qgtb (13 # 10) 1) with true; cbv iota;
    cbn [stats level hp maxHp attack defense speed id name barcode experience
         experienceToNext discoveryDate battlesWon battlesLost isOpponent
         difficultyBonuses specialAttackFrequency criticalHitChance experienceReward].
  - (* easy *)
    change 1%Q with (1 # 1). rewrite !round_scale.
    split; [apply Hvalid'; Z.div_mod_to_equations; lia|].
    do 5 (split; [reflexivity|]).
    split; [Z.div_mod_to_equations; lia|].
    split; [|split; reflexivity].
    eexists. split; [reflexivity|]. do 2 (split; [reflexivity|]).
    cbn [experienceReward]. Z.div_mod_to_equations. lia.
  - (* medium *)
    change 1%Q with (1 # 1). rewrite !round_scale.
    split; [apply Hvalid'; Z.div_mod_to_equations; lia|].
    do 5 (split; [reflexivity|]).
    split; [Z.div_mod_to_equations; lia|].
    split; [|split; reflexivity].
    eexists. split; [reflexivity|]. do 2 (split; [reflexivity|]).
    cbn [experienceReward]. Z.div_mod_to_equations. lia.
  - (* hard *)
    change ((13 # 10) - 1)%Q with (3 # 10).
    change ((3 # 10) * (5 # 10))%Q with (15 # 100).
    rewrite !round_scale.
    split; [apply Hvalid'; Z.div_mod_to_equations; lia|].
    do 5 (split; [reflexivity|]).
    split; [Z.div_mod_to_equations; lia|].
    split; [|split; reflexivity].
    eexists. split; [reflexivity|]. do 2 (split; [reflexivity|]).
    cbn [experienceReward]. Z.div_mod_to_equations. lia.
Qed.

Lemma generateOpponent_scaling_witness :
  DataValidation.isValidCreature MoreSamples.tuka = true
  /\ DataValidation.isValidCreature
       (fst (fst (generateOpponent initial MoreSamples.tuka (Some hard)
                    Samples.worldHigh))) = true
  /\ attack (stats MoreSamples.tuka)
     <= attack (stats (fst (fst (generateOpponent initial MoreSamples.tuka (Some hard)
                                   Samples.worldHigh)))).
Proof.
  split; [reflexivity|].
  destruct (generateOpponent_scaling initial MoreSamples.tuka (Some hard)
              Samples.worldHigh eq_refl)
    as [Hv [_ [_ [_ [_ [_ [Hcmp _]]]]]]].
  split; [exact Hv|]. cbn [snd fst generateOpponent] in Hcmp.
  destruct Hcmp as [_ [Ha _]]. exact Ha.
Defined.

Lemma pickWeighted_listed (weights : list (Personality * Q)) :
  forall random p, pickWeighted weights random = Some p ->
                   In p (List.map fst weights).
Proof.
  induction weights as [|[p0 wt] rest IH]; intros random p; cbn [pickWeighted];
    [discriminate|].
  destruct (Qle_bool (random - wt) 0).
  - intros [= <-]. left. reflexivity.
  - intros H. right. apply (IH _ _ H).
Qed.

(** [selectAIPersonality] always returns one of the personalities that the
    tier's table lists. *)
Lemma selectAIPersonality_some (m : Manager) (d : option Difficulty) (w : World) :
  exists p,
    selectAIPersonality m d w = (Some p, snd (mathRandom w))
    /\ In p (List.map fst (aiPersonalityWeights (getDifficultyConfig m d))).
Proof.
  unfold selectAIPersonality.
  destruct (mathRandom w) as [r w1]. cbn [snd].
  destruct (pickWeighted _ _) as [p|] eqn:Hpick.
  - exists p. split; [reflexivity | apply (pickWeighted_listed _ _ _ Hpick)].
  - unfold getDifficultyConfig.
    destruct (match d with Some d' => d' | None => currentDifficulty m end) eqn:Ht;
      destruct d as [[]|]; try discriminate Ht; try rewrite Ht;
      cbn; eexists; split; try reflexivity; left; reflexivity.
Qed.

(** X23: [selectAIPersonality] always returns a personality that the table
    of the tier lists, after exactly one random draw; the table of hard has
    lost its entry for Cautious to the repeated key, so on hard Cautious is
    never selected. *)
Theorem selectAIPersonality_listed (m : Manager) (d : option Difficulty) (w : World) :
  exists p,
    fst (selectAIPersonality m d w) = Some p
    /\ In p (List.map fst (aiPersonalityWeights (getDifficultyConfig m d)))
    /\ (match d with Some x => x | None => currentDifficulty m end = hard ->
        p <> Cautious)
    /\ draws (snd (selectAIPersonality m d w)) = S (draws w)
    /\ ticks (snd (selectAIPersonality m d w)) = ticks w.
Proof.
  destruct (selectAIPersonality_some m d w) as [p [Hrun Hin]].
  exists p. rewrite Hrun. cbn [fst snd mathRandom draws ticks].
  split; [reflexivity|]. split; [exact Hin|]. split; [|split; reflexivity].
  intros Hhard Hp. subst p.
  assert (Hcfg : getDifficultyConfig m d = difficultyStats hard)
    by (unfold getDifficultyConfig; destruct d; rewrite Hhard; reflexivity).
  rewrite Hcfg in Hin. cbn in Hin.
  repeat (destruct Hin as [Hin | Hin]; [discriminate Hin|]). exact Hin.
Qed.

End OpponentProperties.

(** ** The AI opponent *)

Section AIProperties.

Import AIOpponent.

Lemma shift_length {A : Type} (l : list A) (n : nat) :
  (List.length l <= S n)%nat ->
  (List.length (if Z.of_nat (List.length l) >? Z.of_nat n then shift l else l) <= n)%nat.
Proof.
  intros Hl. destruct (Z.gtb_spec (Z.of_nat (List.length l)) (Z.of_nat n)) as [Hgt | Hle].
  - unfold shift. destruct l; cbn [tl List.length] in *; lia.
  - lia.
Qed.

(** X28: a decision of the AI keeps its memory within bounds: at most five
    remembered player actions and ten own decisions, given that it was so
    before (as it is for a new AIOpponent).  The turn counter of the memory
    rises by one, the decision is always one of the three actions and is
    the last entry of the own decisions, and the difficulty and the
    personality stay as they are. *)
Theorem makeDecision_keeps_memory_bounded (ai : AI) (bs : BattleState) (w : World) :
  (List.length (playerActions (memory ai)) <= 5)%nat ->
  (List.length (ownActions (memory ai)) <= 10)%nat ->
  (List.length (playerActions (memory (snd (fst (makeDecision ai bs w))))) <= 5)%nat
  /\ (List.length (ownActions (memory (snd (fst (makeDecision ai bs w))))) <= 10)%nat
  /\ turnsElapsed (memory (snd (fst (makeDecision ai bs w))))
     = turnsElapsed (memory ai) + 1
  /\ difficulty (snd (fst (makeDecision ai bs w))) = difficulty ai
  /\ personality (snd (fst (makeDecision ai bs w))) = personality ai
  /\ (exists a entry,
        fst (fst (makeDecision ai bs w)) = Some a
        /\ List.last (ownActions (memory (snd (fst (makeDecision ai bs w)))))
                     entry = entry
        /\ In entry (ownActions (memory (snd (fst (makeDecision ai bs w)))))
        /\ ownAction entry = Some a
        /\ ownTurn entry = turnsElapsed (memory ai) + 1).
Proof.
  intros Hp Ho.
  destruct (makeDecision_some ai bs w) as [a Ha].
  unfold makeDecision in *.
  destruct (executeStrategy _ _ w) as [d0 w1].
  destruct (applyDifficultyModifications _ _ _ w1) as [dec w2].
  cbn [fst snd] in *. subst dec.
  unfold logDecision.
  set (m1 := memory (updateMemory ai bs)).
  assert (Hm1 : (List.length (playerActions m1) <= 5)%nat
                /\ ownActions m1 = ownActions (memory ai)
                /\ turnsElapsed m1 = turnsElapsed (memory ai) + 1).
  { subst m1. unfold updateMemory. cbn [memory playerActions ownActions turnsElapsed].
    split; [|split; reflexivity].
    destruct (lastPlayerAction bs) as [pa|]; [|exact Hp].
    apply (shift_length (playerActions (memory ai) ++ [pa]) 5).
    rewrite length_app. cbn [List.length]. lia. }
  destruct Hm1 as [Hp1 [Ho1 Ht1]].
  cbn [memory playerActions ownActions turnsElapsed difficulty personality].
  split; [exact Hp1|].
  set (entry := mkOwnAction (Some a) _ _ _ _).
  split.
  { apply (shift_length (ownActions m1 ++ [entry]) 10).
    rewrite length_app, Ho1. cbn [List.length]. lia. }
  split; [exact Ht1|]. split; [reflexivity|]. split; [reflexivity|].
  exists a, entry. split; [reflexivity|].
  assert (Hlast : forall l : list OwnAction,
            List.last (if Z.of_nat (List.length (l ++ [entry])) >? 10
                       then shift (l ++ [entry]) else l ++ [entry]) entry = entry
            /\ In entry (if Z.of_nat (List.length (l ++ [entry])) >? 10
                         then shift (l ++ [entry]) else l ++ [entry])).
  { intros l. destruct (_ >? 10) eqn:Hgt.
    - destruct l as [|x l]; [cbn in Hgt; discriminate Hgt|].
      cbn [shift tl app]. split; [apply last_last | apply in_or_app; right; left; reflexivity].
    - split; [apply last_last | apply in_or_app; right; left; reflexivity]. }
  destruct (Hlast (ownActions m1)) as [H1 H2].
  split; [exact H1|]. split; [exact H2|].
  split; [reflexivity | exact Ht1].
Qed.

Lemma makeDecision_keeps_memory_bounded_witness :
  (List.length (playerActions (memory Samples.defensiveAI)) <= 5)%nat
  /\ (List.length (ownActions (memory Samples.defensiveAI)) <= 10)%nat
  /\ (List.length
        (playerActions
           (memory (snd (fst (makeDecision Samples.defensiveAI Samples.battleState
                                Samples.worldHigh))))) <= 5)%nat
  /\ (List.length
        (ownActions
           (memory (snd (fst (makeDecision Samples.defensiveAI Samples.battleState
                                Samples.worldHigh))))) <= 10)%nat.
Proof.
  split; [cbn; lia|]. split; [cbn; lia|].
  destruct (makeDecision_keeps_memory_bounded Samples.defensiveAI Samples.battleState
              Samples.worldHigh ltac:(cbn; lia) ltac:(cbn; lia))
    as [H1 [H2 _]].
  split; assumption.
Defined.

End AIProperties.

Section FallbackAI.

Import BattleEngine.

(** X29: without an AIOpponent the engine decides by
    [makeSimpleAIDecision], which keeps both limits: it never chooses a
    special attack once three have been used, and never defends after two
    defends in a row; it draws at most two random numbers. *)
Theorem makeSimpleAIDecision_respects_limits (e : Engine) (b : Battle) (w : World) :
  (aiOpponent e = None ->
   makeAIDecision e b w
   = (Some (fst (makeSimpleAIDecision b w)), None, snd (makeSimpleAIDecision b w)))
  /\ (3 <= specialAttacksUsed (opponentActions b) ->
      fst (makeSimpleAIDecision b w) <> Action.special)
  /\ (2 <= consecutiveDefends (opponentActions b) ->
      fst (makeSimpleAIDecision b w) <> Action.defend)
  /\ (draws w <= draws (snd (makeSimpleAIDecision b w)) <= draws w + 2)%nat.
Proof.
  split.
  { intros Hnone. unfold makeAIDecision. rewrite Hnone.
    destruct (makeSimpleAIDecision b w). reflexivity. }
  unfold makeSimpleAIDecision, mathRandom.
  destruct (Z.ltb_spec (consecutiveDefends (opponentActions b)) 2) as [Hd | Hd];
    destruct (Z.ltb_spec (specialAttacksUsed (opponentActions b)) 3) as [Hs | Hs];
    destruct (Num.lt _ _); cbn [andb];
    repeat match goal with
           | |- context [if ?c then _ else _] => destruct c
           end;
    cbn [fst snd draws]; repeat split; try lia; try discriminate.
Qed.

End FallbackAI.

(** ** The pattern analysis of the AI opponent *)

Section PatternProperties.

Import AIOpponent PatternSpec.

Lemma action_eqb_eq (a b : Action.t) : Action.eqb a b = true <-> a = b.
Proof. destruct a, b; cbn; split; congruence. Qed.

Lemma countOf_countAction (counts : list (Action.t * Z)) (a k : Action.t) :
  countOf (countAction counts a) k
  = countOf counts k + (if Action.eqb a k then 1 else 0).
Proof.
  unfold countOf.
  induction counts as [|[k0 n0] rest IH]; cbn [countAction find fst snd].
  - destruct (Action.eqb a k); reflexivity.
  - destruct (Action.eqb k0 a) eqn:Ea; cbn [find fst snd].
    + apply action_eqb_eq in Ea. subst k0.
      destruct (Action.eqb a k); cbn [snd]; lia.
    + destruct (Action.eqb k0 k) eqn:Ek.
      * apply action_eqb_eq in Ek. subst k0.
        destruct (Action.eqb a k) eqn:Eak; [|cbn [snd]; lia].
        apply action_eqb_eq in Eak. subst k.
        destruct a; discriminate.
      * exact IH.
Qed.

Lemma countOf_fold (actions : list Action.t) (counts : list (Action.t * Z))
      (k : Action.t) :
  countOf (fold_left countAction actions counts) k
  = countOf counts k + occurrences k actions.
Proof.
  revert counts. induction actions as [|a rest IH]; intros counts.
  - unfold occurrences. cbn. lia.
  - cbn [fold_left]. rewrite IH, countOf_countAction.
    unfold occurrences. cbn [filter].
    destruct (Action.eqb a k); cbn [List.length]; lia.
Qed.

Lemma In_countAction_keys (counts : list (Action.t * Z)) (a k : Action.t) :
  In k (map fst (countAction counts a)) <-> k = a \/ In k (map fst counts).
Proof.
  induction counts as [|[k0 n0] rest IH]; cbn [countAction map fst In].
  - intuition congruence.
  - destruct (Action.eqb k0 a) eqn:Ea; cbn [map fst In].
    + apply action_eqb_eq in Ea. subst k0. intuition congruence.
    + rewrite IH. intuition congruence.
Qed.

Lemma countAction_NoDup (counts : list (Action.t * Z)) (a : Action.t) :
  NoDup (map fst counts) -> NoDup (map fst (countAction counts a)).
Proof.
  induction counts as [|[k0 n0] rest IH]; cbn [countAction map fst]; intros Hnd.
  - constructor; [intros []|constructor].
  - inversion Hnd as [|? ? Hnot Hrest]; subst.
    destruct (Action.eqb k0 a) eqn:Ea; cbn [map fst].
    + constructor; assumption.
    + constructor; [|apply IH; exact Hrest].
      rewrite In_countAction_keys. intros [-> | Hin]; [|exact (Hnot Hin)].
      destruct a; discriminate.
Qed.

Lemma actionCounts_NoDup (actions : list Action.t) :
  NoDup (map fst (actionCounts actions)).
Proof.
  unfold actionCounts.
  assert (H : forall counts, NoDup (map fst counts) ->
                             NoDup (map fst (fold_left countAction actions counts))).
  { induction actions as [|a rest IH]; intros counts Hnd; [exact Hnd|].
    cbn [fold_left]. apply IH, countAction_NoDup, Hnd. }
  apply H. constructor.
Qed.

Lemma countOf_In (counts : list (Action.t * Z)) (k : Action.t) (n : Z) :
  NoDup (map fst counts) -> In (k, n) counts -> countOf counts k = n.
Proof.
  unfold countOf.
  induction counts as [|[k0 n0] rest IH]; cbn [map fst find In]; intros Hnd Hin.
  - contradiction.
  - inversion Hnd as [|? ? Hnot Hrest]; subst.
    destruct (Action.eqb k0 k) eqn:Ek.
    + apply action_eqb_eq in Ek. subst k0.
      destruct Hin as [[= <-] | Hin]; [reflexivity|].
      exfalso. apply Hnot. apply (in_map fst) in Hin. exact Hin.
    + destruct Hin as [[= -> <-] | Hin]; [|exact (IH Hrest Hin)].
      destruct k; discriminate.
Qed.

Lemma countOf_entry (counts : list (Action.t * Z)) (k : Action.t) :
  countOf counts k = 0 \/ In (k, countOf counts k) counts.
Proof.
  unfold countOf.
  destruct (find (fun e => Action.eqb (fst e) k) counts) as [[k0 n0]|] eqn:Hf;
    [right|left; reflexivity].
  apply find_some in Hf. destruct Hf as [Hin Hk].
  apply action_eqb_eq in Hk. cbn [fst] in Hk. subst k0. exact Hin.
Qed.

Lemma mostCommon_fold (rest : list (Action.t * Z)) (first : Action.t * Z) :
  In (fold_left (fun a b => if snd a >? snd b then a else b) rest first)
     (first :: rest)
  /\ forall e, In e (first :: rest) ->
       snd e <= snd (fold_left (fun a b => if snd a >? snd b then a else b)
                               rest first).
Proof.
  revert first. induction rest as [|b rest IH]; intros first; cbn [fold_left].
  - split; [left; reflexivity|]. intros e [<- | []]. lia.
  - destruct (IH (if snd first >? snd b then first else b)) as [Hin Hmax].
    split.
    + destruct Hin as [Heq | Hin]; [|right; right; exact Hin].
      rewrite <- Heq. destruct (snd first >? snd b); [left|right; left]; reflexivity.
    + intros e He.
      assert (Hpick : snd first <= snd (if snd first >? snd b then first else b)
                      /\ snd b <= snd (if snd first >? snd b then first else b)).
      { destruct (Z.gtb_spec (snd first) (snd b)); lia. }
      pose proof (Hmax _ (or_introl eq_refl)) as Hp.
      destruct He as [<- | [<- | He]]; [lia | lia |].
      apply Hmax. right. exact He.
Qed.

Lemma occurrences_pos (k : Action.t) (actions : list Action.t) :
  0 < occurrences k actions -> In k actions.
Proof.
  unfold occurrences. intros Hpos.
  destruct (filter (fun a => Action.eqb a k) actions) as [|a l] eqn:Hf;
    [cbn in Hpos; lia|].
  assert (Hin : In a (filter (fun a => Action.eqb a k) actions))
    by (rewrite Hf; left; reflexivity).
  apply filter_In in Hin. destruct Hin as [Hin Hk].
  apply action_eqb_eq in Hk. subst a. exact Hin.
Qed.

Lemma occurrences_nonneg (k : Action.t) (actions : list Action.t) :
  0 <= occurrences k actions.
Proof. unfold occurrences. lia. Qed.

Lemma pickMostCommon_spec (actions : list Action.t) :
  actions <> [] ->
  exists a,
    pickMostCommon (actionCounts actions) = Some (a, occurrences a actions)
    /\ In a actions
    /\ forall b, occurrences b actions <= occurrences a actions.
Proof.
  intros Hne.
  assert (Hcount : forall k, countOf (actionCounts actions) k = occurrences k actions).
  { intros k. unfold actionCounts. rewrite countOf_fold. reflexivity. }
  destruct actions as [|a0 rest]; [congruence|].
  assert (H0 : 0 < occurrences a0 (a0 :: rest)).
  { unfold occurrences. cbn [filter].
    replace (Action.eqb a0 a0) with true by (destruct a0; reflexivity).
    cbn [List.length]. lia. }
  set (actions := a0 :: rest) in *.
  destruct (actionCounts actions) as [|first others] eqn:Hcounts.
  { specialize (Hcount a0). cbn in Hcount. lia. }
  unfold pickMostCommon.
  destruct (mostCommon_fold others first) as [Hin Hmax].
  destruct (fold_left _ others first) as [a n] eqn:Hpick.
  assert (Hn : n = occurrences a actions).
  { rewrite <- Hcount. symmetry. apply countOf_In; [|exact Hin].
    rewrite <- Hcounts. apply actionCounts_NoDup. }
  assert (Hall : forall b, occurrences b actions <= n).
  { intros b. rewrite <- Hcount.
    destruct (countOf_entry (first :: others) b) as [Hz | Hb].
    - rewrite Hz. rewrite Hn. apply occurrences_nonneg.
    - apply (Hmax _ Hb). }
  exists a. subst n. split; [reflexivity|]. split; [|exact Hall].
  apply occurrences_pos. specialize (Hall a0). lia.
Qed.

(** X30: the pattern analysis of the AI.  With fewer than two remembered
    player actions the pattern is 'unknown' with confidence 0 and no most
    common action.  With two or more, the analysis names an action that is
    in the memory and that no other action outnumbers; the confidence is
    the share of that action among the remembered ones, and the pattern is
    '<action>_heavy' exactly when this share is above 60 percent. *)
Theorem analyzePlayerPattern_most_common (ai : AI) :
  ((List.length (playerActions (memory ai)) < 2)%nat ->
     analyzePlayerPattern ai = mkPattern unknown 0 None)
  /\ ((2 <= List.length (playerActions (memory ai)))%nat ->
      exists a,
        mostCommon (analyzePlayerPattern ai) = Some a
        /\ In a (playerActions (memory ai))
        /\ (forall b, occurrences b (playerActions (memory ai))
                      <= occurrences a (playerActions (memory ai)))
        /\ confidence (analyzePlayerPattern ai)
           = (inject_Z (occurrences a (playerActions (memory ai)))
              / inject_Z (Z.of_nat (List.length (playerActions (memory ai)))))%Q
        /\ (patternType (analyzePlayerPattern ai) = heavy a
            <-> 6 * Z.of_nat (List.length (playerActions (memory ai)))
                < 10 * occurrences a (playerActions (memory ai)))).
Proof.
  unfold analyzePlayerPattern.
  set (actions := playerActions (memory ai)).
  destruct (Z.ltb_spec (Z.of_nat (List.length actions)) 2) as [Hlt | Hge].
  - split; [reflexivity | lia].
  - split; [lia|]. intros _.
    destruct (pickMostCommon_spec actions) as [a [Hpick [Hin Hmax]]].
    { destruct actions; [cbn in Hge; lia | discriminate]. }
    rewrite Hpick. exists a. cbn [mostCommon confidence patternType].
    split; [reflexivity|]. split; [exact Hin|]. split; [exact Hmax|].
    split; [reflexivity|].
    set (n := occurrences a actions).
    assert (Hgt : Js.Qgtb (inject_Z n / inject_Z (Z.of_nat (List.length actions)))
                          (6 # 10)
                  = (6 * Z.of_nat (List.length actions) <? 10 * n)).
    { unfold Js.Qgtb, Js.Qltb, Qle_bool, Qdiv, Qinv, Qmult, inject_Z.
      cbn [Qnum Qden].
      destruct (Z.of_nat (List.length actions)) as [|p|p] eqn:Hlen; [lia | | lia].
      cbn [Qnum Qden].
      destruct (Z.leb_spec (n * 1 * 10) (6 * Z.pos (1 * p)));
        destruct (Z.ltb_spec (6 * Z.pos p) (10 * n)); cbn [negb]; try reflexivity;
        lia. }
    rewrite Hgt.
    destruct (Z.ltb_spec (6 * Z.of_nat (List.length actions)) (10 * n)) as [Hh | Hh].
    + split; [intros _; exact Hh | reflexivity].
    + split; [|lia].
      destruct (isAlternatingPattern actions); [discriminate|].
      destruct (isEscalatingPattern actions); discriminate.
Qed.

End PatternProperties.

(** ** Battles *)

Section BattleProperties.

Import BattleEngine BattleSetup BattleSpec.

(** [Math.floor] of an integer times a fraction, as an integer division. *)
Lemma floor_scale (x n : Z) (d : positive) :
  Js.floor (inject_Z x * (n # d))%Q = (x * n) / Z.pos d.
Proof.
  unfold Js.floor, Qfloor, Qmult, inject_Z. cbn [Qnum Qden]. f_equal.
Qed.

Lemma calculateDamage_min (b : Battle) (attacker defender : Creature)
  (isSpecial : bool) (w : World) :
  1 <= fst (calculateDamage b attacker defender isSpecial w).
Proof.
  unfold calculateDamage. destruct (mathRandom w) as [r w1]. cbn [fst]. lia.
Qed.

(** What [executeAction] changes in the battle. *)
Lemma executeAction_effect (e : Engine) (b b' : Battle) (actor : Side)
  (actionType : string) (w w' : World) (r : ActionResult) :
  executeAction e b actor actionType w = Ok r (b', w') ->
  exists a,
    parseAction actionType = Some a
    /\ resultActionType r = a
    /\ status b' = status b /\ winner b' = winner b
    /\ turnCount b' = turnCount b /\ currentTurn b' = currentTurn b
    /\ difficulty b' = difficulty b
    /\ (exists entry, battleLog b' = battleLog b ++ [entry])
    /\ consecutiveDefends (playerActions b') = consecutiveDefends (playerActions b)
    /\ specialAttacksUsed (playerActions b') = specialAttacksUsed (playerActions b)
    /\ consecutiveDefends (opponentActions b') = consecutiveDefends (opponentActions b)
    /\ specialAttacksUsed (opponentActions b') = specialAttacksUsed (opponentActions b)
    /\ match a with
       | Action.defend =>
           resultDamage r = 0
           /\ attackerOf b' actor
              = setHp (attackerOf b actor)
                  (Z.min (maxHp (stats (attackerOf b actor)))
                         (hp (stats (attackerOf b actor))
                          + maxHp (stats (attackerOf b actor)) / 10))
           /\ defenderOf b' actor = defenderOf b actor
       | _ =>
           1 <= resultDamage r
           /\ defenderOf b' actor
              = setHp (defenderOf b actor)
                  (Z.max 0 (hp (stats (defenderOf b actor)) - resultDamage r))
           /\ attackerOf b' actor = attackerOf b actor
       end.
Proof.
  unfold executeAction. destruct (dateNow w) as [t w0].
  destruct (parseAction actionType) as [[| |]|]; [| | |discriminate].
  - pose proof (calculateDamage_min b (attackerOf b actor) (defenderOf b actor) false w0)
      as Hmin.
    destruct (calculateDamage _ _ _ _ w0) as [d0 w1]. cbn [fst] in Hmin.
    destruct (checkCriticalHit _ _ _ w1) as [crit w2].
    intros [= <- <- <-]. exists Action.attack.
    assert (Hd : 1 <= (if crit then Js.floor (inject_Z d0 * CRITICAL_HIT_MULTIPLIER)%Q
                       else d0)).
    { destruct crit; [|exact Hmin]. unfold CRITICAL_HIT_MULTIPLIER.
      rewrite floor_scale. Z.div_mod_to_equations. lia. }
    destruct actor; cbn; repeat split; try reflexivity; try exact Hd;
      eexists; reflexivity.
  - pose proof (calculateDamage_min b (attackerOf b actor) (defenderOf b actor) true w0)
      as Hmin.
    destruct (calculateDamage _ _ _ _ w0) as [d0 w1]. cbn [fst] in Hmin.
    destruct (checkCriticalHit _ _ _ w1) as [crit w2].
    intros [= <- <- <-]. exists Action.special.
    assert (Hd : 1 <= (if crit then Js.floor (inject_Z d0 * CRITICAL_HIT_MULTIPLIER)%Q
                       else d0)).
    { destruct crit; [|exact Hmin]. unfold CRITICAL_HIT_MULTIPLIER.
      rewrite floor_scale. Z.div_mod_to_equations. lia. }
    destruct actor; cbn; repeat split; try reflexivity; try exact Hd;
      eexists; reflexivity.
  - intros [= <- <- <-]. exists Action.defend.
    rewrite ?floor_scale, ?Z.mul_1_r.
    destruct actor; cbn; repeat split; try reflexivity; eexists; reflexivity.
Qed.

Lemma executeAction_throw (e : Engine) (b b' : Battle) (actor : Side)
  (actionType msg : string) (w w' : World) :
  executeAction e b actor actionType w = Throw msg (b', w') -> b' = b.
Proof.
  unfold executeAction. destruct (dateNow w) as [t w0].
  destruct (parseAction actionType) as [[| |]|];
    repeat match goal with
           | |- context [let '(_, _) := ?x in _] => destruct x
           end; try discriminate.
  intros H. inversion H. reflexivity.
Qed.

Lemma executeAction_inv (e : Engine) (b b' : Battle) (actor : Side)
  (actionType : string) (w w' : World) (r : ActionResult) :
  BattleInv b -> status b = active ->
  executeAction e b actor actionType w = Ok r (b', w') ->
  BattleInv b' /\ status b' = active.
Proof.
  intros [Hp [Ho [Ht [[Hpd Hps] [[Hod Hos] [Hst Hlog]]]]]] Hactive Hrun.
  destruct (executeAction_effect e b b' actor actionType w w' r Hrun)
    as [a [_ [_ [Hs [Hw [Htc [_ [_ [[entry Hl] [H1 [H2 [H3 [H4 Heff]]]]]]]]]]]]].
  split; [|congruence].
  unfold BattleInv, HpInRange, CountersNotNegative, StatusAgrees in *.
  rewrite Hs, Hw, Htc, H1, H2, H3, H4, Hl. rewrite Hactive in *.
  assert (Hhp : (0 <= hp (stats (playerCreature b')) <= maxHp (stats (playerCreature b')))
                /\ (0 <= hp (stats (opponentCreature b'))
                    <= maxHp (stats (opponentCreature b')))).
  { destruct a; destruct Heff as [Hd [Hdef Hatt]]; destruct actor;
      cbn [attackerOf defenderOf] in Hdef, Hatt; rewrite Hdef, Hatt;
      unfold setHp, setStats; cbn [stats hp maxHp];
      split; try assumption; Z.div_mod_to_equations; lia. }
  destruct Hhp as [Hp' Ho'].
  repeat split; try lia; try assumption.
  intros Hnil. apply app_eq_nil in Hnil. destruct Hnil as [_ Hnil]. discriminate Hnil.
Qed.

Lemma updateActionTracking_inv (b : Battle) (actor : Side) (a : Action.t) :
  BattleInv b ->
  BattleInv (updateActionTracking b actor a)
  /\ status (updateActionTracking b actor a) = status b
  /\ playerCreature (updateActionTracking b actor a) = playerCreature b
  /\ opponentCreature (updateActionTracking b actor a) = opponentCreature b
  /\ turnCount (updateActionTracking b actor a) = turnCount b
  /\ currentTurn (updateActionTracking b actor a) = currentTurn b.
Proof.
  intros [Hp [Ho [Ht [[Hpd Hps] [[Hod Hos] [Hst Hlog]]]]]].
  unfold BattleInv, HpInRange, CountersNotNegative, StatusAgrees, updateActionTracking
    in *.
  destruct actor; cbn [actionsOf setActionsOf withActions playerCreature
                       opponentCreature turnCount playerActions opponentActions status
                       winner battleLog currentTurn consecutiveDefends
                       specialAttacksUsed];
    destruct (Action.eqb a Action.defend), (Action.eqb a Action.special);
    repeat split; try assumption; try lia.
Qed.

(** What [endBattle] leaves behind, whether recording the result throws or
    not. *)
Lemma endBattle_effect (side : Side) (e : Engine) (b : Battle) (w : World) :
  currentBattle e = Some b ->
  exists b2,
    currentBattle (fst (stateAfter (endBattle side (e, w)))) = Some b2
    /\ playerCreature b2 = playerCreature b
    /\ opponentCreature b2 = opponentCreature b
    /\ turnCount b2 = turnCount b /\ currentTurn b2 = currentTurn b
    /\ playerActions b2 = playerActions b /\ opponentActions b2 = opponentActions b
    /\ status b2 = match side with player => won | opponent => lost end
    /\ winner b2 = Some side
    /\ experienceReward b2 = Some (calculateExperienceReward e b side)
    /\ (exists entry, battleLog b2 = battleLog b ++ [entry])
    /\ (battleHistory (fst (stateAfter (endBattle side (e, w)))) = battleHistory e ++ [b2]
        \/ battleHistory (fst (stateAfter (endBattle side (e, w)))) = battleHistory e).
Proof.
  intros Hb. unfold endBattle. rewrite Hb.
  destruct (dateNow w) as [endT w1]. destruct (dateNow w1) as [stampEnd w2].
  destruct (difficultyManager e) as [dm|].
  - destruct (DifficultyManager.recordBattleResultOfName _ _ dm) as [[] dm' | msg dm'];
      cbn [stateAfter fst currentBattle battleHistory];
      eexists; (split; [reflexivity|]);
      cbn [playerCreature opponentCreature turnCount currentTurn playerActions
           opponentActions status winner experienceReward battleLog];
      repeat split; try reflexivity; try (eexists; reflexivity);
      try (left; reflexivity); try (right; reflexivity);
      unfold calculateExperienceReward; destruct side; reflexivity.
  - cbn [stateAfter fst currentBattle battleHistory].
    eexists. split; [reflexivity|].
    cbn [playerCreature opponentCreature turnCount currentTurn playerActions
         opponentActions status winner experienceReward battleLog].
    repeat split; try reflexivity; try (eexists; reflexivity);
      try (left; reflexivity);
      unfold calculateExperienceReward; destruct side; reflexivity.
Qed.

Lemma EngineInv_endBattle (side : Side) (e : Engine) (b : Battle) (w : World) :
  currentBattle e = Some b ->
  BattleInv b -> status b = active ->
  Forall (fun b0 => status b0 <> active /\ BattleInv b0) (battleHistory e) ->
  match side with
  | player =>
      hp (stats (opponentCreature b)) <= 0 /\ 0 < hp (stats (playerCreature b))
  | opponent => hp (stats (playerCreature b)) <= 0
  end ->
  EngineInv (fst (stateAfter (endBattle side (e, w)))).
Proof.
  intros Hb [Hp [Ho [Ht [Hpa [Hoa [_ Hlog]]]]]] Hactive Hhist Hside.
  destruct (endBattle_effect side e b w Hb)
    as [b2 [Hcur [Hpc [Hoc [Htc [_ [Hpa2 [Hoa2 [Hst [Hw [_ [[entry Hl] Hh]]]]]]]]]]]].
  assert (Hinv2 : BattleInv b2).
  { unfold BattleInv, HpInRange, StatusAgrees in *.
    rewrite Hpc, Hoc, Htc, Hpa2, Hoa2, Hst, Hw, Hl.
    destruct Hpa, Hoa.
    repeat split; try assumption; try lia;
      try (intros Hnil; apply app_eq_nil in Hnil; destruct Hnil as [_ Hnil];
           discriminate Hnil).
    destruct side; cbv iota in Hside; repeat split; try reflexivity; lia. }
  split.
  - intros b0 Hb0. rewrite Hcur in Hb0. injection Hb0 as <-. exact Hinv2.
  - destruct Hh as [-> | ->]; [|exact Hhist].
    apply Forall_app. split; [exact Hhist|]. constructor; [|constructor].
    split; [rewrite Hst; destruct side; discriminate | exact Hinv2].
Qed.

Lemma finishTurn_inv (e : Engine) (b : Battle) (actor : Side) (a : Action.t)
  (r : ActionResult) (w : World) :
  BattleInv b -> status b = active ->
  Forall (fun b0 => status b0 <> active /\ BattleInv b0) (battleHistory e) ->
  EngineInv (fst (stateAfter (finishTurn e b actor a r w))).
Proof.
  intros Hinv Hactive Hhist.
  destruct (updateActionTracking_inv b actor a Hinv)
    as [Hinv1 [Hst1 [Hp1 [Ho1 [Ht1 _]]]]].
  unfold finishTurn, checkBattleEnd. cbn [withBattle currentBattle].
  set (b1 := updateActionTracking b actor a) in *.
  rewrite Hst1, Hactive. cbn [statusEqb negb].
  assert (Hcur : currentBattle (withBattle e b1) = Some b1) by reflexivity.
  assert (Hact1 : status b1 = active) by congruence.
  destruct (Z.leb_spec (hp (stats (playerCreature b1))) 0) as [Hdown | Hup].
  { pose proof (EngineInv_endBattle opponent (withBattle e b1) b1 w Hcur Hinv1 Hact1
                  Hhist Hdown) as Hend.
    unfold withBattle in Hend.
    destruct (endBattle opponent _) as [[] s' | msg s']; exact Hend. }
  destruct (Z.leb_spec (hp (stats (opponentCreature b1))) 0) as [Hodown | Houp].
  { pose proof (EngineInv_endBattle player (withBattle e b1) b1 w Hcur Hinv1 Hact1
                  Hhist (conj Hodown Hup)) as Hend.
    unfold withBattle in Hend.
    destruct (endBattle player _) as [[] s' | msg s']; exact Hend. }
  cbn [currentBattle].
  assert (Hturn : forall t n, 0 <= n -> BattleInv (withTurn b1 t n)).
  { intros t n Hn. destruct Hinv1 as [H1 [H2 [_ [H4 [H5 [H6 H7]]]]]].
    unfold BattleInv, StatusAgrees, withTurn in *.
    cbn [playerCreature opponentCreature turnCount playerActions opponentActions
         status winner battleLog].
    split; [exact H1|]. split; [exact H2|]. split; [exact Hn|].
    split; [exact H4|]. split; [exact H5|]. split; [exact H6 | exact H7]. }
  destruct Hinv1 as [_ [_ [Htc _]]].
  destruct actor; cbn [stateAfter fst withBattle]; split;
    cbn [currentBattle battleHistory]; try exact Hhist;
    intros b0 [= <-]; apply Hturn; lia.
Qed.

Lemma EngineInv_history (e : Engine) :
  EngineInv e ->
  Forall (fun b0 => status b0 <> active /\ BattleInv b0) (battleHistory e).
Proof. intros [_ H]. exact H. Qed.

Lemma executePlayerAction_inv (actionType : string) (e : Engine) (w : World) :
  EngineInv e ->
  EngineInv (fst (stateAfter (executePlayerAction actionType (e, w)))).
Proof.
  intros He. unfold executePlayerAction.
  destruct (currentBattle e) as [b|] eqn:Hb; [|exact He].
  destruct (statusEqb (status b) active) eqn:Hst; cbn [negb]; [|exact He].
  apply statusEqb_active in Hst.
  destruct (sideEqb (currentTurn b) player); cbn [negb]; [|exact He].
  pose proof (proj1 He b Hb) as Hinv.
  destruct (executeAction e b player actionType w) as [r [b' w'] | msg [b' w']] eqn:Hrun.
  - destruct (executeAction_inv e b b' player actionType w w' r Hinv Hst Hrun)
      as [Hinv' Hst'].
    apply finishTurn_inv; [exact Hinv' | exact Hst' | apply EngineInv_history; exact He].
  - apply executeAction_throw in Hrun. subst b'.
    cbn [stateAfter fst]. rewrite (withBattle_same e b Hb). exact He.
Qed.

Lemma executeAIAction_inv (e : Engine) (w : World) :
  EngineInv e -> EngineInv (fst (stateAfter (executeAIAction (e, w)))).
Proof.
  intros He. unfold executeAIAction.
  destruct (currentBattle e) as [b|] eqn:Hb; [|exact He].
  destruct (statusEqb (status b) active) eqn:Hst; cbn [negb]; [|exact He].
  apply statusEqb_active in Hst.
  destruct (sideEqb (currentTurn b) opponent); cbn [negb]; [|exact He].
  pose proof (proj1 He b Hb) as Hinv.
  destruct (makeAIDecision e b w) as [[actionType ai'] w1].
  set (e1 := mkEngine (Some b) (battleHistory e) ai' (difficultyManager e)).
  assert (Hb1 : currentBattle e1 = Some b) by reflexivity.
  destruct (executeAction e1 b opponent (decisionText actionType) w1)
    as [r [b' w'] | msg [b' w']] eqn:Hrun.
  - destruct (executeAction_inv e1 b b' opponent _ w1 w' r Hinv Hst Hrun)
      as [Hinv' Hst'].
    apply finishTurn_inv; [exact Hinv' | exact Hst' |].
    cbn [e1 battleHistory]. apply EngineInv_history. exact He.
  - apply executeAction_throw in Hrun. subst b'.
    cbn [stateAfter fst]. rewrite (withBattle_same e1 b Hb1).
    split; [|cbn [e1 battleHistory]; apply EngineInv_history; exact He].
    intros b0 [= <-]. exact Hinv.
Qed.

Lemma startBattle_inv (p o : Creature) (d : option string) (name : string)
  (chosen : option DifficultyManager.Personality) (e : Engine) (w w1 : World) :
  DataValidation.isValidCreature p = true ->
  DataValidation.isValidCreature o = true ->
  EngineInv e ->
  EngineInv (fst (stateAfter (startBattle p o d name chosen (e, w) w1))).
Proof.
  intros Hp Ho He. unfold startBattle. cbn [fst].
  repeat match goal with
         | |- context [let '(_, _) := ?x in _] => destruct x
         end.
  match goal with
  | |- context [match ?x with Some _ => _ | None => Throw _ _ end] => destruct x
  end; [|exact He].
  repeat match goal with
         | |- context [let '(_, _) := ?x in _] => destruct x
         end.
  cbn [stateAfter fst]. split; [|exact (EngineInv_history e He)].
  cbn [currentBattle]. intros b0 [= <-].
  destruct (isValidCreature_fields p Hp) as [_ [_ [_ Hhp]]].
  destruct (isValidCreature_fields o Ho) as [_ [_ [_ Hho]]].
  unfold BattleInv, HpInRange, CountersNotNegative, StatusAgrees, addBattleLogEntry,
    withLog, freshTracking.
  cbn [playerCreature opponentCreature turnCount playerActions opponentActions status
       winner battleLog consecutiveDefends specialAttacksUsed app].
  repeat split; try assumption; try lia. discriminate.
Qed.

Lemma initiateBattle_inv (p o : Creature) (d : option string) (e : Engine)
  (w : World) :
  EngineInv e -> EngineInv (fst (stateAfter (initiateBattle p o d (e, w)))).
Proof.
  intros He. unfold initiateBattle.
  destruct (DataValidation.isValidCreature p) eqn:Hp; cbn [negb]; [|exact He].
  destruct (DataValidation.isValidCreature o) eqn:Ho; cbn [negb]; [|exact He].
  destruct (difficultyManager e) as [dm|].
  - destruct (selectAIPersonalityOfName dm _ w) as [[chosen w1]|]; [|exact He].
    apply startBattle_inv; assumption.
  - apply startBattle_inv; assumption.
Qed.

(** X24: whatever is called on a new engine (starting battles, player and
    AI actions, resets), with whatever arguments, and whether the calls
    return or throw: in the current battle the hit points of both creatures
    stay between 0 and their maximum, the counters are not negative, an
    active battle has no winner, a won battle has an opponent without and a
    player with hit points, a lost battle has a player without hit points,
    and the history holds only battles that have ended. *)
Theorem engine_stays_sound (calls : list Call)
  (dm : option DifficultyManager.Manager) (w : World) :
  EngineInv (fst (afterCalls calls (fresh dm, w))).
Proof.
  assert (Hgen : forall cs s, EngineInv (fst s) -> EngineInv (fst (afterCalls cs s))).
  { unfold afterCalls.
    induction cs as [|c cs IH]; intros s Hs; cbn [fold_left]; [exact Hs|].
    apply IH. destruct s as [e w0]. cbn [fst] in Hs.
    destruct c as [p o d | actionType | |]; cbn [afterCall].
    - apply initiateBattle_inv. exact Hs.
    - apply executePlayerAction_inv. exact Hs.
    - apply executeAIAction_inv. exact Hs.
    - cbn [fst]. unfold resetBattle. split; [intros b H; discriminate H|].
      cbn [battleHistory]. exact (EngineInv_history e Hs). }
  apply Hgen. cbn [fst fresh]. split; [intros b H; discriminate H | constructor].
Qed.

(** When [endBattle] returns, the ended battle is the last entry of the
    history. *)
Lemma endBattle_ok_history (side : Side) (e : Engine) (b : Battle) (w : World)
  (s' : State) :
  currentBattle e = Some b ->
  endBattle side (e, w) = Ok tt s' ->
  exists b2,
    currentBattle (fst s') = Some b2
    /\ battleHistory (fst s') = battleHistory e ++ [b2].
Proof.
  intros Hb. unfold endBattle. rewrite Hb.
  destruct (dateNow w) as [endT w1]. destruct (dateNow w1) as [stampEnd w2].
  destruct (difficultyManager e) as [dm|].
  - destruct (DifficultyManager.recordBattleResultOfName _ _ dm) as [[] dm' | msg dm'];
      [|discriminate].
    intros [= <-]. eexists. split; reflexivity.
  - intros [= <-]. eexists. split; reflexivity.
Qed.

(** What follows the action itself: the counters of the actor, then either
    the end of the battle or the change of turn. *)
Lemma finishTurn_effect (e : Engine) (b : Battle) (actor : Side) (a : Action.t)
  (r r' : ActionResult) (w : World) (s' : State) :
  status b = active ->
  finishTurn e b actor a r w = Ok r' s' ->
  r' = r
  /\ exists b',
       currentBattle (fst s') = Some b'
       /\ playerCreature b' = playerCreature b
       /\ opponentCreature b' = opponentCreature b
       /\ playerActions b' = playerActions (updateActionTracking b actor a)
       /\ opponentActions b' = opponentActions (updateActionTracking b actor a)
       /\ ((hp (stats (playerCreature b)) <= 0
            /\ status b' = lost /\ winner b' = Some opponent
            /\ experienceReward b' = Some (Points 0)
            /\ currentTurn b' = currentTurn b /\ turnCount b' = turnCount b
            /\ battleHistory (fst s') = battleHistory e ++ [b'])
           \/ (0 < hp (stats (playerCreature b))
               /\ hp (stats (opponentCreature b)) <= 0
               /\ status b' = won /\ winner b' = Some player
               /\ experienceReward b' <> None
               /\ currentTurn b' = currentTurn b /\ turnCount b' = turnCount b
               /\ battleHistory (fst s') = battleHistory e ++ [b'])
           \/ (0 < hp (stats (playerCreature b))
               /\ 0 < hp (stats (opponentCreature b))
               /\ status b' = active /\ winner b' = winner b
               /\ currentTurn b'
                  = match actor with player => opponent | opponent => player end
               /\ turnCount b'
                  = turnCount b + match actor with player => 1 | opponent => 0 end
               /\ battleHistory (fst s') = battleHistory e)).
Proof.
  intros Hactive.
  assert (Hkeep : status (updateActionTracking b actor a) = status b
                  /\ playerCreature (updateActionTracking b actor a) = playerCreature b
                  /\ opponentCreature (updateActionTracking b actor a)
                     = opponentCreature b
                  /\ turnCount (updateActionTracking b actor a) = turnCount b
                  /\ currentTurn (updateActionTracking b actor a) = currentTurn b
                  /\ winner (updateActionTracking b actor a) = winner b).
  { unfold updateActionTracking. destruct actor; repeat split; reflexivity. }
  destruct Hkeep as [Hst1 [Hp1 [Ho1 [Ht1 [Hc1 Hw1]]]]].
  unfold finishTurn, checkBattleEnd. cbn [withBattle currentBattle].
  set (b1 := updateActionTracking b actor a) in *.
  rewrite Hst1, Hactive. cbn [statusEqb negb]. rewrite Hp1, Ho1.
  assert (Hcur : currentBattle (withBattle e b1) = Some b1) by reflexivity.
  destruct (Z.leb_spec (hp (stats (playerCreature b))) 0) as [Hdown | Hup].
  { destruct (endBattle_effect opponent (withBattle e b1) b1 w Hcur)
      as [b2 [Hcur2 [Hpc [Hoc [Htc [Hct [Hpa [Hoa [Hst [Hw [Hrew _]]]]]]]]]]].
    unfold withBattle in *.
    destruct (endBattle opponent _) as [[] s2 | msg s2] eqn:Hend; [|discriminate].
    intros [= <- <-]. split; [reflexivity|].
    destruct (endBattle_ok_history opponent _ b1 w s2 Hcur Hend) as [b3 [Hcur3 Hh]].
    cbn [stateAfter] in Hcur2. rewrite Hcur2 in Hcur3. injection Hcur3 as <-.
    exists b2. split; [exact Hcur2|].
    split; [congruence|]. split; [congruence|].
    split; [exact Hpa|]. split; [exact Hoa|].
    left. repeat split; try assumption; try congruence. }
  destruct (Z.leb_spec (hp (stats (opponentCreature b))) 0) as [Hodown | Houp].
  { destruct (endBattle_effect player (withBattle e b1) b1 w Hcur)
      as [b2 [Hcur2 [Hpc [Hoc [Htc [Hct [Hpa [Hoa [Hst [Hw [Hrew _]]]]]]]]]]].
    unfold withBattle in *.
    destruct (endBattle player _) as [[] s2 | msg s2] eqn:Hend; [|discriminate].
    intros [= <- <-]. split; [reflexivity|].
    destruct (endBattle_ok_history player _ b1 w s2 Hcur Hend) as [b3 [Hcur3 Hh]].
    cbn [stateAfter] in Hcur2. rewrite Hcur2 in Hcur3. injection Hcur3 as <-.
    exists b2. split; [exact Hcur2|].
    split; [congruence|]. split; [congruence|].
    split; [exact Hpa|]. split; [exact Hoa|].
    right. left. repeat split; try assumption; try congruence. }
  cbn [currentBattle].
  destruct actor; intros [= <- <-]; (split; [reflexivity|]);
    eexists; (split; [reflexivity|]);
    cbn [withTurn playerCreature opponentCreature playerActions opponentActions
         status winner currentTurn turnCount fst withBattle battleHistory];
    repeat split; try assumption; try congruence;
    right; right; repeat split; try assumption; try congruence; lia.
Qed.

(** X25: the effect of an action of the player that is carried out.  An
    attack or a special attack deals at least 1 damage, takes it from the
    opponent's hit points (not below 0) and leaves the player's creature as
    it is; the number of special attacks already used is not looked at.
    Defending deals no damage and restores a tenth of the maximum hit
    points, up to the maximum.  Then the battle is lost if the player has
    no hit points, else won if the opponent has none (the ended battle goes
    to the history, the turn stays), else it stays active, the turn goes to
    the opponent and the turn count rises by one. *)
Theorem executePlayerAction_effect (actionType : string) (s s' : State)
  (r : ActionResult) (b : Battle) :
  currentBattle (fst s) = Some b ->
  executePlayerAction actionType s = Ok r s' ->
  exists a b',
    parseAction actionType = Some a
    /\ resultActionType r = a
    /\ status b = active /\ currentTurn b = player
    /\ currentBattle (fst s') = Some b'
    /\ match a with
       | Action.defend =>
           resultDamage r = 0
           /\ opponentCreature b' = opponentCreature b
           /\ playerCreature b'
              = setHp (playerCreature b)
                  (Z.min (maxHp (stats (playerCreature b)))
                         (hp (stats (playerCreature b))
                          + maxHp (stats (playerCreature b)) / 10))
       | _ =>
           1 <= resultDamage r
           /\ playerCreature b' = playerCreature b
           /\ opponentCreature b'
              = setHp (opponentCreature b)
                  (Z.max 0 (hp (stats (opponentCreature b)) - resultDamage r))
       end
    /\ specialAttacksUsed (playerActions b')
       = specialAttacksUsed (playerActions b)
         + (if Action.eqb a Action.special then 1 else 0)
    /\ consecutiveDefends (playerActions b')
       = (if Action.eqb a Action.defend
          then consecutiveDefends (playerActions b) + 1 else 0)
    /\ lastAction (playerActions b') = Some a
    /\ opponentActions b' = opponentActions b
    /\ ((hp (stats (playerCreature b')) <= 0
         /\ status b' = lost /\ winner b' = Some opponent
         /\ experienceReward b' = Some (Points 0)
         /\ currentTurn b' = player /\ turnCount b' = turnCount b
         /\ battleHistory (fst s') = battleHistory (fst s) ++ [b'])
        \/ (0 < hp (stats (playerCreature b'))
            /\ hp (stats (opponentCreature b')) <= 0
            /\ status b' = won /\ winner b' = Some player
            /\ experienceReward b' <> None
            /\ currentTurn b' = player /\ turnCount b' = turnCount b
            /\ battleHistory (fst s') = battleHistory (fst s) ++ [b'])
        \/ (0 < hp (stats (playerCreature b'))
            /\ 0 < hp (stats (opponentCreature b'))
            /\ status b' = active
            /\ currentTurn b' = opponent /\ turnCount b' = turnCount b + 1
            /\ battleHistory (fst s') = battleHistory (fst s))).
Proof.
  destruct s as [e w]. cbn [fst]. intros Hb. unfold executePlayerAction. rewrite Hb.
  destruct (statusEqb (status b) active) eqn:Hst; cbn [negb]; [|discriminate].
  apply statusEqb_active in Hst.
  destruct (sideEqb (currentTurn b) player) eqn:Hturn; cbn [negb]; [|discriminate].
  apply sideEqb_eq in Hturn.
  destruct (executeAction e b player actionType w) as [r0 [b1 w1] | msg [b1 w1]] eqn:Hrun;
    [|discriminate].
  intros Hfin.
  destruct (executeAction_effect e b b1 player actionType w w1 r0 Hrun)
    as [a [Hparse [Hra [Hs1 [Hw1 [Htc1 [Hct1 [_ [_ [H1 [H2 [H3 [H4 Heff]]]]]]]]]]]]].
  assert (Hact1 : status b1 = active) by congruence.
  destruct (finishTurn_effect e b1 player (resultActionType r0) r0 r w1 s' Hact1 Hfin)
    as [-> [b' [Hcur [Hpc [Hoc [Hpa [Hoa Hcases]]]]]]].
  rewrite Hra in *.
  exists a, b'. split; [exact Hparse|]. split; [reflexivity|].
  split; [exact Hst|]. split; [exact Hturn|]. split; [exact Hcur|].
  cbn [attackerOf defenderOf] in Heff.
  assert (Hopp : opponentActions b1 = opponentActions b).
  { revert Hrun. unfold executeAction. destruct (dateNow w) as [t w0].
    destruct (parseAction actionType) as [[| |]|];
      repeat match goal with
             | |- context [let '(_, _) := ?x in _] => destruct x
             end; try discriminate; intros [= _ <- _]; reflexivity. }
  split.
  { rewrite Hpc, Hoc. destruct a; destruct Heff as [Hd [Hx Hy]];
      repeat split; assumption. }
  unfold updateActionTracking in Hpa, Hoa.
  cbn [actionsOf setActionsOf withActions playerActions opponentActions] in Hpa, Hoa.
  rewrite Hpa, Hoa, Hopp.
  cbn [specialAttacksUsed consecutiveDefends lastAction].
  rewrite H1, H2.
  split; [destruct (Action.eqb a Action.special); lia|].
  split; [reflexivity|]. split; [reflexivity|]. split; [reflexivity|].
  rewrite Hpc, Hoc.
  destruct Hcases as [Hc | [Hc | Hc]]; [left | right; left | right; right];
    repeat split; try tauto; try (destruct Hc; congruence);
    try (intuition congruence); intuition lia.
Qed.

Lemma executePlayerAction_effect_witness :
  currentBattle (fst (Samples.engine player, Samples.worldHigh))
  = Some (Samples.battle player)
  /\ exists r s',
       executePlayerAction "attack" (Samples.engine player, Samples.worldHigh) = Ok r s'
       /\ exists a b',
            parseAction "attack" = Some a
            /\ resultActionType r = a
            /\ currentBattle (fst s') = Some b'.
Proof.
  split; [reflexivity|].
  destruct (executePlayerAction "attack" (Samples.engine player, Samples.worldHigh))
    as [r s' | msg s'] eqn:Hrun.
  - exists r, s'. split; [reflexivity|].
    destruct (executePlayerAction_effect "attack"
                (Samples.engine player, Samples.worldHigh) s' r
                (Samples.battle player) eq_refl Hrun)
      as [a [b' [H1 [H2 [_ [_ [H3 _]]]]]]].
    exists a, b'. repeat split; assumption.
  - exfalso. vm_compute in Hrun. discriminate Hrun.
Defined.

(** X26: the effect of an action of the opponent that is carried out: as
    for the player with the sides exchanged, except that the turn count
    stays as it is when the turn goes back to the player. *)
Theorem executeAIAction_effect (s s' : State) (r : ActionResult) (b : Battle) :
  currentBattle (fst s) = Some b ->
  executeAIAction s = Ok r s' ->
  exists a b',
    resultActionType r = a
    /\ status b = active /\ currentTurn b = opponent
    /\ currentBattle (fst s') = Some b'
    /\ match a with
       | Action.defend =>
           resultDamage r = 0
           /\ playerCreature b' = playerCreature b
           /\ opponentCreature b'
              = setHp (opponentCreature b)
                  (Z.min (maxHp (stats (opponentCreature b)))
                         (hp (stats (opponentCreature b))
                          + maxHp (stats (opponentCreature b)) / 10))
       | _ =>
           1 <= resultDamage r
           /\ opponentCreature b' = opponentCreature b
           /\ playerCreature b'
              = setHp (playerCreature b)
                  (Z.max 0 (hp (stats (playerCreature b)) - resultDamage r))
       end
    /\ specialAttacksUsed (opponentActions b')
       = specialAttacksUsed (opponentActions b)
         + (if Action.eqb a Action.special then 1 else 0)
    /\ consecutiveDefends (opponentActions b')
       = (if Action.eqb a Action.defend
          then consecutiveDefends (opponentActions b) + 1 else 0)
    /\ lastAction (opponentActions b') = Some a
    /\ ((hp (stats (playerCreature b')) <= 0
         /\ status b' = lost /\ winner b' = Some opponent
         /\ experienceReward b' = Some (Points 0)
         /\ currentTurn b' = opponent /\ turnCount b' = turnCount b
         /\ battleHistory (fst s') = battleHistory (fst s) ++ [b'])
        \/ (0 < hp (stats (playerCreature b'))
            /\ hp (stats (opponentCreature b')) <= 0
            /\ status b' = won /\ winner b' = Some player
            /\ experienceReward b' <> None
            /\ currentTurn b' = opponent /\ turnCount b' = turnCount b
            /\ battleHistory (fst s') = battleHistory (fst s) ++ [b'])
        \/ (0 < hp (stats (playerCreature b'))
            /\ 0 < hp (stats (opponentCreature b'))
            /\ status b' = active
            /\ currentTurn b' = player /\ turnCount b' = turnCount b
            /\ battleHistory (fst s') = battleHistory (fst s))).
Proof.
  destruct s as [e w]. cbn [fst]. intros Hb. unfold executeAIAction. rewrite Hb.
  destruct (statusEqb (status b) active) eqn:Hst; cbn [negb]; [|discriminate].
  apply statusEqb_active in Hst.
  destruct (sideEqb (currentTurn b) opponent) eqn:Hturn; cbn [negb]; [|discriminate].
  apply sideEqb_eq in Hturn.
  destruct (makeAIDecision e b w) as [[actionType ai'] w0].
  set (e1 := mkEngine (Some b) (battleHistory e) ai' (difficultyManager e)).
  destruct (executeAction e1 b opponent (decisionText actionType) w0)
    as [r0 [b1 w1] | msg [b1 w1]] eqn:Hrun; [|discriminate].
  intros Hfin.
  destruct (executeAction_effect e1 b b1 opponent _ w0 w1 r0 Hrun)
    as [a [Hparse [Hra [Hs1 [Hw1 [Htc1 [Hct1 [_ [_ [H1 [H2 [H3 [H4 Heff]]]]]]]]]]]]].
  assert (Hact1 : status b1 = active) by congruence.
  destruct (finishTurn_effect e1 b1 opponent (resultActionType r0) r0 r w1 s' Hact1 Hfin)
    as [-> [b' [Hcur [Hpc [Hoc [Hpa [Hoa Hcases]]]]]]].
  rewrite Hra in *.
  exists a, b'. split; [reflexivity|].
  split; [exact Hst|]. split; [exact Hturn|]. split; [exact Hcur|].
  cbn [attackerOf defenderOf] in Heff.
  split.
  { rewrite Hpc, Hoc. destruct a; destruct Heff as [Hd [Hx Hy]];
      repeat split; assumption. }
  unfold updateActionTracking in Hoa.
  cbn [actionsOf setActionsOf withActions playerActions opponentActions] in Hoa.
  rewrite Hoa.
  cbn [specialAttacksUsed consecutiveDefends lastAction].
  rewrite H3, H4.
  split; [destruct (Action.eqb a Action.special); lia|].
  split; [reflexivity|]. split; [reflexivity|].
  rewrite Hpc, Hoc. cbn [e1 battleHistory] in Hcases.
  destruct Hcases as [Hc | [Hc | Hc]]; [left | right; left | right; right];
    repeat split; try tauto; try (destruct Hc; congruence);
    try (intuition congruence); intuition lia.
Qed.

Lemma executeAIAction_effect_witness :
  currentBattle (fst (Samples.engine opponent, Samples.worldHigh))
  = Some (Samples.battle opponent)
  /\ exists r s',
       executeAIAction (Samples.engine opponent, Samples.worldHigh) = Ok r s'
       /\ exists a b',
            resultActionType r = a
            /\ currentBattle (fst s') = Some b'
            /\ lastAction (opponentActions b') = Some a.
Proof.
  split; [reflexivity|].
  destruct (executeAIAction (Samples.engine opponent, Samples.worldHigh))
    as [r s' | msg s'] eqn:Hrun.
  - exists r, s'. split; [reflexivity|].
    destruct (executeAIAction_effect (Samples.engine opponent, Samples.worldHigh) s' r
                (Samples.battle opponent) eq_refl Hrun)
      as [a [b' [H1 [_ [_ [H2 [_ [_ [_ [H3 _]]]]]]]]]].
    exists a, b'. repeat split; assumption.
  - exfalso. vm_compute in Hrun. discriminate Hrun.
Defined.

(** The index that [generatePersonality] draws is always in the table. *)
Lemma generatePersonality_some (w : World) :
  exists p,
    AISetup.generatePersonality w = (Some p, snd (mathRandom w))
    /\ In p AIOpponent.personalities.
Proof.
  unfold AISetup.generatePersonality.
  pose proof (mathRandom_range w) as [H0 H1].
  destruct (mathRandom w) as [r w1]. cbn [fst snd] in *.
  destruct (index_in_range AIOpponent.personalities
              (Js.floor (r * inject_Z (Z.of_nat (List.length AIOpponent.personalities)))%Q))
    as [p Hp].
  { apply scaled_floor_range; [exact H0 | exact H1 | reflexivity]. }
  exists p. rewrite Hp. split; [reflexivity | exact (index_In _ _ _ Hp)].
Qed.

Lemma speed_advantage (a b : Z) :
  Qle_bool (inject_Z a * SPEED_ADVANTAGE_THRESHOLD) (inject_Z b) = true
  <-> 12 * a <= 10 * b.
Proof.
  rewrite Qle_bool_iff. unfold SPEED_ADVANTAGE_THRESHOLD, Qle, Qmult, inject_Z.
  cbn [Qnum Qden]. lia.
Qed.

(** X27: [initiateBattle] throws exactly when one of the two creatures
    fails [DataValidation.isValidCreature] (the player's is tested first),
    or when the engine has a DifficultyManager and the difficulty in force
    is a name that every object inherits (a TypeError), and then changes
    nothing.  Otherwise, whatever the text of the difficulty, it replaces
    the current battle, whatever its state, by an active battle of the two
    creatures at turn count 0, with cleared action counters and a log that
    holds the start entry, and makes a new AIOpponent with an empty memory
    and the difficulty in force; the history is kept.  A creature whose
    speed reaches 1.2 times the other's moves first, the player's creature
    when both do. *)
Theorem initiateBattle_result (p o : Creature) (d : option string) (s : State) :
  (DataValidation.isValidCreature p = false ->
   initiateBattle p o d s = Throw "Invalid player creature" s)
  /\ (DataValidation.isValidCreature p = true ->
      DataValidation.isValidCreature o = false ->
      initiateBattle p o d s = Throw "Invalid opponent creature" s)
  /\ (DataValidation.isValidCreature p = true ->
      DataValidation.isValidCreature o = true ->
      difficultyManager (fst s) <> None ->
      DifficultyName.lookup (battleDifficultyOf d (fst s)) = DifficultyName.Inherited ->
      initiateBattle p o d s = Throw "TypeError" s)
  /\ (DataValidation.isValidCreature p = true ->
      DataValidation.isValidCreature o = true ->
      difficultyManager (fst s) = None
      \/ DifficultyName.lookup (battleDifficultyOf d (fst s))
         <> DifficultyName.Inherited ->
      exists b ai w',
        initiateBattle p o d s
        = Ok b (mkEngine (Some b) (battleHistory (fst s)) (Some ai)
                  (difficultyManager (fst s)), w')
        /\ playerCreature b = p /\ opponentCreature b = o /\ difficulty b = d
        /\ status b = active /\ turnCount b = 0 /\ winner b = None
        /\ playerActions b = freshTracking /\ opponentActions b = freshTracking
        /\ (exists t, battleLog b = [BattleStartEntry (name p) (name o) t])
        /\ (12 * speed (stats o) <= 10 * speed (stats p) -> currentTurn b = player)
        /\ (10 * speed (stats p) < 12 * speed (stats o) ->
            12 * speed (stats p) <= 10 * speed (stats o) ->
            currentTurn b = opponent)
        /\ AIOpponent.memory ai = AISetup.emptyMemory
        /\ AIOpponent.difficulty ai = battleDifficultyOf d (fst s)
        /\ In (AIOpponent.traits (AIOpponent.personality ai))
              (List.map AIOpponent.traits AIOpponent.personalities)).
Proof.
  destruct s as [e w]. cbn [fst]. unfold initiateBattle.
  destruct (DataValidation.isValidCreature p); cbn [negb];
    [|split; [reflexivity | split; [discriminate | split; discriminate]]].
  split; [discriminate|].
  destruct (DataValidation.isValidCreature o); cbn [negb];
    [|split; [reflexivity | split; discriminate]].
  split; [discriminate|].
  set (bd := battleDifficultyOf d e).
  assert (Hturn : forall w4,
            (12 * speed (stats o) <= 10 * speed (stats p) ->
             fst (determineTurnOrder p o w4) = player)
            /\ (10 * speed (stats p) < 12 * speed (stats o) ->
                12 * speed (stats p) <= 10 * speed (stats o) ->
                fst (determineTurnOrder p o w4) = opponent)).
  { intros w4. unfold determineTurnOrder.
    destruct (Qle_bool (inject_Z (speed (stats o)) * SPEED_ADVANTAGE_THRESHOLD)
                       (inject_Z (speed (stats p)))) eqn:H1.
    - apply speed_advantage in H1. split; [reflexivity | lia].
    - assert (Hn : ~ 12 * speed (stats o) <= 10 * speed (stats p)).
      { intros H. apply speed_advantage in H. congruence. }
      split; [intros H; contradiction|]. intros _ H2.
      apply speed_advantage in H2. rewrite H2. reflexivity. }
  assert (Hstart : forall chosen w1,
            (difficultyManager e <> None -> exists nm, chosen = Some nm) ->
            exists b ai w',
              startBattle p o d bd chosen (e, w) w1
              = Ok b (mkEngine (Some b) (battleHistory e) (Some ai)
                        (difficultyManager e), w')
              /\ playerCreature b = p /\ opponentCreature b = o /\ difficulty b = d
              /\ status b = active /\ turnCount b = 0 /\ winner b = None
              /\ playerActions b = freshTracking /\ opponentActions b = freshTracking
              /\ (exists t, battleLog b = [BattleStartEntry (name p) (name o) t])
              /\ (12 * speed (stats o) <= 10 * speed (stats p) ->
                  currentTurn b = player)
              /\ (10 * speed (stats p) < 12 * speed (stats o) ->
                  12 * speed (stats p) <= 10 * speed (stats o) ->
                  currentTurn b = opponent)
              /\ AIOpponent.memory ai = AISetup.emptyMemory
              /\ AIOpponent.difficulty ai = bd
              /\ In (AIOpponent.traits (AIOpponent.personality ai))
                    (List.map AIOpponent.traits AIOpponent.personalities)).
  { intros chosen w1 Hchosen. unfold startBattle, AISetup.create. cbn [fst].
    destruct (generatePersonality_some w1) as [p0 [Hp0 Hin0]].
    rewrite Hp0. cbn [option_map].
    destruct (difficultyManager e) as [dm|].
    - destruct Hchosen as [nm ->]; [discriminate|].
      destruct (generatePersonality_some (snd (mathRandom w1))) as [p1 [Hp1 Hin1]].
      rewrite Hp1.
      cbn [AIOpponent.difficulty AIOpponent.memory].
      destruct (GameUtils.generateId _) as [bid w4].
      specialize (Hturn w4).
      destruct (determineTurnOrder p o w4) as [turn w5]. cbn [fst] in Hturn.
      unfold dateNow. do 3 eexists. split; [reflexivity|].
      cbn [addBattleLogEntry withLog playerCreature opponentCreature difficulty status
           turnCount winner playerActions opponentActions battleLog currentTurn app
           AIOpponent.memory AIOpponent.difficulty AIOpponent.personality
           AIOpponent.traits].
      repeat split; try reflexivity; try tauto.
      + eexists. reflexivity.
      + apply in_map. exact Hin1.
    - destruct (GameUtils.generateId _) as [bid w4].
      specialize (Hturn w4).
      destruct (determineTurnOrder p o w4) as [turn w5]. cbn [fst] in Hturn.
      unfold dateNow. do 3 eexists. split; [reflexivity|].
      cbn [addBattleLogEntry withLog playerCreature opponentCreature difficulty status
           turnCount winner playerActions opponentActions battleLog currentTurn app
           AIOpponent.memory AIOpponent.difficulty AIOpponent.personality
           AIOpponent.traits].
      repeat split; try reflexivity; try tauto.
      + eexists. reflexivity.
      + apply in_map. exact Hin0. }
  cbv zeta. fold bd.
  destruct (difficultyManager e) as [dm|] eqn:Hdm.
  - unfold selectAIPersonalityOfName.
    destruct (DifficultyName.lookup bd) as [t | |] eqn:Hlook.
    + split; [discriminate|]. intros _ _ _.
      destruct (selectAIPersonality_some dm (Some t) w) as [nm [Hsel _]].
      rewrite Hsel. apply Hstart. intros _. exists nm. reflexivity.
    + split; [reflexivity|]. intros _ _ [H | H]; [discriminate H | now elim H].
    + split; [discriminate|]. intros _ _ _.
      destruct (selectAIPersonality_some dm (Some easy) w) as [nm [Hsel _]].
      rewrite Hsel. apply Hstart. intros _. exists nm. reflexivity.
  - split; [intros _ _ H; now elim H|]. intros _ _ _.
    apply Hstart. intros H; now elim H.
Qed.

End BattleProperties.
